(* ===== verification/_CoqProject ===== *)
-Q . S2P
Prelude.v
PyStr.v
Json.v
Difflib.v
StableSort.v
JsonText.v
Ranking.v
CacheStore.v
Service.v
Interleave.v
TwoSyncs.v
Extension.v
Render.v
Schedule.v
