(* ===== verification/Prelude.v ===== *)
(** * A verification development of ulauncher-devdocs

    The repository is a launcher plugin (src/main.py) built on a small
    service (src/devdocs/devdocs_service.py, class [DevDocsService]) that
    keeps an on-disk cache of the DevDocs index and of one entries file per
    documentation set, refreshes it over HTTP, and answers queries against
    it with a substring filter and a [difflib] similarity ranking.

    ** How the program is modelled

    Python code becomes Rocq functions in a state-and-exception monad
    [PyM S A := S -> S * res A] (this file): a raised exception is a value
    [Err e] of [res], and the state a computation reached before raising
    is kept, as in Python.  A [str] is a list of Latin-1 characters
    ([pystr]); JSON values, which is all the code stores, are the inductive
    [json] (Json.v).  The operating system and the network are a [world]
    (Service.v): a [gmap] from paths to files and directories, the trace of
    effects (logs, requests, writes, sleeps, notifications) in order, and
    a function from URLs to response bodies.

    ** Files, in dependency order

    - Prelude.v: [pystr], the exceptions [exn], [res], the monad [PyM] with
      its notations in [py_scope], the loops ([for_each], [filter_res],
      [map_res], [map_m]), the hint databases [devdocs] and [pysimp], and
      the combinators [rel_op] (a computation moves the state along a
      relation, whether it returns or raises) and [ensures] (what it
      returns satisfies a predicate), in a [Section] over a preorder.
    - PyStr.v: the [str] methods the code calls ([lower], [strip],
      [startswith], [in], [split], [join], [replace]).
    - Json.v: [json], subscription, [dict.get], [iter], [in], [==],
      truthiness, slicing.
    - Difflib.v ([Module Difflib]): [SequenceMatcher(None, a, b).ratio()] as
      CPython computes it ([find_longest_match], the work stack of
      [get_matching_blocks], the merge, the ratio).
    - StableSort.v: [sorted(..., reverse=True)] as a stable insertion sort,
      in a [Section] over a key and a total preorder.
    - JsonText.v: [json.dump] (with [ensure_ascii]) and [json.load] on
      text, [str()] and [repr()].
    - Ranking.v ([Module Ranking]): the filter and the sort of
      [get_docs] and [get_doc_entries].
    - CacheStore.v: [os.path.join]/[split]/[dirname], [os.mkdir],
      [os.makedirs], [open(p, 'w')], [json.dump]/[json.load] on files,
      behind the class [FsState] (the client's view of a state with a file
      system, with its laws [FsStateLaws]); [DevDocsService.__init__],
      [ensure_cache_dirs], [set_docs_to_fetch].
    - Service.v: the [world] and its [FsState] instance, [index],
      [fetch_doc_entries], [get_docs], [get_doc_entries],
      [get_doc_by_slug].
    - Interleave.v: [index()] as the sequence of its atomic operations
      ([op]: a log line or a request, [open(p, 'w')], one character that
      [json.dump] writes), and [cut ops w n], the world that a query run
      by the launcher thread between two operations of the timer thread
      reads.
    - TwoSyncs.v: two timer threads running [index()] at once, each with
      the file object of its [open(p, 'w')] writing at its own offset
      ([write_at], with NUL gaps past the end of the file, as POSIX
      [write] does), as a step relation [c2step] on two threads and one
      world, with [rtc] from stdpp for its runs.
    - Extension.v: src/main.py: [DevdocsExtension] and its methods, the
      four listeners, the [Timer] of [index_docs], and the launcher's
      dispatch of events as a step relation with its reachable states;
      [Section Keeps] carries any preorder on worlds that [index] keeps
      to every handler and every reachable state.
    - Render.v: the items the launcher receives for a search, as
      functions of the cache, the disk and the preferences.
    - Schedule.v: the timer thread as an omni-step relation and the
      inductive [eventually] over it.

    ** What is proved

    - Sync (Service.v): a successful [index()] writes exactly [index.json]
      with the selected documents and one entries file each, with its trace
      ([index_Ok]); a failed request for [docs.json] leaves the cache as it
      was ([index_down]); a failed entries request leaves the new
      [index.json] in place ([index_partial]); a search after a sync finds
      what was stored ([sync_then_get_docs]); a corrupt cache file makes
      the queries raise [JSONDecodeError] ([corrupt_cache_raises]).  For
      every [str] preference and every document, a sync writes the
      document's entries exactly when its slug is a substring of the
      preference ([index_selects_substrings]), and an absolute slug [/t]
      has its entries written to [/t.json] whatever the cache directory
      ([entries_path_escapes]).
    - Search (Service.v, Ranking.v): the functional behaviour of the three
      queries on a stored cache, their read-only-ness, the order of a ranked
      result (descending, stable, unique, hence what Timsort returns), and
      its errors.
    - Cache (CacheStore.v, JsonText.v): the [json.dump]/[json.load] round
      trip on text and on files and the idempotence of
      [ensure_cache_dirs].
    - Extension (Extension.v): the cache layout is an invariant of every
      reachable state (rule induction over [reachable]); keyword queries
      change nothing; the routing of queries; the URL of a page; the bounds
      of the rendered lists; the accumulation of timers.  The lemma
      [reachable_json_files] (every changed file holds a complete
      [json.dump]) holds only because [step] runs each handler, the
      timer's [index_docs] included, as one step; TwoSyncs.v shows that
      two timer threads break it.
    - Rendering (Render.v): the exact items of [show_entries] and
      [list_available_docs] on a stored cache, composing the search
      theorems with the rendering ([show_entries_renders],
      [list_available_docs_renders]).
    - Concurrency (Interleave.v): at the cut point [m] of a sync (the
      fine-grained sync is [index()], lemma [sync_ops_run]), [index.json]
      is the old file, or the first [m - 3] characters of the new text
      ([index_file_at_cut]), so a query may raise [JSONDecodeError] on a
      cache valid before and after the sync.
    - Two syncs (TwoSyncs.v): for one thread, writing at the file
      object's offset is appending (lemma [hrun_sync_ops]), which justifies
      the model of Interleave.v; two syncs that write the same [index.json]
      text leave exactly that text in every interleaving in which both
      finish ([two_syncs_same_index], an invariant over [rtc c2step]:
      the file is made of characters of the text at their place and NUL
      gaps, and the last thread to open it has its prefix in place); two
      syncs that write different texts can leave the second opener's text
      followed by the tail of the first's, which no later step changes
      ([two_syncs_mixed_index]; its witness makes [get_docs] raise
      [JSONDecodeError] for good).
    - Timers (Schedule.v): liveness of the refresh chain: while syncs
      succeed, a pending timer eventually requests [docs.json] any number
      of times ([timers_keep_syncing]).
    - difflib (Difflib.v): termination of the work stack; the lemmas
      [ratio_bounds] and [matching_blocks_common] and the example
      [ratio_not_symmetric] document the library model.
    Each theorem with hypotheses has a witness that applies it to a concrete
    cache ([demo_world], [scenario_world], [corrupt_world] in Service.v,
    [boot_ext] in Extension.v, [live_ext] in Schedule.v).

    ** Fuel and bounds

    - [mb_loop] gets [2 * len(a) + 1] pops: each pop either drops a range
      or records a block of size [k >= 1] and pushes ranges of at most
      [n - k] characters, so the potential [sum (2 * width + 1)] of the
      stack decreases ([mb_loop_terminates]).
    - [extend_left]/[extend_right] get [ahi - alo] steps, the most a block
      can grow inside its range.
    - [json_load s] parses with [1 + len(s)] units of fuel; the round trip
      shows that a value of size [n] dumps to at least [n] characters, so
      the fuel never runs out on a dump ([json_size_le_length]).
    - [os_makedirs] recurses at most [len(path)] times, once per
      path component.
    - Integers are unbounded in Python and are [Z] here; ratios are exact
      rationals [Q] (CPython's doubles order the same for names shorter
      than 2^25 characters).

    ** Not modelled

    Wall-clock time and the scheduler: every interleaving is allowed, and
    in Extension.v events are interleaved one at a time.  Interleave.v
    runs a query inside a sync, and TwoSyncs.v two syncs together, at the
    granularity of one character per write (a buffered [json.dump]
    reaches the file in larger chunks, a subset of these interleavings);
    three or more syncs at once and a query inside two syncs are not
    modelled; the entry point [DevdocsExtension().run()], HTTP status codes and headers,
    the launcher's run loop and windows, file permissions, characters
    above U+00FF, floats in JSON.  The libraries the code only calls
    ([os], [requests], the Ulauncher API, [threading], [gi.Notify],
    [logging], the [str] and [dict] builtins) are modelled through the
    calls it makes and no further: a log line or a notification is an
    event of the trace, a response is its body or a connection failure,
    a timer is a pending firing. *)

From Stdlib Require Import Ascii String List Bool Arith Lia.
Import ListNotations.

(** ** Python strings

    A Python [str] is a sequence of code points.  The development models
    the code points 0..255 (Latin-1, the Unicode block that [ascii] can
    hold, one byte per character) and represents a [str] as a list of
    them, so that slicing, concatenation and the substring test are list
    operations. *)
Definition pystr := list ascii.

(** A Rocq string literal read as a Python [str]. *)
Definition str (s : string) : pystr := list_ascii_of_string s.

(** [bool(s)] for a [str] or a [list]: it is not empty. *)
Definition nonempty {A} (l : list A) : bool := match l with [] => false | _ => true end.

Definition pystr_eqb (a b : pystr) : bool :=
  if list_eq_dec ascii_dec a b then true else false.

(** ** Exceptions raised by the modelled code

    One constructor per Python exception class that the code can raise,
    with the payload the code puts in it. *)
Inductive exn : Type :=
| KeyError (key : pystr)               (** [d[k]] on a dict without [k] *)
| TypeError (what : pystr)             (** wrong operand type *)
| AttributeError (what : pystr)        (** [x.lower()] on a non-[str] *)
| FileNotFoundError (path : pystr)     (** [open], [os.mkdir] *)
| FileExistsError (path : pystr)       (** [os.mkdir], [os.makedirs] *)
| IsADirectoryError (path : pystr)     (** [open] on a directory *)
| NotADirectoryError (path : pystr)    (** a path component is a file *)
| JSONDecodeError                      (** [json.load], [r.json()] *)
| ConnectionError (url : pystr).       (** [requests.get] *)

(** The outcome of a computation: a value or a raised exception. *)
Inductive res (A : Type) : Type :=
| Ok (a : A)
| Err (e : exn).
Arguments Ok {A} a.
Arguments Err {A} e.

Definition rbind {A B} (r : res A) (k : A -> res B) : res B :=
  match r with Ok a => k a | Err e => Err e end.

(** ** The state-and-exception monad

    [PyM S A] threads a state [S] (the file system, the log) and may raise.
    As in Python, what a computation did to the state before it raised is
    kept: an exception does not roll the state back. *)
Definition PyM (S A : Type) : Type := S -> S * res A.

Definition pret {S A} (a : A) : PyM S A := fun s => (s, Ok a).
Definition raise {S A} (e : exn) : PyM S A := fun s => (s, Err e).
Definition lift {S A} (r : res A) : PyM S A := fun s => (s, r).
Definition pbind {S A B} (m : PyM S A) (k : A -> PyM S B) : PyM S B :=
  fun s => match m s with
           | (s', Ok a) => k a s'
           | (s', Err e) => (s', Err e)
           end.
Definition pget {S} : PyM S S := fun s => (s, Ok s).
Definition pmodify {S} (f : S -> S) : PyM S unit := fun s => (f s, Ok tt).

Declare Scope py_scope.
Delimit Scope py_scope with py.
Notation "'let?' x ':=' r 'in' k" := (rbind r (fun x => k))
  (at level 100, x name, r at level 100, k at level 200) : py_scope.
Notation "x <- m ;; k" := (pbind m (fun x => k))
  (at level 100, m at next level, right associativity) : py_scope.
Notation "m ;; k" := (pbind m (fun _ => k))
  (at level 100, k at level 200, right associativity) : py_scope.
Open Scope py_scope.

(** [for x in l: body(x)]: the body runs on each element in order and the
    first exception stops the loop. *)
Fixpoint for_each {S A} (l : list A) (body : A -> PyM S unit) : PyM S unit :=
  match l with
  | [] => pret tt
  | x :: l' => body x ;; for_each l' body
  end.

(** [[x for x in l if p(x)]] where evaluating [p] may raise: elements are
    tested left to right and the first exception is the result. *)
Fixpoint filter_res {A} (p : A -> res bool) (l : list A) : res (list A) :=
  match l with
  | [] => Ok []
  | x :: l' =>
      let? b := p x in
      let? r := filter_res p l' in
      Ok (if b then x :: r else r)
  end.

(** [[f(x) for x in l]] where [f] may raise. *)
Fixpoint map_res {A B} (f : A -> res B) (l : list A) : res (list B) :=
  match l with
  | [] => Ok []
  | x :: l' => let? y := f x in let? r := map_res f l' in Ok (y :: r)
  end.

(** [items = []; for x in l: items.append(f(x))] where [f] runs in the
    monad: the results in order, the first exception stops the loop. *)
Fixpoint map_m {S A B} (f : A -> PyM S B) (l : list A) : PyM S (list B) :=
  match l with
  | [] => pret []
  | x :: l' => y <- f x ;; r <- map_m f l' ;; pret (y :: r)
  end.

(** ** Automation *)
Create HintDb devdocs.
Create Rewrite HintDb pysimp.

Lemma pbind_Ok {S A B} (m : PyM S A) (k : A -> PyM S B) s s' a :
  m s = (s', Ok a) -> pbind m k s = k a s'.
Proof. intros H. unfold pbind. now rewrite H. Qed.

Lemma pbind_Err {S A B} (m : PyM S A) (k : A -> PyM S B) s s' e :
  m s = (s', Err e) -> pbind m k s = (s', Err e).
Proof. intros H. unfold pbind. now rewrite H. Qed.

(** A bind that succeeds ran both of its parts successfully. *)
Lemma pbind_Ok_inv {S A B} (m : PyM S A) (k : A -> PyM S B) s s'' b :
  pbind m k s = (s'', Ok b) -> exists s' a, m s = (s', Ok a) /\ k a s' = (s'', Ok b).
Proof.
  unfold pbind. destruct (m s) as [s' [a|e]]; [eauto|discriminate].
Qed.

Lemma pbind_pret {S A B} (a : A) (k : A -> PyM S B) s : pbind (pret a) k s = k a s.
Proof. reflexivity. Qed.

Lemma pbind_assoc {S A B C} (m : PyM S A) (k : A -> PyM S B) (h : B -> PyM S C) s :
  pbind (pbind m k) h s = pbind m (fun a => pbind (k a) h) s.
Proof. unfold pbind. destruct (m s) as [s' [a|e]]; reflexivity. Qed.

Lemma rbind_Ok {A B} (a : A) (k : A -> res B) : rbind (Ok a) k = k a.
Proof. reflexivity. Qed.

#[export] Hint Rewrite @pbind_pret @pbind_assoc @rbind_Ok : pysimp.

(** A comprehension whose test never raises is [List.filter]. *)
Lemma filter_res_total {A} (p : A -> res bool) (f : A -> bool) (l : list A) :
  (forall x, In x l -> p x = Ok (f x)) -> filter_res p l = Ok (List.filter f l).
Proof.
  induction l as [|x l IH]; intros H; [reflexivity|]. simpl.
  rewrite (H x (or_introl eq_refl)), IH by (intros; apply H; now right).
  reflexivity.
Qed.

(** ...and a comprehension that succeeds computes [List.filter] of the
    tests' values. *)
Lemma filter_res_Ok_sublist {A} (p : A -> res bool) (l r : list A) :
  filter_res p l = Ok r -> forall x, In x r -> In x l /\ p x = Ok true.
Proof.
  revert r. induction l as [|y l IH]; simpl; intros r H x Hx.
  - injection H as <-. destruct Hx.
  - destruct (p y) as [[|]|e] eqn:Hp; simpl in H; [| |discriminate];
      destruct (filter_res p l) as [r'|e] eqn:Hr; simpl in H; try discriminate;
      injection H as <-.
    + destruct Hx as [<-|Hx]; [auto|]. destruct (IH r' eq_refl x Hx); auto.
    + destruct (IH r' eq_refl x Hx); auto.
Qed.

(** The first element whose test raises decides the comprehension. *)
Lemma filter_res_first_err {A} (p : A -> res bool) pre x rest e :
  (forall y, In y pre -> exists b, p y = Ok b) -> p x = Err e ->
  filter_res p (pre ++ x :: rest) = Err e.
Proof.
  intros Hpre Hx. induction pre as [|y pre IH]; simpl; [now rewrite Hx|].
  destruct (Hpre y (or_introl eq_refl)) as [b ->]. simpl.
  rewrite IH by (intros; apply Hpre; now right). reflexivity.
Qed.

Lemma map_res_total {A B} (f : A -> res B) (g : A -> B) (l : list A) :
  (forall x, In x l -> f x = Ok (g x)) -> map_res f l = Ok (List.map g l).
Proof.
  induction l as [|x l IH]; intros H; [reflexivity|]. simpl.
  rewrite (H x (or_introl eq_refl)), IH by (intros; apply H; now right).
  reflexivity.
Qed.

#[export] Hint Resolve filter_res_total map_res_total : devdocs.

Lemma pystr_eqb_spec (a b : pystr) : reflect (a = b) (pystr_eqb a b).
Proof. unfold pystr_eqb. destruct (list_eq_dec ascii_dec a b); now constructor. Qed.

Lemma pystr_eqb_refl (a : pystr) : pystr_eqb a a = true.
Proof. destruct (pystr_eqb_spec a a); congruence. Qed.

#[export] Hint Rewrite pystr_eqb_refl : pysimp.

(** Case analysis on a [pystr_eqb] test in the goal. *)
Ltac case_pystr_eqb :=
  match goal with
  | |- context [pystr_eqb ?a ?b] => destruct (pystr_eqb_spec a b); subst
  end.

(** A loop over [l1 ++ l2] runs the loop over [l1], then over [l2]. *)
Lemma for_each_app {S A} (l1 l2 : list A) (body : A -> PyM S unit) s :
  for_each (l1 ++ l2) body s = pbind (for_each l1 body) (fun _ => for_each l2 body) s.
Proof.
  revert s. induction l1 as [|x l1 IH]; intros s; [reflexivity|]. simpl.
  unfold pbind at 1 2 3. destruct (body x s) as [s' [[]|e]]; [|reflexivity].
  apply IH.
Qed.

Lemma pbind_lift_Ok {S A B} (r : res A) a (k : A -> PyM S B) s :
  r = Ok a -> pbind (lift r) k s = k a s.
Proof. now intros ->. Qed.

Lemma Forall_list_filter {A} (P : A -> Prop) (f : A -> bool) l :
  Forall P l -> Forall P (List.filter f l).
Proof.
  rewrite !Forall_forall. intros H x Hx. apply filter_In in Hx as [Hx _]. auto.
Qed.

(** A computation followed by [return a] leaves the state it left. *)
Lemma pbind_pret_fst {S A B} (m : PyM S A) (b : B) s : fst (pbind m (fun _ => pret b) s) = fst (m s).
Proof. unfold pbind. destruct (m s) as [s' [a|e]]; reflexivity. Qed.

Lemma map_m_length {S A B} (f : A -> PyM S B) l s s' r :
  map_m f l s = (s', Ok r) -> length r = length l.
Proof.
  revert s s' r. induction l as [|x l IH]; intros s s' r H; cbn in H.
  - now injection H as _ <-.
  - unfold pbind in H. destruct (f x s) as [s1 [y|e]]; [|discriminate].
    destruct (map_m f l s1) as [s2 [r'|e]] eqn:E; [|discriminate].
    injection H as _ <-. cbn. f_equal. exact (IH _ _ _ E).
Qed.

(** ** Effects along a relation

    [rel_op R m]: whatever [m] returns or raises, the state it leaves is
    related by [R] to the state it found; [ensures m P]: every value [m]
    returns satisfies [P].  A preorder [R] is carried through [pbind],
    and the value one step returns may be needed to show the next one
    keeps [R], which is what [rel_op_pbind_ensures] is for. *)
Section Effects.
Context {S : Type} (R : S -> S -> Prop) (R_refl : forall s, R s s)
  (R_trans : forall s1 s2 s3, R s1 s2 -> R s2 s3 -> R s1 s3).

Definition rel_op {A} (m : PyM S A) : Prop := forall s, R s (fst (m s)).

Definition ensures {A} (m : PyM S A) (P : A -> Prop) : Prop :=
  forall s s' a, m s = (s', Ok a) -> P a.

Lemma rel_op_pret {A} (a : A) : rel_op (pret a).
Proof. intros s. apply R_refl. Qed.

Lemma rel_op_lift {A} (r : res A) : rel_op (lift r).
Proof. intros s. apply R_refl. Qed.

Lemma rel_op_pbind_ensures {A B} (m : PyM S A) (k : A -> PyM S B) (P : A -> Prop) :
  rel_op m -> ensures m P -> (forall a, P a -> rel_op (k a)) -> rel_op (pbind m k).
Proof.
  intros Hm HP Hk s. specialize (Hm s). unfold pbind.
  destruct (m s) as [s' [a|e]] eqn:E; [|exact Hm].
  exact (R_trans _ _ _ Hm (Hk a (HP _ _ _ E) s')).
Qed.

Lemma rel_op_pbind {A B} (m : PyM S A) (k : A -> PyM S B) :
  rel_op m -> (forall a, rel_op (k a)) -> rel_op (pbind m k).
Proof.
  intros Hm Hk. apply (rel_op_pbind_ensures m k (fun _ => True)); [exact Hm|now intros ???|auto].
Qed.

Lemma rel_op_for_each {A} (l : list A) (body : A -> PyM S unit) (P : A -> Prop) :
  Forall P l -> (forall x, P x -> rel_op (body x)) -> rel_op (for_each l body).
Proof.
  intros Hl Hb. induction Hl as [|x l Hx _ IH]; [apply rel_op_pret|].
  apply rel_op_pbind; [exact (Hb x Hx)|intros _; exact IH].
Qed.

End Effects.

Lemma ensures_lift {S A} (r : res A) (P : A -> Prop) :
  (forall a, r = Ok a -> P a) -> ensures (S := S) (lift r) P.
Proof. intros H s s' a E. injection E as _ ->. auto. Qed.

Lemma filter_res_Forall {A} (P : A -> Prop) (p : A -> res bool) l r :
  Forall P l -> filter_res p l = Ok r -> Forall P r.
Proof.
  intros Hl Hr. apply List.Forall_forall. intros x Hx.
  apply (filter_res_Ok_sublist p l r Hr) in Hx as [Hx _]. exact (proj1 (List.Forall_forall P l) Hl x Hx).
Qed.

(** A loop whose body only computes: the state stays and the results are
    the body's values in order. *)
Lemma map_m_pure {S A B} (f : A -> PyM S B) (g : A -> B) l s :
  (forall x, In x l -> f x s = (s, Ok (g x))) -> map_m f l s = (s, Ok (map g l)).
Proof.
  induction l as [|x l IH]; intros Hf; [reflexivity|]. cbn [map_m map].
  rewrite (pbind_Ok _ _ _ _ _ (Hf x (or_introl eq_refl))).
  rewrite (pbind_Ok _ _ _ _ _ (IH (fun y Hy => Hf y (or_intror Hy)))). reflexivity.
Qed.

Lemma in_firstn {A} n (l : list A) x : In x (firstn n l) -> In x l.
Proof. intros Hx. rewrite <- (firstn_skipn n l). apply in_or_app. now left. Qed.

(** A loop over a concatenation of lists, one list per element. *)
Lemma for_each_flat_map {S A B} (f : A -> list B) (l : list A) (body : B -> PyM S unit) s :
  for_each (flat_map f l) body s = for_each l (fun x => for_each (f x) body) s.
Proof.
  revert s. induction l as [|x l IH]; intros s; [reflexivity|]. cbn [flat_map for_each].
  rewrite for_each_app. unfold pbind. destruct (for_each (f x) body s) as [s' [[]|e]]; [apply IH|reflexivity].
Qed.
