(* ===== verification/PyStr.v ===== *)
(** * The Python [str] builtins that the code calls

    [str.lower], [str.strip()], [str.strip(chars)], the substring test
    [a in b], [str.startswith], [str.split(sep)] with a one-character
    separator and [str.replace], on strings of Latin-1 code points
    ([Prelude.pystr]).  The character classes are CPython's: [isspace] is
    true of 9..13, 28..32, 133 and 160, and [lower] maps 65..90 and
    192..222 (except 215) up by 32.  These are library models: the
    theorems here are used by the components that call them. *)

From Stdlib Require Import Ascii String List Bool Arith Lia.
From S2P Require Import Prelude.
Import ListNotations.

Definition code (c : ascii) : nat := nat_of_ascii c.

(** [c.isspace()] on a code point below 256. *)
Definition py_isspace (c : ascii) : bool :=
  let n := code c in
  ((9 <=? n) && (n <=? 13)) || ((28 <=? n) && (n <=? 32)) || (n =? 133) || (n =? 160).

(** [c.isupper()] restricted to the letters that [lower] changes. *)
Definition py_isupper (c : ascii) : bool :=
  let n := code c in
  ((65 <=? n) && (n <=? 90)) || ((192 <=? n) && (n <=? 222) && negb (n =? 215)).

Definition py_lower_char (c : ascii) : ascii :=
  if py_isupper c then ascii_of_nat (code c + 32) else c.

(** [s.lower()] *)
Definition py_lower (s : pystr) : pystr := map py_lower_char s.

(** Drop the leading characters satisfying [p]. *)
Fixpoint lstrip_by (p : ascii -> bool) (s : pystr) : pystr :=
  match s with
  | [] => []
  | c :: s' => if p c then lstrip_by p s' else s
  end.

Definition rstrip_by (p : ascii -> bool) (s : pystr) : pystr :=
  rev (lstrip_by p (rev s)).

(** [s.strip()] *)
Definition py_strip (s : pystr) : pystr := rstrip_by py_isspace (lstrip_by py_isspace s).

(** [s.strip(chars)] *)
Definition py_strip_chars (chars s : pystr) : pystr :=
  let p c := existsb (Ascii.eqb c) chars in rstrip_by p (lstrip_by p s).

(** [s.startswith(prefix)] *)
Fixpoint py_startswith (s prefix : pystr) {struct prefix} : bool :=
  match prefix, s with
  | [], _ => true
  | c :: p', d :: s' => Ascii.eqb c d && py_startswith s' p'
  | _ :: _, [] => false
  end.

(** [needle in hay]: some position of [hay] starts with [needle]. *)
Fixpoint py_contains (needle hay : pystr) : bool :=
  py_startswith hay needle ||
  match hay with [] => false | _ :: hay' => py_contains needle hay' end.

(** [s.split(sep)] for a one-character [sep]: the pieces between the
    occurrences of [sep], so one more piece than there are separators. *)
Fixpoint py_split (sep : ascii) (s : pystr) : list pystr :=
  match s with
  | [] => [[]]
  | c :: s' =>
      let r := py_split sep s' in
      if Ascii.eqb c sep then [] :: r
      else match r with
           | w :: ws => (c :: w) :: ws
           | [] => [[c]]
           end
  end.

(** [sep.join(pieces)] *)
Fixpoint py_join (sep : pystr) (pieces : list pystr) : pystr :=
  match pieces with
  | [] => []
  | [w] => w
  | w :: ws => w ++ sep ++ py_join sep ws
  end.

(** [s.replace(old, new)] for a non-empty [old]: occurrences are replaced
    left to right, and the scan resumes after each replaced occurrence. *)
Fixpoint replace_go (fuel : nat) (old new s : pystr) : pystr :=
  match fuel with
  | 0 => s
  | S fuel' =>
      match s with
      | [] => []
      | c :: s' =>
          if py_startswith s old
          then new ++ replace_go fuel' old new (skipn (length old) s)
          else c :: replace_go fuel' old new s'
      end
  end.

Definition py_replace (s old new : pystr) : pystr := replace_go (length s) old new s.

(** ** Lemmas *)

Lemma py_startswith_spec (s p : pystr) :
  py_startswith s p = true <-> exists q, s = p ++ q.
Proof.
  revert s. induction p as [|c p IH]; intros [|d s]; simpl.
  - split; eauto.
  - split; eauto.
  - split; [discriminate|]. intros [q Hq]; discriminate.
  - rewrite andb_true_iff, IH. destruct (Ascii.eqb_spec c d) as [<-|Hne].
    + split; [intros [_ [q ->]]; eauto|intros [q Hq]; injection Hq as ->; eauto].
    + split; [intros [[=] _]|intros [q Hq]; injection Hq as ->; congruence].
Qed.

Lemma py_startswith_app (p q : pystr) : py_startswith (p ++ q) p = true.
Proof. apply py_startswith_spec. eauto. Qed.

Lemma py_contains_spec (n h : pystr) :
  py_contains n h = true <-> exists l r, h = l ++ n ++ r.
Proof.
  induction h as [|c h IH]; cbn [py_contains]; rewrite orb_true_iff, py_startswith_spec.
  - split.
    + intros [[q Hq]|[=]]. exists [], q. exact Hq.
    + intros [[|d l] [r Hr]]; [left; eauto|discriminate].
  - rewrite IH. split.
    + intros [[q Hq]|[l [r ->]]]; [exists [], q; exact Hq|exists (c :: l), r; reflexivity].
    + intros [[|d l] [r Hr]]; [left; eauto|].
      injection Hr as -> ->. right. eauto.
Qed.

Lemma py_contains_nil (h : pystr) : py_contains [] h = true.
Proof. destruct h; reflexivity. Qed.

Lemma py_contains_refl (s : pystr) : py_contains s s = true.
Proof. apply py_contains_spec. exists [], []. now rewrite app_nil_r. Qed.

(** The needle of a successful test is no longer than the haystack. *)
Lemma py_contains_length (n h : pystr) :
  py_contains n h = true -> length n <= length h.
Proof.
  intros [l [r ->]]%py_contains_spec. rewrite !length_app. lia.
Qed.

Lemma py_lower_app (a b : pystr) : py_lower (a ++ b) = py_lower a ++ py_lower b.
Proof. apply map_app. Qed.

Lemma length_py_lower (s : pystr) : length (py_lower s) = length s.
Proof. apply length_map. Qed.

(** Lower-casing both sides keeps a substring a substring. *)
Lemma py_contains_lower (n h : pystr) :
  py_contains n h = true -> py_contains (py_lower n) (py_lower h) = true.
Proof.
  intros [l [r ->]]%py_contains_spec. apply py_contains_spec.
  exists (py_lower l), (py_lower r). now rewrite !py_lower_app.
Qed.

Lemma py_lower_char_idem (c : ascii) : py_lower_char (py_lower_char c) = py_lower_char c.
Proof.
  destruct c as [b0 b1 b2 b3 b4 b5 b6 b7].
  destruct b0, b1, b2, b3, b4, b5, b6, b7; reflexivity.
Qed.

Lemma py_lower_idem (s : pystr) : py_lower (py_lower s) = py_lower s.
Proof.
  unfold py_lower. rewrite map_map.
  apply map_ext, py_lower_char_idem.
Qed.

#[export] Hint Rewrite py_lower_app length_py_lower py_lower_idem : pysimp.
#[export] Hint Resolve py_contains_refl py_contains_nil py_startswith_app : devdocs.

(** [lstrip_by] removes a prefix of characters satisfying [p]. *)
Lemma lstrip_by_spec (p : ascii -> bool) (s : pystr) :
  exists pre, s = pre ++ lstrip_by p s /\ forallb p pre = true /\
    match lstrip_by p s with [] => True | c :: _ => p c = false end.
Proof.
  induction s as [|c s [pre [Hs [Hp Hh]]]]; simpl.
  - exists []. auto.
  - destruct (p c) eqn:Hc.
    + exists (c :: pre). simpl. rewrite Hc, Hp. rewrite <- Hs. auto.
    + exists []. simpl. auto.
Qed.

(** A character of the split pieces is never the separator, and joining
    the pieces with the separator gives the string back. *)
Lemma py_split_nonempty (sep : ascii) (s : pystr) : py_split sep s <> [].
Proof.
  destruct s as [|c s]; simpl; [discriminate|].
  destruct (Ascii.eqb c sep); [discriminate|]. destruct (py_split sep s); discriminate.
Qed.

Lemma py_join_cons (sep w : pystr) (ws : list pystr) :
  ws <> [] -> py_join sep (w :: ws) = w ++ sep ++ py_join sep ws.
Proof. destruct ws; [congruence|reflexivity]. Qed.

(** Round trip of [str.split]: joining the pieces of [s.split(c)]
    with [c] gives [s] back, so the [doc:term] query of the launcher
    loses no character when it is split at [':']. *)
Theorem py_split_join (sep : ascii) (s : pystr) : py_join [sep] (py_split sep s) = s.
Proof.
  induction s as [|c s IH]; [reflexivity|]. simpl.
  destruct (Ascii.eqb_spec c sep) as [->|Hne].
  - rewrite py_join_cons by apply py_split_nonempty. simpl. now rewrite IH.
  - destruct (py_split sep s) as [|w ws] eqn:Hs; [now apply py_split_nonempty in Hs|].
    destruct ws as [|w' ws]; simpl in *; now rewrite IH.
Qed.

Lemma py_split_pieces (sep : ascii) (s : pystr) :
  Forall (fun w => ~ In sep w) (py_split sep s).
Proof.
  induction s as [|c s IH]; simpl; [repeat constructor; auto|].
  destruct (Ascii.eqb_spec c sep) as [->|Hne]; [constructor; auto|].
  destruct (py_split sep s) as [|w ws]; [repeat constructor; intros [->|[]]; auto|].
  inversion IH as [|? ? Hw Hws]; subst. constructor; auto.
  intros [->|Hin]; auto.
Qed.

(** The number of pieces is one more than the number of separators. *)
Lemma length_py_split (sep : ascii) (s : pystr) :
  length (py_split sep s) = S (count_occ ascii_dec s sep).
Proof.
  induction s as [|c s IH]; [reflexivity|]. simpl.
  destruct (Ascii.eqb_spec c sep) as [->|Hne].
  - destruct (ascii_dec sep sep); [|congruence]. simpl. now rewrite IH.
  - destruct (ascii_dec c sep); [congruence|].
    destruct (py_split sep s); simpl in *; lia.
Qed.

(** Splitting [s + sep + t] where [s] has no [sep]: [s] is the first
    piece. *)
Lemma py_split_app_sep (sep : ascii) (s t : pystr) :
  ~ In sep s -> py_split sep (s ++ sep :: t) = s :: py_split sep t.
Proof.
  induction s as [|c s IH]; intros Hs; simpl; [now rewrite Ascii.eqb_refl|].
  rewrite IH by (intros H; apply Hs; now right).
  destruct (Ascii.eqb_spec c sep) as [->|]; [exfalso; apply Hs; now left|reflexivity].
Qed.

Lemma py_split_no_sep (sep : ascii) (s : pystr) : ~ In sep s -> py_split sep s = [s].
Proof.
  induction s as [|c s IH]; intros Hs; [reflexivity|]. simpl.
  rewrite IH by (intros H; apply Hs; now right).
  destruct (Ascii.eqb_spec c sep) as [->|]; [exfalso; apply Hs; now left|reflexivity].
Qed.
