(* ===== verification/Json.v ===== *)
(** * JSON values as the code handles them

    The service never converts what [json.load] or [r.json()] returns into
    its own types: it indexes the raw Python objects ([x['slug']],
    [data['entries']], [doc.get('release', "")]), iterates them, compares
    them and calls [.lower()] on them.  [json] is the type of those
    objects (JSON numbers are modelled as integers, which is what DevDocs
    serves), and this file gives each Python operation the code applies to
    them, with the exception CPython raises when the operand has the wrong
    type. *)

From Stdlib Require Import Ascii String List Bool ZArith Lia.
From S2P Require Import Prelude PyStr.
Import ListNotations.

#[warnings="-register-all"]
Inductive json : Type :=
| JNull                               (** [None] *)
| JBool (b : bool)                    (** [True], [False] *)
| JInt (z : Z)                        (** [int] *)
| JStr (s : pystr)                    (** [str] *)
| JList (xs : list json)              (** [list] *)
| JObj (kvs : list (pystr * json)).   (** [dict], in insertion order *)

(** The induction principle that sees the elements of lists and dicts. *)
Section JsonInd.
Variable P : json -> Prop.
Hypothesis HNull : P JNull.
Hypothesis HBool : forall b, P (JBool b).
Hypothesis HInt : forall z, P (JInt z).
Hypothesis HStr : forall s, P (JStr s).
Hypothesis HList : forall xs, Forall P xs -> P (JList xs).
Hypothesis HObj : forall kvs, Forall (fun kv => P (snd kv)) kvs -> P (JObj kvs).

Fixpoint json_ind' (j : json) : P j :=
  match j with
  | JNull => HNull
  | JBool b => HBool b
  | JInt z => HInt z
  | JStr s => HStr s
  | JList xs =>
      HList xs ((fix go (l : list json) : Forall P l :=
                   match l with
                   | [] => Forall_nil _
                   | x :: l' => Forall_cons x (json_ind' x) (go l')
                   end) xs)
  | JObj kvs =>
      HObj kvs ((fix go (l : list (pystr * json)) : Forall (fun kv => P (snd kv)) l :=
                   match l with
                   | [] => Forall_nil _
                   | kv :: l' => Forall_cons kv (json_ind' (snd kv)) (go l')
                   end) kvs)
  end.
End JsonInd.

(** The Python type name, as it appears in CPython's messages. *)
Definition type_name (j : json) : pystr :=
  match j with
  | JNull => str "NoneType" | JBool _ => str "bool" | JInt _ => str "int"
  | JStr _ => str "str" | JList _ => str "list" | JObj _ => str "dict"
  end.

Fixpoint dict_lookup (k : pystr) (kvs : list (pystr * json)) : option json :=
  match kvs with
  | [] => None
  | (k', v) :: kvs' => if pystr_eqb k k' then Some v else dict_lookup k kvs'
  end.

(** [x[k]] with a [str] key [k]. *)
Definition getitem (x : json) (k : pystr) : res json :=
  match x with
  | JObj kvs => match dict_lookup k kvs with Some v => Ok v | None => Err (KeyError k) end
  | JList _ => Err (TypeError (str "list indices must be integers or slices, not str"))
  | JStr _ => Err (TypeError (str "string indices must be integers, not 'str'"))
  | _ => Err (TypeError (type_name x ++ str " object is not subscriptable"))
  end.

(** [x.get(k, default)] *)
Definition dict_get (x : json) (k : pystr) (default : json) : res json :=
  match x with
  | JObj kvs => Ok (match dict_lookup k kvs with Some v => v | None => default end)
  | _ => Err (AttributeError (type_name x ++ str " object has no attribute get"))
  end.

(** A [str] operand: [x.lower()], [x + '.json'] and [str.replace(_, x)]
    need one. *)
Definition as_str (x : json) : res pystr :=
  match x with
  | JStr s => Ok s
  | _ => Err (TypeError (str "expected str, got " ++ type_name x))
  end.

(** [x.lower()] *)
Definition json_lower (x : json) : res pystr :=
  match x with
  | JStr s => Ok (py_lower s)
  | _ => Err (AttributeError (type_name x ++ str " object has no attribute lower"))
  end.

(** [for v in x]: a list yields its elements, a dict its keys, a string
    its characters. *)
Definition py_iter (x : json) : res (list json) :=
  match x with
  | JList xs => Ok xs
  | JObj kvs => Ok (map (fun kv => JStr (fst kv)) kvs)
  | JStr s => Ok (map (fun c => JStr [c]) s)
  | _ => Err (TypeError (type_name x ++ str " object is not iterable"))
  end.

(** [bool(x)], as [if x:] and [if not x:] test it. *)
Definition py_truthy (x : json) : bool :=
  match x with
  | JNull => false
  | JBool b => b
  | JInt z => negb (Z.eqb z 0)
  | JStr s => negb (List.length s =? 0)
  | JList xs => negb (List.length xs =? 0)
  | JObj kvs => negb (List.length kvs =? 0)
  end.

(** [a == b]: [bool] is a subclass of [int] ([True == 1]), lists compare
    elementwise and dicts as key-value sets. *)
Fixpoint py_eq (a b : json) : bool :=
  match a, b with
  | JNull, JNull => true
  | JBool x, JBool y => Bool.eqb x y
  | JBool x, JInt z => Z.eqb (Z.b2z x) z
  | JInt z, JBool y => Z.eqb z (Z.b2z y)
  | JInt x, JInt y => Z.eqb x y
  | JStr x, JStr y => pystr_eqb x y
  | JList xs, JList ys =>
      (fix go (xs ys : list json) : bool :=
         match xs, ys with
         | [], [] => true
         | x :: xs', y :: ys' => py_eq x y && go xs' ys'
         | _, _ => false
         end) xs ys
  | JObj xs, JObj ys =>
      Nat.eqb (List.length xs) (List.length ys) &&
      (fix go (xs : list (pystr * json)) : bool :=
         match xs with
         | [] => true
         | (k, v) :: xs' =>
             match dict_lookup k ys with
             | Some w => py_eq v w && go xs'
             | None => false
             end
         end) xs
  | _, _ => false
  end.

(** [x in container] *)
Definition py_in (x container : json) : res bool :=
  match container with
  | JStr hay =>
      match x with
      | JStr needle => Ok (py_contains needle hay)
      | _ => Err (TypeError (str "'in <string>' requires string as left operand, not " ++ type_name x))
      end
  | JList ys => Ok (existsb (py_eq x) ys)
  | JObj kvs =>
      match x with
      | JStr k => Ok (match dict_lookup k kvs with Some _ => true | None => false end)
      | JList _ | JObj _ => Err (TypeError (str "unhashable type: " ++ type_name x))
      | _ => Ok false
      end
  | _ => Err (TypeError (str "argument of type " ++ type_name container ++ str " is not iterable"))
  end.

(** [x[:n]] *)
Definition py_slice_to (x : json) (n : nat) : res json :=
  match x with
  | JList xs => Ok (JList (firstn n xs))
  | JStr s => Ok (JStr (firstn n s))
  | JObj _ => Err (TypeError (str "unhashable type: slice"))
  | _ => Err (TypeError (type_name x ++ str " object is not subscriptable"))
  end.

(** ** Lemmas *)

Lemma getitem_obj (kvs : list (pystr * json)) (k : pystr) (v : json) :
  dict_lookup k kvs = Some v -> getitem (JObj kvs) k = Ok v.
Proof. simpl. now intros ->. Qed.

Lemma py_eq_str (s : pystr) (x : json) : py_eq (JStr s) x = true <-> x = JStr s.
Proof.
  destruct x; simpl; split; try discriminate.
  - destruct (pystr_eqb_spec s s0); congruence.
  - intros [= ->]. apply pystr_eqb_refl.
Qed.

(** Membership of a [str] in a list of [str]s is equality with one. *)
Lemma py_in_str_list (s : pystr) (ys : list json) :
  py_in (JStr s) (JList ys) = Ok true <-> In (JStr s) ys.
Proof.
  simpl. split.
  - intros [= H]. apply existsb_exists in H as [y [Hy Heq]].
    apply py_eq_str in Heq. now subst.
  - intros H. f_equal. apply existsb_exists. exists (JStr s). split; [exact H|].
    apply pystr_eqb_refl.
Qed.

#[export] Hint Resolve getitem_obj : devdocs.
