(* ===== verification/Difflib.v ===== *)
(** * [difflib.SequenceMatcher(None, a, b).ratio()]

    The ranking of [get_doc_entries] sorts by this score.  [difflib] is the
    Python standard library, not code of the repository: the model follows
    CPython's [Lib/difflib.py] as the spec describes it (a ratio of
    matching blocks), with [isjunk = None] and [autojunk = True] as the call
    [SequenceMatcher(None, x['name'], query)] sets them:
    - [b2j]: [__chain_b], the index lists of the characters of [b], minus
      the "popular" characters (more than [len(b) // 100 + 1] occurrences)
      when [len(b) >= 200];
    - [find_longest_match]: the [j2len] dynamic programme over
      [range(alo, ahi)], then the two extension loops over non-junk
      characters (the two loops over junk characters never run: with
      [isjunk = None] the junk set is empty);
    - [get_matching_blocks]: the work-stack loop, the sort, the merge of
      adjacent blocks and the sentinel [(la, lb, 0)];
    - [ratio]: [2 * matches / (la + lb)], and [1] when both are empty.
    Scores are kept as exact rationals ([Q]); CPython computes the same
    quotient as a double, which orders the same way for strings shorter
    than 2^25 characters.

    Theorems: the block [find_longest_match] returns lies in its ranges;
    the work stack empties within its fuel ([mb_loop_terminates]); the
    matched characters are at most the length of either string, so
    [0 <= ratio <= 1]; every reported block is a genuine common substring
    ([matching_blocks_common]: the [j2len] table holds runs of equal
    characters, the extension loops and the merge keep them); and
    [ratio] is not symmetric. *)

From Stdlib Require Import Ascii String List Bool Arith Lia ZArith QArith.
From S2P Require Import Prelude PyStr.
Import ListNotations.
Local Open Scope nat_scope.

Module Difflib.

(** A matching block [(i, j, k)]: [a[i:i+k] == b[j:j+k]]. *)
Definition block : Type := nat * nat * nat.

Definition char_at (s : pystr) (i : nat) : ascii := nth i s "000"%char.

(** The indices of [c] in [b], ascending. *)
Definition indices_of (b : pystr) (c : ascii) : list nat :=
  map fst (List.filter (fun p => Ascii.eqb (snd p) c) (combine (seq 0 (length b)) b)).

(** [__chain_b]'s autojunk heuristic. *)
Definition popular (b : pystr) (c : ascii) : bool :=
  (200 <=? length b) && (length b / 100 + 1 <? length (indices_of b c)).

(** [self.b2j.get(c, nothing)] *)
Definition b2j (b : pystr) (c : ascii) : list nat :=
  if popular b c then [] else indices_of b c.

(** [j2len.get(j, 0)] *)
Fixpoint j2len_get (j : nat) (m : list (nat * nat)) : nat :=
  match m with
  | [] => 0
  | (j', k) :: m' => if j =? j' then k else j2len_get j m'
  end.

(** The inner loop of [find_longest_match] for one [i]:
    [for j in b2j.get(a[i], nothing)], with its [continue] below [blo] and
    its [break] at [bhi]. *)
Fixpoint flm_inner (i blo bhi : nat) (j2len : list (nat * nat)) (js : list nat)
    (newj2len : list (nat * nat)) (best : block) : list (nat * nat) * block :=
  match js with
  | [] => (newj2len, best)
  | j :: js' =>
      if j <? blo then flm_inner i blo bhi j2len js' newj2len best
      else if bhi <=? j then (newj2len, best)
      else
        let k := (if j =? 0 then 0 else j2len_get (j - 1) j2len) + 1 in
        let '(_, _, bestsize) := best in
        let best' := if bestsize <? k then (i + 1 - k, j + 1 - k, k) else best in
        flm_inner i blo bhi j2len js' ((j, k) :: newj2len) best'
  end.

(** The outer loop [for i in range(alo, ahi)]. *)
Definition flm_loop (a b : pystr) (alo ahi blo bhi : nat) : block :=
  snd (fold_left
         (fun st i => flm_inner i blo bhi (fst st) (b2j b (char_at a i)) [] (snd st))
         (seq alo (ahi - alo)) ([], (alo, blo, 0))).

(** The first extension loop: grow the block to the left while the
    characters before it match. *)
Fixpoint extend_left (a b : pystr) (alo blo : nat) (fuel : nat) (m : block) : block :=
  match fuel with
  | 0 => m
  | S fuel' =>
      let '(i, j, k) := m in
      match i, j with
      | S i', S j' =>
          if (alo <=? i') && (blo <=? j') && Ascii.eqb (char_at a i') (char_at b j')
          then extend_left a b alo blo fuel' (i', j', S k)
          else m
      | _, _ => m
      end
  end.

(** The second extension loop: grow it to the right. *)
Fixpoint extend_right (a b : pystr) (ahi bhi : nat) (fuel : nat) (m : block) : block :=
  match fuel with
  | 0 => m
  | S fuel' =>
      let '(i, j, k) := m in
      if (i + k <? ahi) && (j + k <? bhi) && Ascii.eqb (char_at a (i + k)) (char_at b (j + k))
      then extend_right a b ahi bhi fuel' (i, j, S k)
      else m
  end.

(** [find_longest_match(alo, ahi, blo, bhi)]; each extension loop runs at
    most [ahi - alo] times, the fuel given to it. *)
Definition find_longest_match (a b : pystr) (alo ahi blo bhi : nat) : block :=
  let m := flm_loop a b alo ahi blo bhi in
  let m := extend_left a b alo blo (ahi - alo) m in
  extend_right a b ahi bhi (ahi - alo) m.

(** The work-stack loop of [get_matching_blocks]: [queue.pop()] takes the
    last pushed range; a block found in it is recorded and the ranges to
    its left and right are pushed, left first.  [None] when [fuel] runs
    out with work left (the termination theorem shows [2 * la + 1] is
    enough). *)
Fixpoint mb_loop (a b : pystr) (fuel : nat) (queue : list (nat * nat * nat * nat))
    (found : list block) : option (list block) :=
  match queue with
  | [] => Some found
  | (alo, ahi, blo, bhi) :: queue' =>
      match fuel with
      | 0 => None
      | S fuel' =>
          let '(i, j, k) := find_longest_match a b alo ahi blo bhi in
          if k =? 0 then mb_loop a b fuel' queue' found
          else
            let q1 := if (alo <? i) && (blo <? j) then (alo, i, blo, j) :: queue' else queue' in
            let q2 := if (i + k <? ahi) && (j + k <? bhi) then (i + k, ahi, j + k, bhi) :: q1 else q1 in
            mb_loop a b fuel' q2 (found ++ [(i, j, k)])
      end
  end.

Definition block_leb (x y : block) : bool :=
  let '(i1, j1, k1) := x in
  let '(i2, j2, k2) := y in
  (i1 <? i2) || ((i1 =? i2) && ((j1 <? j2) || ((j1 =? j2) && (k1 <=? k2)))).

Fixpoint block_insert (x : block) (l : list block) : list block :=
  match l with
  | [] => [x]
  | y :: l' => if block_leb x y then x :: l else y :: block_insert x l'
  end.

(** [matching_blocks.sort()]: tuples in lexicographic order. *)
Definition sort_blocks (l : list block) : list block := fold_right block_insert [] l.

(** The merge of adjacent blocks, from the accumulator [(i1, j1, k1)]. *)
Fixpoint collapse (cur : block) (l : list block) : list block :=
  match l with
  | [] => let '(_, _, k1) := cur in if k1 =? 0 then [] else [cur]
  | (i2, j2, k2) :: l' =>
      let '(i1, j1, k1) := cur in
      if (i1 + k1 =? i2) && (j1 + k1 =? j2) then collapse (i1, j1, k1 + k2) l'
      else (if k1 =? 0 then [] else [cur]) ++ collapse (i2, j2, k2) l'
  end.

Definition get_matching_blocks (a b : pystr) : list block :=
  let la := length a in
  let lb := length b in
  let found := match mb_loop a b (2 * la + 1) [(0, la, 0, lb)] [] with
               | Some f => f
               | None => []
               end in
  collapse (0, 0, 0) (sort_blocks found) ++ [(la, lb, 0)].

Definition block_size (m : block) : nat := let '(_, _, k) := m in k.

Definition matches (a b : pystr) : nat :=
  fold_right (fun m acc => block_size m + acc) 0 (get_matching_blocks a b).

(** [SequenceMatcher(None, a, b).ratio()] *)
Definition ratio (a b : pystr) : Q :=
  let len := length a + length b in
  if len =? 0 then 1%Q else (Z.of_nat (2 * matches a b) # Pos.of_nat len)%Q.

(** ** Bounds of the longest match *)

Section Bounds.
Variables (a b : pystr) (alo ahi blo bhi : nat).

(** A block inside the ranges [[alo, ahi)] and [[blo, bhi)]. *)
Definition blk_ok (m : block) : Prop :=
  let '(i, j, k) := m in alo <= i /\ i + k <= ahi /\ blo <= j /\ j + k <= bhi.

(** The [j2len] table of the rows up to [i]: its keys are in
    [[blo, bhi)] and a run ending at [j] is at most [lim] long and does
    not start before [blo]. *)
Definition j2_ok (lim : nat) (m : list (nat * nat)) : Prop :=
  Forall (fun jk => blo <= fst jk /\ fst jk < bhi /\ snd jk <= fst jk + 1 - blo /\ snd jk <= lim) m.

Lemma j2len_get_ok lim m j :
  j2_ok lim m -> j2len_get j m = 0 \/ (blo <= j /\ j2len_get j m <= j + 1 - blo /\ j2len_get j m <= lim).
Proof.
  induction 1 as [|[j' k] m [? [? [? ?]]] _ IH]; [now left|]. cbn [j2len_get fst snd] in *.
  destruct (Nat.eqb_spec j j'); [subst; right; lia|exact IH].
Qed.

Lemma j2_ok_mono lim lim' m : lim <= lim' -> j2_ok lim m -> j2_ok lim' m.
Proof. intros Hl. apply Forall_impl. intros jk. lia. Qed.

Lemma flm_inner_ok i j2len js newj2len best :
  alo <= i < ahi -> j2_ok (i - alo) j2len -> j2_ok (i + 1 - alo) newj2len -> blk_ok best ->
  j2_ok (i + 1 - alo) (fst (flm_inner i blo bhi j2len js newj2len best)) /\
  blk_ok (snd (flm_inner i blo bhi j2len js newj2len best)).
Proof.
  intros Hi Hj. revert newj2len best.
  induction js as [|j js IH]; intros nj [[bi bj] bk] Hn Hb; cbn [flm_inner]; [auto|].
  destruct (Nat.ltb_spec j blo); [auto|]. destruct (Nat.leb_spec bhi j); [cbn; auto|].
  assert (Hk : (if j =? 0 then 0 else j2len_get (j - 1) j2len) + 1 <= j + 1 - blo /\
               (if j =? 0 then 0 else j2len_get (j - 1) j2len) + 1 <= i + 1 - alo).
  { destruct (Nat.eqb_spec j 0); [lia|].
    destruct (j2len_get_ok _ _ (j - 1) Hj) as [->|[? [? ?]]]; lia. }
  apply IH.
  - constructor; [cbn; lia|exact Hn].
  - destruct (Nat.ltb_spec bk ((if j =? 0 then 0 else j2len_get (j - 1) j2len) + 1));
      cbn in Hb |- *; lia.
Qed.

Lemma flm_fold_ok s len st :
  alo <= s -> s + len <= ahi -> j2_ok (s - alo) (fst st) -> blk_ok (snd st) ->
  blk_ok (snd (fold_left
    (fun st i => flm_inner i blo bhi (fst st) (b2j b (char_at a i)) [] (snd st)) (seq s len) st)).
Proof.
  revert s st. induction len as [|len IH]; intros s st Hs Hlen Hj Hb; [exact Hb|].
  cbn [seq fold_left]. destruct (flm_inner_ok s (fst st) (b2j b (char_at a s)) [] (snd st))
    as [Hj' Hb']; [lia|exact Hj|constructor|exact Hb|].
  apply IH; [lia|lia| |exact Hb']. now replace (S s - alo) with (s + 1 - alo) by lia.
Qed.

Lemma extend_left_ok fuel m : blk_ok m -> blk_ok (extend_left a b alo blo fuel m).
Proof.
  revert m. induction fuel as [|fuel IH]; intros [[i j] k] Hm; [exact Hm|]. cbn [extend_left].
  destruct i as [|i]; [exact Hm|]. destruct j as [|j]; [exact Hm|].
  destruct (Nat.leb_spec alo i); [|exact Hm]. destruct (Nat.leb_spec blo j); [|exact Hm].
  destruct (Ascii.eqb _ _); [|exact Hm]. apply IH. cbn in *. lia.
Qed.

Lemma extend_right_ok fuel m : blk_ok m -> blk_ok (extend_right a b ahi bhi fuel m).
Proof.
  revert m. induction fuel as [|fuel IH]; intros [[i j] k] Hm; [exact Hm|]. cbn [extend_right].
  destruct (Nat.ltb_spec (i + k) ahi); [|exact Hm]. destruct (Nat.ltb_spec (j + k) bhi); [|exact Hm].
  destruct (Ascii.eqb _ _); [|exact Hm]. apply IH. cbn in *. lia.
Qed.

(** The block [find_longest_match] returns lies in its ranges. *)
Lemma find_longest_match_ok :
  alo <= ahi -> blo <= bhi -> blk_ok (find_longest_match a b alo ahi blo bhi).
Proof.
  intros Ha Hb. unfold find_longest_match. apply extend_right_ok, extend_left_ok.
  unfold flm_loop. apply flm_fold_ok; [lia|lia|constructor|cbn; lia].
Qed.
End Bounds.

(** ** Termination and size of the matching blocks *)

(** The total size of a list of blocks, as [matches] sums it. *)
Definition sizes (l : list block) : nat := fold_right (fun m acc => block_size m + acc) 0 l.

Definition range_ok (r : nat * nat * nat * nat) : Prop :=
  let '(alo, ahi, blo, bhi) := r in alo <= ahi /\ blo <= bhi.

(** The work a range can still cause: [2 * (ahi - alo) + 1] pops. *)
Definition pot (q : list (nat * nat * nat * nat)) : nat :=
  fold_right (fun r acc => let '(alo, ahi, _, _) := r in 2 * (ahi - alo) + 1 + acc) 0 q.

(** The characters of [a] (of [b]) a range can still match. *)
Definition width_a (q : list (nat * nat * nat * nat)) : nat :=
  fold_right (fun r acc => let '(alo, ahi, _, _) := r in ahi - alo + acc) 0 q.

Definition width_b (q : list (nat * nat * nat * nat)) : nat :=
  fold_right (fun r acc => let '(_, _, blo, bhi) := r in bhi - blo + acc) 0 q.

Lemma pot_cons alo ahi blo bhi q : pot ((alo, ahi, blo, bhi) :: q) = 2 * (ahi - alo) + 1 + pot q.
Proof. reflexivity. Qed.

Lemma width_a_cons alo ahi blo bhi q : width_a ((alo, ahi, blo, bhi) :: q) = ahi - alo + width_a q.
Proof. reflexivity. Qed.

Lemma width_b_cons alo ahi blo bhi q : width_b ((alo, ahi, blo, bhi) :: q) = bhi - blo + width_b q.
Proof. reflexivity. Qed.

Lemma sizes_cons i j k l : sizes ((i, j, k) :: l) = k + sizes l.
Proof. reflexivity. Qed.

Lemma sizes_app l1 l2 : sizes (l1 ++ l2) = sizes l1 + sizes l2.
Proof.
  induction l1 as [|m l1 IH]; [reflexivity|]. unfold sizes in *. cbn [app fold_right]. rewrite IH. lia.
Qed.

(** The loop with enough fuel returns, and the blocks it adds fit in the
    ranges of the queue: the ranges it pushes are the parts of a popped
    range left and right of the block found in it. *)
Lemma mb_loop_spec a b fuel queue found :
  Forall range_ok queue -> pot queue <= fuel ->
  exists f, mb_loop a b fuel queue found = Some f /\
    sizes f <= sizes found + width_a queue /\ sizes f <= sizes found + width_b queue.
Proof.
  revert queue found. induction fuel as [|fuel IH]; intros queue found Hq Hp.
  { destruct queue as [|[[[? ?] ?] ?] ?]; cbn in Hp; [|lia].
    exists found. cbn [mb_loop width_a width_b fold_right]. split; [reflexivity|lia]. }
  destruct queue as [|[[[alo ahi] blo] bhi] queue].
  { exists found. cbn [mb_loop width_a width_b fold_right]. split; [reflexivity|lia]. }
  inversion Hq as [|? ? Hr Hq']; subst. destruct Hr as [Ha Hb].
  rewrite pot_cons in Hp. rewrite width_a_cons, width_b_cons.
  cbn [mb_loop]. pose proof (find_longest_match_ok a b alo ahi blo bhi Ha Hb) as Hm.
  destruct (find_longest_match a b alo ahi blo bhi) as [[i j] k]. cbn in Hm.
  destruct (Nat.eqb_spec k 0).
  { destruct (IH queue found Hq' ltac:(lia)) as [f [-> [H1 H2]]]. exists f. split; [reflexivity|lia]. }
  destruct (Nat.ltb_spec alo i), (Nat.ltb_spec blo j), (Nat.ltb_spec (i + k) ahi), (Nat.ltb_spec (j + k) bhi);
    cbn [andb];
    match goal with
    | |- exists f, mb_loop a b fuel ?q ?fd = Some f /\ _ =>
        destruct (IH q fd) as [f [-> [Hs1 Hs2]]];
        [repeat constructor; cbn; try lia; assumption|rewrite ?pot_cons; lia|]
    end;
    exists f; (split; [reflexivity|]); rewrite sizes_app in Hs1, Hs2;
    rewrite ?width_a_cons in Hs1; rewrite ?width_b_cons in Hs2; rewrite sizes_cons in Hs1, Hs2; change (sizes []) with 0 in Hs1, Hs2; lia.
Qed.

Lemma sizes_block_insert x l : sizes (block_insert x l) = block_size x + sizes l.
Proof.
  induction l as [|y l IH]; [reflexivity|]. cbn [block_insert].
  destruct (block_leb x y); [reflexivity|]. unfold sizes in *. cbn [fold_right]. rewrite IH. lia.
Qed.

Lemma sizes_sort_blocks l : sizes (sort_blocks l) = sizes l.
Proof.
  induction l as [|x l IH]; [reflexivity|]. unfold sort_blocks in *. cbn [fold_right].
  rewrite sizes_block_insert, IH. reflexivity.
Qed.

(** Merging adjacent blocks keeps their total size. *)
Lemma sizes_collapse cur l : sizes (collapse cur l) = block_size cur + sizes l.
Proof.
  revert cur. induction l as [|[[i2 j2] k2] l IH]; intros [[i1 j1] k1]; cbn [collapse].
  - destruct (Nat.eqb_spec k1 0); cbn; lia.
  - destruct ((i1 + k1 =? i2) && (j1 + k1 =? j2)).
    + rewrite IH. cbn [block_size]. rewrite sizes_cons. lia.
    + rewrite sizes_app, IH, sizes_cons. cbn [block_size].
      destruct (Nat.eqb_spec k1 0); cbn; lia.
Qed.

(** The work-stack loop of [get_matching_blocks] never runs out of fuel:
    [2 * len(a) + 1] pops are enough, since each pop that finds a block of
    size [k >= 1] replaces a range of [n] characters of [a] by ranges of
    at most [n - k] characters in all. *)
Lemma mb_loop_enough_fuel a b :
  exists f, mb_loop a b (2 * length a + 1) [(0, length a, 0, length b)] [] = Some f /\
    sizes f <= length a /\ sizes f <= length b.
Proof.
  destruct (mb_loop_spec a b (2 * length a + 1) [(0, length a, 0, length b)] []) as [f [Hf [H1 H2]]].
  - repeat constructor; cbn; lia.
  - rewrite pot_cons. cbn. lia.
  - exists f. rewrite width_a_cons in H1. rewrite width_b_cons in H2. cbn in H1, H2. split; [exact Hf|lia].
Qed.

(** (C22) Termination of [get_matching_blocks]: its work-stack loop, given
    [2 * len(a) + 1] pops as fuel, empties its stack and returns. *)
Theorem mb_loop_terminates a b : mb_loop a b (2 * length a + 1) [(0, length a, 0, length b)] [] <> None.
Proof. destruct (mb_loop_enough_fuel a b) as [f [-> _]]. discriminate. Qed.

(** The matched characters are at most the length of either string. *)
Theorem matches_le a b : matches a b <= length a /\ matches a b <= length b.
Proof.
  destruct (mb_loop_enough_fuel a b) as [f [Hf [H1 H2]]].
  unfold matches, get_matching_blocks. rewrite Hf. fold (sizes (collapse (0, 0, 0) (sort_blocks f) ++ [(length a, length b, 0)])).
  rewrite sizes_app, sizes_collapse, sizes_sort_blocks. cbn. lia.
Qed.

(** A [ratio()] is a score in [[0, 1]]. *)
Theorem ratio_bounds a b : (0 <= ratio a b <= 1)%Q.
Proof.
  unfold ratio. destruct (Nat.eqb_spec (length a + length b) 0) as [E|E].
  - split; discriminate.
  - pose proof (matches_le a b) as Hm. unfold Qle. cbn [Qnum Qden].
    rewrite <- positive_nat_Z, Nat2Pos.id by exact E. lia.
Qed.
(** [ratio()] depends on the order of its arguments: [("cbcb", "baac")]
    matches one character ([2/8]), [("baac", "cbcb")] matches two
    ([4/8]), because the longest match found first splits the strings
    differently. *)
Example ratio_not_symmetric :
  ratio (str "cbcb") (str "baac") = (2 # 8)%Q /\ ratio (str "baac") (str "cbcb") = (4 # 8)%Q.
Proof. split; vm_compute; reflexivity. Qed.
(** ** The matching blocks are common substrings *)

Section Sound.
Variables (a b : pystr).

(** [a[i:i+k] == b[j:j+k]], character by character. *)
Definition agree (m : block) : Prop :=
  let '(i, j, k) := m in forall t, t < k -> char_at a (i + t) = char_at b (j + t).

(** The block lies inside both strings. *)
Definition inside (m : block) : Prop :=
  let '(i, j, k) := m in i + k <= length a /\ j + k <= length b.

Definition common (m : block) : Prop := inside m /\ agree m.

(** A run of [k] equal characters ending just before [e] in [a] and
    [f] in [b]. *)
Definition run_at (e f k : nat) : Prop := k <= e /\ k <= f /\ agree (e - k, f - k, k).

(** A [j2len] table of the row before [e]: [(j, k)] is a run ending at
    [j] in [b]. *)
Definition runs (e : nat) (m : list (nat * nat)) : Prop :=
  Forall (fun jk => run_at e (fst jk + 1) (snd jk)) m.

Lemma combine_seq_nth (l : list ascii) s j c :
  In (j, c) (combine (seq s (length l)) l) -> s <= j /\ j < s + length l /\ nth (j - s) l "000"%char = c.
Proof.
  revert s. induction l as [|x l IH]; intros s H; [destruct H|]. cbn in H. destruct H as [[= <- <-]|H].
  - rewrite Nat.sub_diag. cbn. split; [lia|split; [lia|reflexivity]].
  - apply IH in H as (H1 & H2 & H3). cbn [length]. split; [lia|split; [lia|]].
    replace (j - s) with (S (j - S s)) by lia. exact H3.
Qed.

Lemma b2j_char c j : In j (b2j b c) -> j < length b /\ char_at b j = c.
Proof.
  unfold b2j. destruct (popular b c); [intros []|]. unfold indices_of.
  intros ([j' c'] & <- & Hin)%in_map_iff. apply filter_In in Hin as [Hin Hc]. cbn in Hc |- *.
  apply Ascii.eqb_eq in Hc as ->. apply combine_seq_nth in Hin as (_ & H2 & H3).
  rewrite Nat.sub_0_r in H3. split; [lia|exact H3].
Qed.

Lemma j2len_get_run e m j : runs e m -> run_at e (j + 1) (j2len_get j m).
Proof.
  induction 1 as [|[j' k] m Hjk _ IH]; cbn [j2len_get].
  - repeat split; try lia. intros t Ht. lia.
  - destruct (Nat.eqb_spec j j'); [subst; exact Hjk|exact IH].
Qed.

(** The run the inner loop records at [(i, j)] when [a[i] == b[j]]. *)
Lemma run_extend i j m :
  char_at a i = char_at b j -> runs i m ->
  run_at (i + 1) (j + 1) ((if j =? 0 then 0 else j2len_get (j - 1) m) + 1).
Proof.
  intros Hc Hm. destruct (Nat.eqb_spec j 0) as [->|Hj].
  - repeat split; try lia. intros t Ht. replace t with 0 by lia. rewrite !Nat.add_0_r.
    replace (i + 1 - (0 + 1)) with i by lia. exact Hc.
  - destruct (j2len_get_run i m (j - 1) Hm) as (H1 & H2 & H3). replace (j - 1 + 1) with j in * by lia.
    set (p := j2len_get (j - 1) m) in *. repeat split; try lia. intros t Ht.
    destruct (Nat.eq_dec t p) as [->|Htp].
    + replace (i + 1 - (p + 1) + p) with i by lia. replace (j + 1 - (p + 1) + p) with j by lia. exact Hc.
    + specialize (H3 t ltac:(lia)). replace (i + 1 - (p + 1)) with (i - p) by lia.
      replace (j + 1 - (p + 1)) with (j - p) by lia. exact H3.
Qed.

Lemma run_agree e f k : run_at e f k -> agree (e - k, f - k, k).
Proof. intros (_ & _ & H). exact H. Qed.

Lemma flm_inner_agree i blo bhi j2len js newj2len best :
  runs i j2len -> runs (i + 1) newj2len -> agree best ->
  (forall j, In j js -> char_at b j = char_at a i) ->
  runs (i + 1) (fst (flm_inner i blo bhi j2len js newj2len best)) /\
  agree (snd (flm_inner i blo bhi j2len js newj2len best)).
Proof.
  intros Hr. revert newj2len best.
  induction js as [|j js IH]; intros nj [[bi bj] bk] Hn Hb Hjs; cbn [flm_inner]; [auto|].
  assert (Hjs' : forall j', In j' js -> char_at b j' = char_at a i) by (intros; apply Hjs; now right).
  destruct (j <? blo); [exact (IH _ _ Hn Hb Hjs')|]. destruct (bhi <=? j); [cbn; auto|].
  pose proof (run_extend i j j2len (eq_sym (Hjs j (or_introl eq_refl))) Hr) as Hrun.
  apply IH; [constructor; [exact Hrun|exact Hn]| |exact Hjs'].
  destruct (_ <? _); [|exact Hb]. exact (run_agree _ _ _ Hrun).
Qed.

Lemma flm_fold_agree blo bhi s len st :
  runs s (fst st) -> agree (snd st) ->
  agree (snd (fold_left
    (fun st i => flm_inner i blo bhi (fst st) (b2j b (char_at a i)) [] (snd st)) (seq s len) st)).
Proof.
  revert s st. induction len as [|len IH]; intros s st Hr Hb; [exact Hb|]. cbn [seq fold_left].
  destruct (flm_inner_agree s blo bhi (fst st) (b2j b (char_at a s)) [] (snd st)) as [Hr' Hb'];
    [exact Hr|constructor|exact Hb|intros j Hj; exact (proj2 (b2j_char _ _ Hj))|].
  apply IH; [|exact Hb']. now replace (S s) with (s + 1) by lia.
Qed.

Lemma extend_left_agree alo blo fuel m : agree m -> agree (extend_left a b alo blo fuel m).
Proof.
  revert m. induction fuel as [|fuel IH]; intros [[i j] k] Hm; [exact Hm|]. cbn [extend_left].
  destruct i as [|i]; [exact Hm|]. destruct j as [|j]; [exact Hm|].
  destruct ((alo <=? i) && (blo <=? j) && Ascii.eqb (char_at a i) (char_at b j)) eqn:E; [|exact Hm].
  apply IH. apply andb_prop in E as [_ E]. apply Ascii.eqb_eq in E.
  intros [|t] Ht; [now rewrite !Nat.add_0_r|]. replace (i + S t) with (S i + t) by lia.
  replace (j + S t) with (S j + t) by lia. apply Hm. lia.
Qed.

Lemma extend_right_agree ahi bhi fuel m : agree m -> agree (extend_right a b ahi bhi fuel m).
Proof.
  revert m. induction fuel as [|fuel IH]; intros [[i j] k] Hm; [exact Hm|]. cbn [extend_right].
  destruct ((i + k <? ahi) && (j + k <? bhi) && Ascii.eqb (char_at a (i + k)) (char_at b (j + k))) eqn:E;
    [|exact Hm].
  apply IH. apply andb_prop in E as [_ E]. apply Ascii.eqb_eq in E.
  intros t Ht. destruct (Nat.eq_dec t k) as [->|]; [exact E|apply Hm; lia].
Qed.

(** The block [find_longest_match] returns is a run of equal characters. *)
Lemma find_longest_match_agree alo ahi blo bhi : agree (find_longest_match a b alo ahi blo bhi).
Proof.
  unfold find_longest_match. apply extend_right_agree, extend_left_agree.
  unfold flm_loop. apply flm_fold_agree; [constructor|intros t Ht; lia].
Qed.
End Sound.

(** ** The matching blocks of two strings *)

Section Blocks.
Variables (a b : pystr).

(** A range of the work stack inside both strings. *)
Definition range_in (r : nat * nat * nat * nat) : Prop :=
  let '(alo, ahi, blo, bhi) := r in alo <= ahi <= length a /\ blo <= bhi <= length b.

Lemma mb_loop_common fuel queue found f :
  Forall range_in queue -> Forall (common a b) found -> mb_loop a b fuel queue found = Some f ->
  Forall (common a b) f.
Proof.
  revert queue found. induction fuel as [|fuel IH]; intros queue found Hq Hf.
  { destruct queue as [|r q]; cbn; [now intros [= <-]|destruct r as [[[? ?] ?] ?]; discriminate]. }
  destruct queue as [|[[[alo ahi] blo] bhi] queue]; cbn [mb_loop]; [now intros [= <-]|].
  inversion Hq as [|? ? Hr Hq']; subst. cbn in Hr. destruct Hr as [Ha Hb].
  pose proof (find_longest_match_ok a b alo ahi blo bhi ltac:(lia) ltac:(lia)) as Hm.
  pose proof (find_longest_match_agree a b alo ahi blo bhi) as Hg.
  destruct (find_longest_match a b alo ahi blo bhi) as [[i j] k]. cbn in Hm.
  destruct (k =? 0); [exact (IH _ _ Hq' Hf)|].
  apply IH.
  - destruct ((alo <? i) && (blo <? j)), ((i + k <? ahi) && (j + k <? bhi));
      repeat constructor; cbn; try lia; assumption.
  - apply Forall_app. split; [exact Hf|]. repeat constructor; [cbn; lia|cbn; lia|exact Hg].
Qed.

Lemma block_insert_Forall (P : block -> Prop) x l : P x -> Forall P l -> Forall P (block_insert x l).
Proof.
  intros Hx Hl. induction Hl as [|y l Hy Hl IH]; cbn [block_insert]; [now constructor|].
  destruct (block_leb x y); now repeat constructor.
Qed.

Lemma sort_blocks_Forall (P : block -> Prop) l : Forall P l -> Forall P (sort_blocks l).
Proof. induction 1; [constructor|now apply block_insert_Forall]. Qed.

(** Two adjacent runs of equal characters make one. *)
Lemma common_merge i1 j1 k1 k2 :
  common a b (i1, j1, k1) -> common a b (i1 + k1, j1 + k1, k2) -> common a b (i1, j1, k1 + k2).
Proof.
  intros [_ H1] [[Ha Hb] H2]. split; [cbn; lia|]. intros t Ht.
  destruct (Nat.lt_ge_cases t k1); [now apply H1|].
  specialize (H2 (t - k1) ltac:(lia)). now replace (i1 + t) with (i1 + k1 + (t - k1)) by lia;
    replace (j1 + t) with (j1 + k1 + (t - k1)) by lia.
Qed.

Lemma collapse_common cur l :
  common a b cur -> Forall (common a b) l -> Forall (common a b) (collapse cur l).
Proof.
  intros Hc Hl. revert cur Hc. induction Hl as [|[[i2 j2] k2] l H2 _ IH]; intros [[i1 j1] k1] Hc; cbn [collapse].
  - destruct (k1 =? 0); [constructor|now constructor].
  - destruct (Nat.eqb_spec (i1 + k1) i2) as [<-|], (Nat.eqb_spec (j1 + k1) j2) as [<-|]; cbn [andb];
      try (apply Forall_app; split; [destruct (k1 =? 0); [constructor|now constructor]|exact (IH _ H2)]).
    apply IH. exact (common_merge _ _ _ _ Hc H2).
Qed.

(** A common block is the same slice of both strings. *)
Lemma common_slices i j k :
  common a b (i, j, k) -> firstn k (skipn i a) = firstn k (skipn j b).
Proof.
  intros [[Ha Hb] H]. apply nth_ext with "000"%char "000"%char.
  - rewrite !length_firstn, !length_skipn. lia.
  - intros t Ht. rewrite length_firstn, length_skipn in Ht.
    rewrite !nth_firstn, !nth_skipn. destruct (Nat.ltb_spec t k); [|reflexivity]. exact (H t ltac:(lia)).
Qed.
End Blocks.

(** Every block [get_matching_blocks] reports, and so every
    character [ratio()] counts, is a genuine common substring: for each
    [(i, j, k)], [a[i:i+k] == b[j:j+k]] and both slices lie inside the
    strings; the [j2len] programme, the two extension loops, the work
    stack, the sort and the merge of adjacent blocks all keep this. *)
Theorem matching_blocks_common a b i j k :
  In (i, j, k) (get_matching_blocks a b) ->
  i + k <= length a /\ j + k <= length b /\ firstn k (skipn i a) = firstn k (skipn j b).
Proof.
  intros Hin. assert (Hc : common a b (i, j, k)); [|destruct Hc as [Hi Hg]; split; [apply Hi|split; [apply Hi|]]].
  - revert Hin. apply List.Forall_forall. unfold get_matching_blocks. apply Forall_app. split.
    + apply collapse_common; [split; [cbn; lia|intros t Ht; lia]|apply sort_blocks_Forall].
      destruct (mb_loop a b _ _ _) as [f|] eqn:E; [|constructor].
      refine (mb_loop_common a b _ _ _ _ _ _ E); [repeat constructor; cbn; lia|constructor].
    + repeat constructor; [cbn; lia|cbn; lia|intros t Ht; lia].
  - exact (common_slices a b i j k (conj Hi Hg)).
Qed.

(** ["array_map"] and ["array_f"] share the block ["array_"]. *)
Lemma matching_blocks_common_witness :
  In (0, 0, 6) (get_matching_blocks (str "array_map") (str "array_f")) /\
  firstn 6 (skipn 0 (str "array_map")) = firstn 6 (skipn 0 (str "array_f")).
Proof.
  assert (Hin : In (0, 0, 6) (get_matching_blocks (str "array_map") (str "array_f"))) by (vm_compute; auto).
  split; [exact Hin|exact (proj2 (proj2 (matching_blocks_common _ _ _ _ _ Hin)))].
Defined.

End Difflib.
