(* ===== verification/StableSort.v ===== *)
(** * [sorted(l, key=f, reverse=True)]

    CPython sorts with Timsort; with [reverse=True] the result is ordered
    by descending key and elements with equal keys keep their order in the
    input ("the reverse parameter still maintains sort stability").  The
    model is a stable insertion sort, [sort_desc], and the theorems of this
    file are the contract of Python's [sorted]: the output is ordered, it
    keeps the order within every class of equal keys, it is a permutation
    of the input, and those properties determine the output
    ([sorted_stable_unique]), so any stable sort (Timsort included)
    returns exactly [sort_desc]'s list.

    Keys are compared by a boolean total preorder [kle], the section's
    hypotheses; [Ranking.v] instantiates it with the order of [Q] on the
    [difflib] ratios. *)

From Stdlib Require Import List Bool Arith Lia Permutation Sorted.
From S2P Require Import Prelude.
Import ListNotations.

Section StableSort.
Context {A K : Type} (key : A -> K) (kle : K -> K -> bool).
Hypothesis kle_total : forall x y, kle x y = true \/ kle y x = true.
Hypothesis kle_trans : forall x y z, kle x y = true -> kle y z = true -> kle x z = true.

(** [x] comes before [y] in the output: its key is not smaller. *)
Definition ge_key (x y : A) : Prop := kle (key y) (key x) = true.

(** [x] and [y] have equal keys. *)
Definition same_key (x y : A) : bool := kle (key x) (key y) && kle (key y) (key x).

(** Insert [x], which comes after every element of [l] in the input:
    it goes after every element whose key is at least its own. *)
Fixpoint insert_desc (x : A) (l : list A) : list A :=
  match l with
  | [] => [x]
  | y :: l' => if kle (key x) (key y) then y :: insert_desc x l' else x :: l
  end.

Definition sort_desc (l : list A) : list A := fold_left (fun acc x => insert_desc x acc) l [].

Lemma kle_refl k : kle k k = true.
Proof. destruct (kle_total k k); assumption. Qed.

Lemma kle_false_flip k1 k2 : kle k1 k2 = false -> kle k2 k1 = true.
Proof. intros H. destruct (kle_total k1 k2); congruence. Qed.

Lemma same_key_sym x y : same_key x y = same_key y x.
Proof. unfold same_key. apply andb_comm. Qed.

Lemma insert_desc_perm x l : Permutation (x :: l) (insert_desc x l).
Proof.
  induction l as [|y l IH]; simpl; [reflexivity|].
  destruct (kle (key x) (key y)); [|reflexivity].
  rewrite perm_swap. now constructor.
Qed.

Lemma insert_desc_sorted x l :
  StronglySorted ge_key l -> StronglySorted ge_key (insert_desc x l).
Proof.
  induction 1 as [|y l Hl IH Hy]; simpl; [repeat constructor|].
  destruct (kle (key x) (key y)) eqn:Hxy.
  - constructor; [exact IH|].
    apply Forall_forall. intros z Hz.
    apply (Permutation_in _ (Permutation_sym (insert_desc_perm x l))) in Hz.
    destruct Hz as [<-|Hz]; [exact Hxy|]. exact (proj1 (Forall_forall _ _) Hy z Hz).
  - apply kle_false_flip in Hxy.
    constructor; [constructor; assumption|].
    constructor; [exact Hxy|]. apply Forall_forall. intros z Hz.
    eapply kle_trans; [exact (proj1 (Forall_forall _ _) Hy z Hz)|exact Hxy].
Qed.

(** Every element of a class of equal keys that lies behind a strictly
    smaller key is not in the class of [x]. *)
Lemma filter_below x z l :
  same_key z x = true -> Forall (fun w => kle (key x) (key w) = false) l ->
  List.filter (same_key z) l = [].
Proof.
  intros Hzx Hl. induction Hl as [|w l Hw Hl IH]; [reflexivity|]. simpl.
  rewrite IH. destruct (same_key z w) eqn:Hzw; [|reflexivity].
  unfold same_key in *. apply andb_true_iff in Hzx as [Hzx Hxz].
  apply andb_true_iff in Hzw as [Hzw _].
  rewrite (kle_trans _ _ _ Hxz Hzw) in Hw. discriminate.
Qed.

Lemma insert_desc_filter x z l :
  StronglySorted ge_key l ->
  List.filter (same_key z) (insert_desc x l) =
  List.filter (same_key z) l ++ (if same_key z x then [x] else []).
Proof.
  induction 1 as [|y l Hl IH Hy]; cbn [insert_desc].
  - simpl. destruct (same_key z x); reflexivity.
  - destruct (kle (key x) (key y)) eqn:Hxy.
    + simpl. rewrite IH. destruct (same_key z y); reflexivity.
    + destruct (same_key z x) eqn:Hzx.
      * replace (List.filter (same_key z) (x :: y :: l))
          with (x :: List.filter (same_key z) (y :: l)) by (simpl; now rewrite Hzx).
        rewrite (filter_below x z (y :: l)); [reflexivity|exact Hzx|].
        constructor; [exact Hxy|]. apply Forall_forall. intros w Hw.
        destruct (kle (key x) (key w)) eqn:Hxw; [|reflexivity].
        rewrite (kle_trans _ _ _ Hxw (proj1 (Forall_forall _ _) Hy w Hw)) in Hxy.
        discriminate.
      * simpl. rewrite Hzx. now rewrite app_nil_r.
Qed.

Lemma sort_desc_app l x : sort_desc (l ++ [x]) = insert_desc x (sort_desc l).
Proof. unfold sort_desc. now rewrite fold_left_app. Qed.

(** The output is ordered by descending key. *)
Theorem sort_desc_sorted l : StronglySorted ge_key (sort_desc l).
Proof.
  induction l as [|x l IH] using rev_ind; [constructor|].
  rewrite sort_desc_app. now apply insert_desc_sorted.
Qed.

(** The output is a permutation of the input. *)
Theorem sort_desc_perm l : Permutation l (sort_desc l).
Proof.
  induction l as [|x l IH] using rev_ind; [constructor|].
  rewrite sort_desc_app, <- insert_desc_perm.
  rewrite <- Permutation_cons_append. now constructor.
Qed.

(** Stability: within each class of equal keys, the output keeps the
    input order. *)
Theorem sort_desc_stable l z :
  List.filter (same_key z) (sort_desc l) = List.filter (same_key z) l.
Proof.
  induction l as [|x l IH] using rev_ind; [reflexivity|].
  rewrite sort_desc_app, insert_desc_filter by apply sort_desc_sorted.
  rewrite IH, filter_app. simpl. destruct (same_key z x); reflexivity.
Qed.

Lemma filter_head_same x l :
  List.filter (same_key x) (x :: l) = x :: List.filter (same_key x) l.
Proof. simpl. unfold same_key. now rewrite kle_refl. Qed.

(** An ordered list whose classes are given is unique. *)
Theorem sorted_stable_unique out1 out2 :
  StronglySorted ge_key out1 -> StronglySorted ge_key out2 ->
  (forall z, List.filter (same_key z) out1 = List.filter (same_key z) out2) ->
  out1 = out2.
Proof.
  intros H1. revert out2. induction H1 as [|x1 l1 Hl1 IH Hx1]; intros out2 H2 Hf.
  - destruct out2 as [|x2 l2]; [reflexivity|].
    specialize (Hf x2). rewrite filter_head_same in Hf. discriminate.
  - destruct H2 as [|x2 l2 Hl2 Hx2].
    + specialize (Hf x1). rewrite filter_head_same in Hf. discriminate.
    + assert (Hin : forall z l, In z (List.filter (same_key x1) l) -> In z l)
        by (intros z l Hz; now apply filter_In in Hz).
      assert (Hx : x1 = x2).
      { pose proof (Hf x1) as E. rewrite filter_head_same in E. simpl in E.
        destruct (same_key x1 x2) eqn:E12; [congruence|].
        assert (Hx1in : In x1 l2) by (apply (Hin x1 l2); rewrite <- E; now left).
        pose proof (proj1 (Forall_forall _ _) Hx2 x1 Hx1in) as Hle.
        pose proof (Hf x2) as E'. rewrite same_key_sym in E12.
        rewrite filter_head_same in E'. simpl in E'. rewrite E12 in E'.
        assert (Hx2in : In x2 l1).
        { apply (filter_In (same_key x2) x2 l1). rewrite E'. now left. }
        pose proof (proj1 (Forall_forall _ _) Hx1 x2 Hx2in) as Hle'.
        unfold ge_key, same_key in *. rewrite Hle, Hle' in E12. discriminate. }
      subst x2. f_equal. apply IH; [assumption|].
      intros z. specialize (Hf z). simpl in Hf.
      destruct (same_key z x1); [injection Hf as Hf|]; exact Hf.
Qed.

(** Refinement: a list that is ordered and stable with respect to [l]
    is [sort_desc l]. *)
Corollary stable_sort_is_sort_desc l out :
  StronglySorted ge_key out ->
  (forall z, List.filter (same_key z) out = List.filter (same_key z) l) ->
  out = sort_desc l.
Proof.
  intros Hs Hf. apply sorted_stable_unique; [exact Hs|apply sort_desc_sorted|].
  intros z. now rewrite Hf, sort_desc_stable.
Qed.
End StableSort.
