(* ===== verification/JsonText.v ===== *)
(** * The text of the cache files: [json.dump] and [json.load]

    The service writes [index.json] and [entries/<slug>.json] with
    [json.dump(obj, f)] and reads them back with [json.load(f)]; it parses
    the HTTP bodies with [r.json()], which is [json.loads].  This file
    models both directions of CPython's [json] module on the values of
    [Json.json] (the standard library, modelled from its documented
    behaviour):
    - [json_dump]: the default encoder, with the separators [", "] and
      [": "] and [ensure_ascii=True] (a character outside [' '..'~'] is
      written as a short escape or as [\u00XX]);
    - [json_load]: the C scanner: whitespace is [' '], [\t], [\n], [\r];
      a number is an optional minus and 0 or a non-zero digit followed by
      digits; a number with a fraction or an
      exponent is a float, which the model does not hold, so [json_load]
      rejects it; strings accept the backslash escapes of a double quote,
      a backslash, a slash, [b], [f], [n], [r], [t] and [uXXXX] (a code
      point above 255 is outside the model and is rejected), and reject
      raw control characters; an object with a
      repeated key keeps the last value at the first key's position, as
      [dict(pairs)] does; anything after the value but whitespace is an
      error ("Extra data").
    [None] is [JSONDecodeError].  The main theorem is the round trip
    [json_load (json_dump j) = Some j] for every value whose dicts have
    distinct keys ([json_load_dump]), and conversely every value [json_load]
    returns has distinct keys at every level ([json_load_wf], by induction
    on the fuel over the three mutually recursive parsers); [py_str] and [py_repr] model [str()]
    and [repr()] for the log messages and the [%s] formats. *)

From Stdlib Require Import Ascii String List Bool Arith NArith ZArith Lia.
From S2P Require Import Prelude PyStr Json.
Import ListNotations.
Local Open Scope nat_scope.

(** ** Encoding *)

(** Decimal digits of [n], most significant first, prepended to [acc];
    [fuel] bounds the number of digits. *)
Fixpoint n_digits (fuel : nat) (n : N) (acc : pystr) : pystr :=
  match fuel with
  | 0 => acc
  | S f =>
      let acc' := ascii_of_N (48 + n mod 10)%N :: acc in
      if (n <? 10)%N then acc' else n_digits f (n / 10)%N acc'
  end.

(** [repr(n)] for [n >= 0]: there are at most as many decimal digits as bits. *)
Definition n_repr (n : N) : pystr := n_digits (N.size_nat n) n [].

(** [repr(z)] *)
Definition z_repr (z : Z) : pystr :=
  match z with
  | Z0 => str "0"
  | Zpos p => n_repr (Npos p)
  | Zneg p => "-"%char :: n_repr (Npos p)
  end.

Definition hex_digit (n : nat) : ascii :=
  if n <? 10 then ascii_of_nat (48 + n) else ascii_of_nat (87 + n).

(** One character under [ensure_ascii]: [ESCAPE_DCT], and [\u%04x] for
    the other characters outside [' '..'~']. *)
Definition escape_char (c : ascii) : pystr :=
  let n := code c in
  if n =? 34 then ["092"; "034"]%char
  else if n =? 92 then ["092"; "092"]%char
  else if n =? 8 then ["092"; "b"]%char
  else if n =? 12 then ["092"; "f"]%char
  else if n =? 10 then ["092"; "n"]%char
  else if n =? 13 then ["092"; "r"]%char
  else if n =? 9 then ["092"; "t"]%char
  else if (32 <=? n) && (n <=? 126) then [c]
  else ["092"; "u"; "0"; "0"; hex_digit (n / 16); hex_digit (n mod 16)]%char.

Definition dump_str (s : pystr) : pystr :=
  "034"%char :: flat_map escape_char s ++ ["034"%char].

Definition comma : pystr := [","; " "]%char.
Definition colon : pystr := [":"; " "]%char.

Fixpoint json_dump (j : json) : pystr :=
  match j with
  | JNull => str "null"
  | JBool true => str "true"
  | JBool false => str "false"
  | JInt z => z_repr z
  | JStr s => dump_str s
  | JList xs =>
      "["%char ::
        (fix go (xs : list json) : pystr :=
           match xs with
           | [] => []
           | [x] => json_dump x
           | x :: xs' => json_dump x ++ comma ++ go xs'
           end) xs ++ ["]"%char]
  | JObj kvs =>
      "{"%char ::
        (fix go (kvs : list (pystr * json)) : pystr :=
           match kvs with
           | [] => []
           | [(k, v)] => dump_str k ++ colon ++ json_dump v
           | (k, v) :: kvs' => dump_str k ++ colon ++ json_dump v ++ comma ++ go kvs'
           end) kvs ++ ["}"%char]
  end.

(** ** Decoding *)

Definition is_ws (c : ascii) : bool :=
  let n := code c in (n =? 32) || (n =? 9) || (n =? 10) || (n =? 13).

Fixpoint skip_ws (s : pystr) : pystr :=
  match s with
  | c :: s' => if is_ws c then skip_ws s' else s
  | [] => []
  end.

Definition is_digit (c : ascii) : bool := (48 <=? code c) && (code c <=? 57).

Definition hex_val (c : ascii) : option nat :=
  let n := code c in
  if (48 <=? n) && (n <=? 57) then Some (n - 48)
  else if (97 <=? n) && (n <=? 102) then Some (n - 87)
  else if (65 <=? n) && (n <=? 70) then Some (n - 55)
  else None.

(** The character a one-letter escape stands for. *)
Definition unescape (e : ascii) : option ascii :=
  let n := code e in
  if n =? 34 then Some "034"%char
  else if n =? 92 then Some "092"%char
  else if n =? 47 then Some "/"%char
  else if n =? 98 then Some "008"%char
  else if n =? 102 then Some "012"%char
  else if n =? 110 then Some "010"%char
  else if n =? 114 then Some "013"%char
  else if n =? 116 then Some "009"%char
  else None.

Definition hex4 (h1 h2 h3 h4 : ascii) : option nat :=
  match hex_val h1, hex_val h2, hex_val h3, hex_val h4 with
  | Some a, Some b, Some c, Some d => Some (((a * 16 + b) * 16 + c) * 16 + d)
  | _, _, _, _ => None
  end.

(** [scanstring]: the body of a string literal after its opening quote;
    returns the decoded string and the text after the closing quote. *)
Fixpoint scan_string (s : pystr) : option (pystr * pystr) :=
  match s with
  | [] => None
  | c :: s' =>
      if code c =? 34 then Some ([], s')
      else if code c =? 92 then
        match s' with
        | [] => None
        | e :: s'' =>
            if code e =? 117 then
              match s'' with
              | h1 :: h2 :: h3 :: h4 :: rest =>
                  match hex4 h1 h2 h3 h4 with
                  | Some n =>
                      if n <? 256 then
                        match scan_string rest with
                        | Some (r, t) => Some (ascii_of_nat n :: r, t)
                        | None => None
                        end
                      else None
                  | None => None
                  end
              | _ => None
              end
            else
              match unescape e, scan_string s'' with
              | Some ch, Some (r, t) => Some (ch :: r, t)
              | _, _ => None
              end
        end
      else if code c <? 32 then None
      else match scan_string s' with
           | Some (r, t) => Some (c :: r, t)
           | None => None
           end
  end.

Fixpoint take_digits (s : pystr) : pystr * pystr :=
  match s with
  | c :: s' => if is_digit c then let '(ds, r) := take_digits s' in (c :: ds, r) else ([], s)
  | [] => ([], [])
  end.

Definition digits_value (ds : pystr) : N :=
  fold_left (fun acc c => acc * 10 + N.of_nat (code c - 48))%N ds 0%N.

(** [0] or a non-zero digit followed by digits. *)
Definition parse_uint (s : pystr) : option (N * pystr) :=
  match s with
  | c :: s' =>
      if code c =? 48 then Some (0%N, s')
      else if is_digit c then
        let '(ds, r) := take_digits s' in Some (digits_value (c :: ds), r)
      else None
  | [] => None
  end.

(** The scanner reads a float when the integer part is followed by a
    fraction ['.' digit] or an exponent [[eE][+-]?digit]. *)
Definition float_follows (r : pystr) : bool :=
  match r with
  | c :: r' =>
      if code c =? 46 then match r' with d :: _ => is_digit d | [] => false end
      else if (code c =? 101) || (code c =? 69) then
        match r' with
        | d :: r'' =>
            is_digit d ||
            (((code d =? 43) || (code d =? 45)) &&
             match r'' with d' :: _ => is_digit d' | [] => false end)
        | [] => false
        end
      else false
  | [] => false
  end.

Definition parse_int (s : pystr) : option (Z * pystr) :=
  let '(neg, s1) := match s with
                    | c :: s' => if code c =? 45 then (true, s') else (false, s)
                    | [] => (false, s)
                    end in
  match parse_uint s1 with
  | Some (n, r) =>
      if float_follows r then None
      else Some ((if neg then Z.opp (Z.of_N n) else Z.of_N n), r)
  | None => None
  end.

(** [dict(pairs)]: a repeated key keeps its position and takes the new value. *)
Fixpoint dict_insert (k : pystr) (v : json) (kvs : list (pystr * json)) : list (pystr * json) :=
  match kvs with
  | [] => [(k, v)]
  | (k', v') :: kvs' => if pystr_eqb k k' then (k', v) :: kvs' else (k', v') :: dict_insert k v kvs'
  end.

Definition starts_with_lit (s : pystr) (lit : string) : option pystr :=
  if py_startswith s (str lit) then Some (skipn (String.length lit) s) else None.

(** [scan_once], [JSONArray] and [JSONObject]; [fuel] bounds the nesting
    and the number of elements, and [json_load] gives one unit per
    character of the input, which is enough. *)
Fixpoint parse_value (fuel : nat) (s : pystr) {struct fuel} : option (json * pystr) :=
  match fuel with
  | 0 => None
  | S f =>
      match s with
      | [] => None
      | c :: s' =>
          if code c =? 34 then
            match scan_string s' with Some (x, r) => Some (JStr x, r) | None => None end
          else if code c =? 91 then
            match skip_ws s' with
            | d :: r => if code d =? 93 then Some (JList [], r) else parse_elems f (d :: r) []
            | [] => None
            end
          else if code c =? 123 then
            match skip_ws s' with
            | d :: r =>
                if code d =? 125 then Some (JObj [], r)
                else if code d =? 34 then parse_members f r []
                else None
            | [] => None
            end
          else match starts_with_lit s "null" with
               | Some r => Some (JNull, r)
               | None =>
               match starts_with_lit s "true" with
               | Some r => Some (JBool true, r)
               | None =>
               match starts_with_lit s "false" with
               | Some r => Some (JBool false, r)
               | None => match parse_int s with Some (z, r) => Some (JInt z, r) | None => None end
               end end end
      end
  end
with parse_elems (fuel : nat) (s : pystr) (acc : list json) {struct fuel} : option (json * pystr) :=
  match fuel with
  | 0 => None
  | S f =>
      match parse_value f s with
      | Some (v, r) =>
          match skip_ws r with
          | d :: r' =>
              if code d =? 44 then parse_elems f (skip_ws r') (acc ++ [v])
              else if code d =? 93 then Some (JList (acc ++ [v]), r')
              else None
          | [] => None
          end
      | None => None
      end
  end
with parse_members (fuel : nat) (s : pystr) (acc : list (pystr * json)) {struct fuel}
    : option (json * pystr) :=
  match fuel with
  | 0 => None
  | S f =>
      match scan_string s with
      | Some (k, r) =>
          match skip_ws r with
          | d :: r' =>
              if code d =? 58 then
                match parse_value f (skip_ws r') with
                | Some (v, r'') =>
                    let acc' := dict_insert k v acc in
                    match skip_ws r'' with
                    | e :: r3 =>
                        if code e =? 44 then
                          match skip_ws r3 with
                          | q :: r4 => if code q =? 34 then parse_members f r4 acc' else None
                          | [] => None
                          end
                        else if code e =? 125 then Some (JObj acc', r3)
                        else None
                    | [] => None
                    end
                | None => None
                end
              else None
          | [] => None
          end
      | None => None
      end
  end.

(** [json.loads(s)]: one value between optional whitespace. *)
Definition json_load (s : pystr) : option json :=
  match parse_value (S (length s)) (skip_ws s) with
  | Some (v, r) => match skip_ws r with [] => Some v | _ => None end
  | None => None
  end.

(** ** Round trip: [json.load] reads back what [json.dump] wrote *)

(** A dict as [json.load] builds it has distinct keys, at every level. *)
Fixpoint json_wf (j : json) : Prop :=
  match j with
  | JList xs => (fix go (xs : list json) : Prop :=
                   match xs with [] => True | x :: xs' => json_wf x /\ go xs' end) xs
  | JObj kvs => NoDup (map fst kvs) /\
                (fix go (kvs : list (pystr * json)) : Prop :=
                   match kvs with [] => True | (_, v) :: kvs' => json_wf v /\ go kvs' end) kvs
  | _ => True
  end.

(** The fuel [parse_value] needs: one unit per value and per element. *)
Fixpoint json_size (j : json) : nat :=
  match j with
  | JList xs => S ((fix go (xs : list json) : nat :=
                      match xs with [] => 0 | x :: xs' => S (json_size x) + go xs' end) xs)
  | JObj kvs => S ((fix go (kvs : list (pystr * json)) : nat :=
                      match kvs with [] => 0 | (_, v) :: kvs' => S (json_size v) + go kvs' end) kvs)
  | _ => 1
  end.

(** What may follow a value in a dumped text. *)
Definition ends_value (r : pystr) : bool :=
  match r with
  | [] => true
  | c :: _ => (code c =? 44) || (code c =? 93) || (code c =? 125)
  end.

Lemma digit_char (k : N) :
  (k < 10)%N ->
  let c := ascii_of_N (48 + k) in
  is_digit c = true /\ N.of_nat (code c - 48) = k /\ is_ws c = false /\
  (code c =? 48) = (k =? 0)%N.
Proof.
  intros Hk. assert (k = 0 \/ k = 1 \/ k = 2 \/ k = 3 \/ k = 4 \/ k = 5 \/ k = 6 \/
                     k = 7 \/ k = 8 \/ k = 9)%N as Hc by lia.
  repeat destruct Hc as [->|Hc]; [..|subst]; vm_compute; repeat split.
Qed.

Lemma n_digits_acc f n acc : n_digits f n acc = n_digits f n [] ++ acc.
Proof.
  revert n acc. induction f as [|f IH]; intros n acc; [reflexivity|]. simpl.
  destruct (n <? 10)%N; [reflexivity|].
  rewrite IH, (IH _ [_]), <- app_assoc. reflexivity.
Qed.

Lemma digits_value_snoc l c :
  digits_value (l ++ [c]) = (digits_value l * 10 + N.of_nat (code c - 48))%N.
Proof. unfold digits_value. now rewrite fold_left_app. Qed.

(** The digits of [n] spell [n], are digits, and start with a non-zero
    digit unless [n] is zero. *)
Lemma n_digits_spec f n :
  (n < 10 ^ N.of_nat f)%N -> f <> 0 ->
  let ds := n_digits f n [] in
  ds <> [] /\ digits_value ds = n /\ Forall (fun c => is_digit c = true) ds /\
  (n <> 0%N -> exists c ds', ds = c :: ds' /\ code c <> 48).
Proof.
  revert n. induction f as [|f IH]; intros n Hn Hf; [congruence|]. cbn [n_digits].
  pose proof (digit_char (n mod 10) (N.mod_lt n 10 ltac:(lia))) as [Hd [Hv [_ H0]]].
  destruct (N.ltb_spec n 10) as [Hlt|Hge].
  - rewrite N.mod_small in * by exact Hlt. repeat split; [discriminate|unfold digits_value; cbn [fold_left]; lia|now constructor|].
    intros Hn0. do 2 eexists. split; [reflexivity|].
    intros E. apply Nat.eqb_eq in E. rewrite E in H0. symmetry in H0. apply N.eqb_eq in H0. lia.
  - rewrite n_digits_acc.
    destruct f as [|f']; [simpl in Hn; lia|].
    destruct (IH (n / 10)%N) as [Hne [Hval [Hall Hhd]]]; [|discriminate|].
    { apply N.Div0.div_lt_upper_bound. rewrite Nat2N.inj_succ, N.pow_succ_r' in Hn. lia. }
    repeat split.
    + destruct (n_digits (S f') (n / 10) []); [congruence|discriminate].
    + rewrite digits_value_snoc, Hval, Hv. pose proof (N.div_mod n 10). lia.
    + apply Forall_app. split; [exact Hall|now constructor].
    + intros _. destruct (Hhd ltac:(intros E; apply N.div_small_iff in E; lia)) as [c [ds' [-> Hc]]].
      exists c, (ds' ++ [ascii_of_N (48 + n mod 10)]). split; [reflexivity|exact Hc].
Qed.

Lemma pos_lt_pow_size (p : positive) : (Npos p < 10 ^ N.of_nat (Pos.size_nat p))%N.
Proof.
  induction p as [p IH|p IH|]; cbn [Pos.size_nat]; rewrite ?Nat2N.inj_succ, ?N.pow_succ_r'.
  - change (Npos p~1) with (2 * Npos p + 1)%N. lia.
  - change (Npos p~0) with (2 * Npos p)%N. lia.
  - simpl. lia.
Qed.

Lemma n_repr_spec (p : positive) :
  let ds := n_repr (Npos p) in
  digits_value ds = Npos p /\ Forall (fun c => is_digit c = true) ds /\
  exists c ds', ds = c :: ds' /\ code c <> 48.
Proof.
  destruct (n_digits_spec (Pos.size_nat p) (Npos p)) as [_ [Hv [Hd Hh]]];
    [apply pos_lt_pow_size|destruct p; discriminate|].
  split; [exact Hv|split; [exact Hd|apply Hh; discriminate]].
Qed.

Lemma take_digits_app ds r :
  Forall (fun c => is_digit c = true) ds ->
  match r with [] => True | c :: _ => is_digit c = false end ->
  take_digits (ds ++ r) = (ds, r).
Proof.
  intros Hds Hr. induction Hds as [|c ds Hc _ IH]; simpl.
  - destruct r as [|c r]; [reflexivity|]. simpl. now rewrite Hr.
  - now rewrite Hc, IH.
Qed.

Lemma ends_value_not_digit r :
  ends_value r = true -> match r with [] => True | c :: _ => is_digit c = false end.
Proof.
  destruct r as [|c r]; [trivial|]. unfold ends_value, is_digit.
  rewrite !orb_true_iff, !Nat.eqb_eq. intros [[H|H]|H]; rewrite H; reflexivity.
Qed.

Lemma ends_value_no_float r : ends_value r = true -> float_follows r = false.
Proof.
  destruct r as [|c r]; [reflexivity|]. unfold ends_value, float_follows.
  rewrite !orb_true_iff, !Nat.eqb_eq. intros Hc.
  destruct (Nat.eqb_spec (code c) 46), (Nat.eqb_spec (code c) 101), (Nat.eqb_spec (code c) 69);
    simpl; try lia; reflexivity.
Qed.

Lemma parse_int_nonneg c s :
  code c <> 45 ->
  parse_int (c :: s) =
  match parse_uint (c :: s) with
  | Some (n, r) => if float_follows r then None else Some (Z.of_N n, r)
  | None => None
  end.
Proof. intros H. unfold parse_int. cbv beta iota. apply Nat.eqb_neq in H. now rewrite H. Qed.

Lemma parse_uint_repr p r :
  ends_value r = true -> parse_uint (n_repr (Npos p) ++ r) = Some (Npos p, r).
Proof.
  intros Hr. destruct (n_repr_spec p) as [Hv [Hall [c [ds [Heq Hc]]]]].
  rewrite Heq in *. inversion Hall as [|? ? Hcd Hds]; subst. simpl.
  apply Nat.eqb_neq in Hc. rewrite Hc, Hcd.
  rewrite take_digits_app; [now rewrite Hv|exact Hds|exact (ends_value_not_digit r Hr)].
Qed.

(** [int(repr(z))] *)
Lemma parse_int_repr z r : ends_value r = true -> parse_int (z_repr z ++ r) = Some (z, r).
Proof.
  intros Hr. pose proof (ends_value_no_float r Hr) as Hf.
  destruct z as [|p|p].
  - unfold parse_int. simpl. now rewrite Hf.
  - change (z_repr (Zpos p)) with (n_repr (Npos p)).
    pose proof (parse_uint_repr p r Hr) as Hu.
    destruct (n_repr_spec p) as [_ [Hall [c [ds [Heq Hc]]]]].
    rewrite Heq in *. inversion Hall as [|? ? Hcd Hds]; subst.
    cbn [app] in *. rewrite parse_int_nonneg, Hu, Hf; [reflexivity|].
    intros E. unfold is_digit in Hcd. rewrite E in Hcd. discriminate.
  - unfold parse_int. cbn [z_repr app]. cbv beta iota.
    simpl (code "-"%char =? 45). cbv beta iota. now rewrite parse_uint_repr, Hf.
Qed.

(** Each character's escape decodes back to it. *)
Lemma scan_escape_char c rest :
  scan_string (escape_char c ++ rest) =
  match scan_string rest with Some (r, t) => Some (c :: r, t) | None => None end.
Proof.
  destruct c as [[] [] [] [] [] [] [] []]; reflexivity.
Qed.

Lemma scan_dump_str s rest : scan_string (flat_map escape_char s ++ "034"%char :: rest) = Some (s, rest).
Proof.
  induction s as [|c s IH]; [reflexivity|].
  simpl flat_map. rewrite <- app_assoc, scan_escape_char, IH. reflexivity.
Qed.

(** The separators that [json_dump] nests in its own fixpoints, as
    functions of their own. *)
Fixpoint dump_elems (xs : list json) : pystr :=
  match xs with
  | [] => []
  | [x] => json_dump x
  | x :: xs' => json_dump x ++ comma ++ dump_elems xs'
  end.

Definition dump_member (k : pystr) (v : json) : pystr := dump_str k ++ colon ++ json_dump v.

Fixpoint dump_members (kvs : list (pystr * json)) : pystr :=
  match kvs with
  | [] => []
  | [(k, v)] => dump_member k v
  | (k, v) :: kvs' => dump_member k v ++ comma ++ dump_members kvs'
  end.

Fixpoint elems_size (xs : list json) : nat :=
  match xs with [] => 0 | x :: xs' => S (json_size x) + elems_size xs' end.

Fixpoint members_size (kvs : list (pystr * json)) : nat :=
  match kvs with [] => 0 | (_, v) :: kvs' => S (json_size v) + members_size kvs' end.

Lemma json_dump_list xs : json_dump (JList xs) = "["%char :: dump_elems xs ++ ["]"%char].
Proof. reflexivity. Qed.

Lemma json_dump_obj kvs : json_dump (JObj kvs) = "{"%char :: dump_members kvs ++ ["}"%char].
Proof.
  cbn [json_dump]. do 2 f_equal.
  induction kvs as [|[k v] kvs IH]; [reflexivity|]. destruct kvs as [|p kvs]; [reflexivity|].
  change (dump_members ((k, v) :: p :: kvs))
    with (dump_member k v ++ comma ++ dump_members (p :: kvs)).
  rewrite <- IH. unfold dump_member. rewrite <- !app_assoc. reflexivity.
Qed.

Lemma json_size_list xs : json_size (JList xs) = S (elems_size xs).
Proof. reflexivity. Qed.

Lemma json_size_obj kvs : json_size (JObj kvs) = S (members_size kvs).
Proof. reflexivity. Qed.

Lemma json_wf_list xs : json_wf (JList xs) <-> Forall json_wf xs.
Proof.
  cbn. induction xs as [|x xs IH]; [split; auto|].
  rewrite Forall_cons_iff, <- IH. reflexivity.
Qed.

Lemma json_wf_obj kvs :
  json_wf (JObj kvs) <-> NoDup (map fst kvs) /\ Forall (fun kv => json_wf (snd kv)) kvs.
Proof.
  cbn. apply and_iff_compat_l. induction kvs as [|[k v] kvs IH]; [split; auto|].
  rewrite Forall_cons_iff, <- IH. reflexivity.
Qed.

Lemma digit_cases c :
  is_digit c = true ->
  In c ["0"; "1"; "2"; "3"; "4"; "5"; "6"; "7"; "8"; "9"]%char.
Proof. destruct c as [[] [] [] [] [] [] [] []]; simpl; intros H; try discriminate; tauto. Qed.

Lemma z_repr_head z : exists c t, z_repr z = c :: t /\ (is_digit c = true \/ c = "-"%char).
Proof.
  destruct z as [|p|p]; [do 2 eexists; split; [reflexivity|now left]| |do 2 eexists; split; [reflexivity|now right]].
  destruct (n_repr_spec p) as [_ [Hall [c [ds [Hr _]]]]]. rewrite Hr in Hall.
  exists c, ds. split; [exact Hr|left; exact (Forall_inv Hall)].
Qed.

Lemma num_char c :
  is_digit c = true \/ c = "-"%char ->
  is_ws c = false /\ (code c =? 93) = false /\ (code c =? 125) = false /\ (code c =? 34) = false.
Proof.
  intros [H| ->]; [apply digit_cases in H; repeat destruct H as [<-|H]; [..|destruct H]|];
    repeat split.
Qed.

(** Every dumped value starts with a character that is not whitespace and
    does not close a list or a dict; it is a quote exactly for a string. *)
Lemma dump_head j : exists c t, json_dump j = c :: t /\ is_ws c = false /\
  (code c =? 93) = false /\ (code c =? 125) = false /\
  (code c =? 34) = match j with JStr _ => true | _ => false end.
Proof.
  destruct j as [| [] | z | s | xs | kvs];
    try (do 2 eexists; split; [reflexivity|]; repeat split; fail).
  destruct (z_repr_head z) as [c [t [Hz Hc]]]. exists c, t. split; [exact Hz|].
  exact (num_char c Hc).
Qed.

Lemma skip_ws_dump j r : skip_ws (json_dump j ++ r) = json_dump j ++ r.
Proof. destruct (dump_head j) as [c [t [-> [Hc _]]]]. simpl. now rewrite Hc. Qed.

Lemma skip_ws_space j r : skip_ws (" "%char :: json_dump j ++ r) = json_dump j ++ r.
Proof. apply skip_ws_dump. Qed.

#[export] Hint Rewrite skip_ws_dump skip_ws_space : pysimp.

Lemma dict_insert_fresh k v acc :
  ~ In k (map fst acc) -> dict_insert k v acc = acc ++ [(k, v)].
Proof.
  induction acc as [|[k' v'] acc IH]; simpl; intros H; [reflexivity|].
  destruct (pystr_eqb_spec k k'); [exfalso; apply H; now left|].
  rewrite IH; auto.
Qed.

(** One step of [parse_value] on each kind of leading character. *)
Lemma parse_value_quote f s :
  parse_value (S f) ("034"%char :: s) =
  match scan_string s with Some (x, r) => Some (JStr x, r) | None => None end.
Proof. reflexivity. Qed.

Lemma parse_value_bracket f s :
  parse_value (S f) ("["%char :: s) =
  match skip_ws s with
  | d :: r => if code d =? 93 then Some (JList [], r) else parse_elems f (d :: r) []
  | [] => None
  end.
Proof. reflexivity. Qed.

Lemma parse_value_brace f s :
  parse_value (S f) ("{"%char :: s) =
  match skip_ws s with
  | d :: r =>
      if code d =? 125 then Some (JObj [], r)
      else if code d =? 34 then parse_members f r [] else None
  | [] => None
  end.
Proof. reflexivity. Qed.

Lemma parse_value_num f c s :
  is_digit c = true \/ c = "-"%char ->
  parse_value (S f) (c :: s) =
  match parse_int (c :: s) with Some (z, r) => Some (JInt z, r) | None => None end.
Proof.
  intros [H| ->]; [apply digit_cases in H; repeat destruct H as [<-|H]; [..|destruct H]|];
    reflexivity.
Qed.

Lemma dump_str_app s r :
  dump_str s ++ r = "034"%char :: (flat_map escape_char s ++ "034"%char :: r).
Proof. unfold dump_str. simpl. now rewrite <- app_assoc. Qed.

(** What [parse_value] does on a dumped value followed by [r]. *)
Definition parses_back (j : json) : Prop :=
  json_wf j -> forall f r, json_size j <= f -> ends_value r = true ->
  parse_value f (json_dump j ++ r) = Some (j, r).

Lemma json_size_pos j : 1 <= json_size j.
Proof. destruct j; simpl; lia. Qed.

Lemma dump_elems_cons x xs R :
  dump_elems (x :: xs) ++ R =
  json_dump x ++ match xs with [] => R | _ => comma ++ dump_elems xs ++ R end.
Proof.
  destruct xs as [|y xs]; [reflexivity|].
  change (dump_elems (x :: y :: xs)) with (json_dump x ++ comma ++ dump_elems (y :: xs)).
  now rewrite <- !app_assoc.
Qed.

Lemma dump_members_cons k v kvs R :
  dump_members ((k, v) :: kvs) ++ R =
  "034"%char :: flat_map escape_char k ++ "034"%char :: colon ++ json_dump v ++
    match kvs with [] => R | _ => comma ++ dump_members kvs ++ R end.
Proof.
  destruct kvs as [|p kvs].
  - unfold dump_members, dump_member. now rewrite <- !app_assoc, dump_str_app.
  - change (dump_members ((k, v) :: p :: kvs)) with (dump_member k v ++ comma ++ dump_members (p :: kvs)).
    unfold dump_member. now rewrite <- !app_assoc, dump_str_app.
Qed.

(** Evaluate the tests of the scanner on literal characters and take the
    branches they select. *)
Ltac eval_char_tests :=
  repeat match goal with
  | |- context [Nat.eqb (code (Ascii ?a ?b ?c ?d ?e ?f ?g ?h)) ?n] =>
      let t := constr:(Nat.eqb (code (Ascii a b c d e f g h)) n) in
      let v := eval vm_compute in t in change t with v
  | |- context [is_ws (Ascii ?a ?b ?c ?d ?e ?f ?g ?h)] =>
      let t := constr:(is_ws (Ascii a b c d e f g h)) in
      let v := eval vm_compute in t in change t with v
  end; cbn beta iota.

Ltac scan_steps := repeat progress (cbn [skip_ws comma colon app]; eval_char_tests).

(** The element loop reads back the elements of a dumped list. *)
Lemma parse_elems_dump xs :
  Forall parses_back xs -> Forall json_wf xs -> xs <> [] ->
  forall f acc r, elems_size xs <= f -> ends_value r = true ->
  parse_elems f (dump_elems xs ++ "]"%char :: r) acc = Some (JList (acc ++ xs), r).
Proof.
  induction 1 as [|x xs Hx Hxs IH]; intros Hwf Hne f acc r Hf Hr; [congruence|].
  inversion Hwf as [|? ? Hwx Hwxs]; subst. destruct f as [|f]; [simpl in Hf; lia|].
  cbn [elems_size] in Hf. rewrite dump_elems_cons. cbn [parse_elems].
  destruct xs as [|y xs].
  - rewrite (Hx Hwx f ("]"%char :: r)) by (reflexivity || lia). reflexivity.
  - rewrite (Hx Hwx f) by (reflexivity || lia). scan_steps.
    rewrite dump_elems_cons, skip_ws_dump, <- dump_elems_cons, IH by (easy || lia).
    now rewrite <- app_assoc.
Qed.

(** The member loop reads back the members of a dumped dict. *)
Lemma parse_members_dump kvs :
  Forall (fun kv => parses_back (snd kv)) kvs -> Forall (fun kv => json_wf (snd kv)) kvs ->
  kvs <> [] ->
  forall f acc r X, NoDup (map fst acc ++ map fst kvs) -> members_size kvs <= f ->
  ends_value r = true -> dump_members kvs ++ "}"%char :: r = "034"%char :: X ->
  parse_members f X acc = Some (JObj (acc ++ kvs), r).
Proof.
  induction 1 as [|[k v] kvs Hv Hkvs IH]; intros Hwf Hne f acc r X Hnd Hf Hr HX; [congruence|].
  inversion Hwf as [|? ? Hwv Hwkvs]; subst. cbn [snd] in Hv, Hwv.
  destruct f as [|f]; [simpl in Hf; lia|]. cbn [members_size] in Hf. rewrite dump_members_cons in HX. injection HX as <-.
  cbn [parse_members]. rewrite scan_dump_str. scan_steps. rewrite skip_ws_dump.
  assert (Hfresh : ~ In k (map fst acc)).
  { intros Hin. simpl in Hnd. apply NoDup_remove_2 in Hnd. apply Hnd, in_or_app. now left. }
  destruct kvs as [|[k' v'] kvs]; cbn [members_size] in Hf.
  - rewrite (Hv Hwv f) by (reflexivity || lia). simpl.
    now rewrite dict_insert_fresh.
  - rewrite (Hv Hwv f) by (reflexivity || lia). scan_steps.
    rewrite dump_members_cons. scan_steps.
    rewrite dict_insert_fresh by exact Hfresh.
    rewrite (IH Hwkvs ltac:(discriminate) f (acc ++ [(k, v)]) r); [now rewrite <- app_assoc| | |exact Hr|].
    + rewrite map_app, <- app_assoc. exact Hnd.
    + simpl in *. lia.
    + now rewrite dump_members_cons.
Qed.

(** [parse_value] reads back every dumped value, with any fuel above its
    size. *)
Lemma parses_back_all j : parses_back j.
Proof.
  induction j as [| b | z | s | xs IH | kvs IH] using json_ind'; intros Hwf f r Hf Hr;
    (destruct f as [|f]; [pose proof (json_size_pos (JNull)); simpl in Hf; lia|]).
  - reflexivity.
  - destruct b; reflexivity.
  - destruct (z_repr_head z) as [c [t [Hz Hc]]].
    change (json_dump (JInt z)) with (z_repr z). rewrite Hz, <- app_comm_cons.
    rewrite parse_value_num by exact Hc. rewrite app_comm_cons, <- Hz, parse_int_repr by exact Hr.
    reflexivity.
  - change (json_dump (JStr s)) with (dump_str s).
    now rewrite dump_str_app, parse_value_quote, scan_dump_str.
  - rewrite json_dump_list, <- app_comm_cons, <- app_assoc, parse_value_bracket.
    apply json_wf_list in Hwf. rewrite json_size_list in Hf.
    destruct xs as [|x xs']; [reflexivity|].
    rewrite dump_elems_cons, skip_ws_dump.
    destruct (dump_head x) as [c [t [Hx [_ [H93 _]]]]].
    rewrite Hx, <- app_comm_cons, H93, app_comm_cons, <- Hx, <- dump_elems_cons.
    apply parse_elems_dump; (assumption || discriminate || lia).
  - rewrite json_dump_obj, <- app_comm_cons, <- app_assoc, parse_value_brace.
    apply json_wf_obj in Hwf as [Hnd Hwf]. rewrite json_size_obj in Hf.
    destruct kvs as [|[k v] kvs']; [reflexivity|].
    rewrite dump_members_cons. scan_steps.
    apply (parse_members_dump ((k, v) :: kvs')); (assumption || discriminate || lia || idtac).
    now rewrite dump_members_cons.
Qed.

Lemma elems_size_le xs :
  Forall (fun j => json_size j <= length (json_dump j)) xs ->
  elems_size xs <= S (length (dump_elems xs)).
Proof.
  induction 1 as [|x xs Hx Hxs IH]; [simpl; lia|].
  destruct xs as [|y xs]; [simpl; lia|].
  change (dump_elems (x :: y :: xs)) with (json_dump x ++ comma ++ dump_elems (y :: xs)).
  cbn [elems_size]. cbn [elems_size] in IH. rewrite !length_app. change (length comma) with 2. lia.
Qed.

Lemma members_size_le kvs :
  Forall (fun kv => json_size (snd kv) <= length (json_dump (snd kv))) kvs ->
  members_size kvs <= S (length (dump_members kvs)).
Proof.
  induction 1 as [|[k v] kvs Hv Hkvs IH]; [simpl; lia|]. cbn [snd] in Hv.
  pose proof (dump_members_cons k v kvs []) as E. rewrite app_nil_r in E.
  apply (f_equal (@length ascii)) in E. rewrite E.
  destruct kvs as [|[k' v'] kvs]; cbn [members_size] in *; cbn [length];
    rewrite ?app_nil_r, !length_app; cbn [length]; rewrite ?length_app;
    change (length colon) with 2; change (length comma) with 2; lia.
Qed.

(** The text of a value has at least one character per unit of fuel the
    value needs. *)
Lemma json_size_le_length j : json_size j <= length (json_dump j).
Proof.
  induction j as [| b | z | s | xs IH | kvs IH] using json_ind'.
  - simpl; lia.
  - destruct b; simpl; lia.
  - destruct (z_repr_head z) as [c [t [Hz _]]]. simpl json_dump. rewrite Hz. simpl; lia.
  - change (json_dump (JStr s)) with (dump_str s). rewrite <- (app_nil_r (dump_str s)).
    rewrite dump_str_app. simpl; lia.
  - rewrite json_size_list, json_dump_list. simpl length. rewrite length_app.
    pose proof (elems_size_le xs IH). simpl; lia.
  - rewrite json_size_obj, json_dump_obj. simpl length. rewrite length_app.
    pose proof (members_size_le kvs IH). simpl; lia.
Qed.

(** Round trip of the cache files: the text [json.dump] writes for a value
    is read back by [json.load] as that value. *)
Theorem json_load_dump j : json_wf j -> json_load (json_dump j) = Some j.
Proof.
  intros Hwf. unfold json_load.
  rewrite <- (app_nil_r (json_dump j)), skip_ws_dump, parses_back_all; [reflexivity|exact Hwf| |reflexivity].
  rewrite app_nil_r. pose proof (json_size_le_length j). lia.
Qed.
(** ** What [json.load] returns is well formed *)

Lemma dict_insert_keys k v acc :
  map fst (dict_insert k v acc) = if existsb (pystr_eqb k) (map fst acc) then map fst acc else map fst acc ++ [k].
Proof.
  induction acc as [|[k' v'] acc IH]; [reflexivity|]. cbn [dict_insert map fst existsb].
  destruct (pystr_eqb_spec k k') as [->|Hne]; [reflexivity|]. cbn [map fst]. rewrite IH.
  destruct (existsb _ _); reflexivity.
Qed.

Lemma dict_insert_nodup k v acc : NoDup (map fst acc) -> NoDup (map fst (dict_insert k v acc)).
Proof.
  intros Hnd. rewrite dict_insert_keys. destruct (existsb (pystr_eqb k) (map fst acc)) eqn:E; [exact Hnd|].
  apply NoDup_app; [exact Hnd|repeat constructor; auto|].
  intros x Hx [<-|[]]. apply not_true_iff_false in E. apply E, existsb_exists.
  exists k. split; [exact Hx|apply pystr_eqb_refl].
Qed.

Lemma dict_insert_values k v acc :
  Forall (fun kv => json_wf (snd kv)) acc -> json_wf v -> Forall (fun kv => json_wf (snd kv)) (dict_insert k v acc).
Proof.
  intros Hacc Hv. induction Hacc as [|[k' v'] acc Hkv Hacc IH]; cbn [dict_insert]; [repeat constructor; exact Hv|].
  destruct (pystr_eqb k k'); constructor; auto.
Qed.

(** The three parsers return well-formed values, at every fuel. *)
Lemma parse_wf f :
  (forall s v r, parse_value f s = Some (v, r) -> json_wf v) /\
  (forall s acc v r, Forall json_wf acc -> parse_elems f s acc = Some (v, r) -> json_wf v) /\
  (forall s acc v r, NoDup (map fst acc) -> Forall (fun kv => json_wf (snd kv)) acc ->
     parse_members f s acc = Some (v, r) -> json_wf v).
Proof.
  induction f as [|f (IHv & IHe & IHm)]; [repeat split; discriminate|]. repeat split.
  - intros [|c s] v r H; cbn [parse_value] in H; [discriminate|].
    destruct (code c =? 34).
    { destruct (scan_string s) as [[x r0]|]; [|discriminate]. now injection H as <- <-. }
    destruct (code c =? 91).
    { destruct (skip_ws s) as [|d r0]; [discriminate|].
      destruct (code d =? 93); [injection H as <- <-; now apply json_wf_list|].
      exact (IHe _ [] _ _ (Forall_nil _) H). }
    destruct (code c =? 123).
    { destruct (skip_ws s) as [|d r0]; [discriminate|].
      destruct (code d =? 125); [injection H as <- <-; apply json_wf_obj; split; constructor|].
      destruct (code d =? 34); [|discriminate]. exact (IHm _ [] _ _ (NoDup_nil _) (Forall_nil _) H). }
    repeat match type of H with
    | context [match ?x with Some _ => _ | None => _ end] => destruct x as [[]|]
    | context [match ?x with Some _ => _ | None => _ end] => destruct x
    end; try discriminate; injection H as <- <-; exact I.
  - intros s acc v r Hacc H. cbn [parse_elems] in H.
    destruct (parse_value f s) as [[x r0]|] eqn:Hx; [|discriminate].
    pose proof (IHv _ _ _ Hx) as Hwx.
    destruct (skip_ws r0) as [|d r']; [discriminate|].
    assert (Hacc' : Forall json_wf (acc ++ [x])) by (apply Forall_app; auto).
    destruct (code d =? 44); [exact (IHe _ _ _ _ Hacc' H)|].
    destruct (code d =? 93); [injection H as <- <-; now apply json_wf_list|discriminate].
  - intros s acc v r Hnd Hacc H. cbn [parse_members] in H.
    destruct (scan_string s) as [[k r0]|]; [|discriminate].
    destruct (skip_ws r0) as [|d r']; [discriminate|]. destruct (code d =? 58); [|discriminate].
    destruct (parse_value f (skip_ws r')) as [[x r'']|] eqn:Hx; [|discriminate].
    pose proof (dict_insert_nodup k x acc Hnd) as Hnd'.
    pose proof (dict_insert_values k x acc Hacc (IHv _ _ _ Hx)) as Hacc'.
    destruct (skip_ws r'') as [|e r3]; [discriminate|].
    destruct (code e =? 44).
    + destruct (skip_ws r3) as [|q r4]; [discriminate|].
      destruct (code q =? 34); [exact (IHm _ _ _ _ Hnd' Hacc' H)|discriminate].
    + destruct (code e =? 125); [injection H as <- <-; now apply json_wf_obj|discriminate].
Qed.

(** [json.load] returns only well-formed values: a dict it builds has
    distinct keys at every level, a repeated key keeping one entry. *)
Theorem json_load_wf s v : json_load s = Some v -> json_wf v.
Proof.
  unfold json_load. destruct (parse_value _ (skip_ws s)) as [[v' r]|] eqn:E; [|discriminate].
  destruct (skip_ws r); [|discriminate]. intros [= <-]. exact (proj1 (parse_wf _) _ _ _ E).
Qed.


(** ** [str(x)] and [repr(x)] of the values

    The service formats a value into a log line with ["%s" % doc]; this is
    CPython's [str], which for a [str] is the string itself and otherwise
    [repr]: [repr] of a string picks single quotes unless the string holds
    a single quote and no double quote, escapes the backslash, the quote,
    [\t], [\n], [\r], and writes the other non-printable code points
    (below 32, 127 to 160, and 173) as [\xhh]. *)

Definition repr_char (q c : ascii) : pystr :=
  let n := code c in
  if Ascii.eqb c q || (n =? 92) then ["092"%char; c]
  else if n =? 9 then ["092"; "t"]%char
  else if n =? 10 then ["092"; "n"]%char
  else if n =? 13 then ["092"; "r"]%char
  else if (n <? 32) || ((127 <=? n) && (n <=? 160)) || (n =? 173)
  then ["092"; "x"; hex_digit (n / 16); hex_digit (n mod 16)]%char
  else [c].

Definition repr_str (s : pystr) : pystr :=
  let q := if existsb (Ascii.eqb "'"%char) s && negb (existsb (Ascii.eqb "034"%char) s)
           then "034"%char else "'"%char in
  q :: flat_map (repr_char q) s ++ [q].

Fixpoint py_repr (j : json) : pystr :=
  match j with
  | JNull => str "None"
  | JBool true => str "True"
  | JBool false => str "False"
  | JInt z => z_repr z
  | JStr s => repr_str s
  | JList xs =>
      "["%char ::
        (fix go (xs : list json) : pystr :=
           match xs with
           | [] => []
           | [x] => py_repr x
           | x :: xs' => py_repr x ++ comma ++ go xs'
           end) xs ++ ["]"%char]
  | JObj kvs =>
      "{"%char ::
        (fix go (kvs : list (pystr * json)) : pystr :=
           match kvs with
           | [] => []
           | [(k, v)] => repr_str k ++ colon ++ py_repr v
           | (k, v) :: kvs' => repr_str k ++ colon ++ py_repr v ++ comma ++ go kvs'
           end) kvs ++ ["}"%char]
  end.

(** [str(x)] *)
Definition py_str (j : json) : pystr :=
  match j with JStr s => s | _ => py_repr j end.
