(* ===== verification/Ranking.v ===== *)
(** * The query filter and the relevance ranking

    The pure part of [DevDocsService.get_docs] and [get_doc_entries]
    (src/devdocs/devdocs_service.py, lines 99-102 and 118-129):
    - [name_matches]: [query.strip().lower() in x['name'].lower()], the
      test of both list comprehensions;
    - [entry_score]: [difflib.SequenceMatcher(None, x['name'], query).ratio()],
      the sort key, computed with the query as the caller passed it (not
      stripped, not lower-cased);
    - [rank_entries]: the comprehension followed by
      [sorted(..., key=..., reverse=True)].
    The theorems say what a ranked result is: every entry matches the
    query, the scores descend, ties keep the stored order, nothing is
    invented or lost, and the result is the one every stable sort gives. *)

From Stdlib Require Import Ascii String List Bool Arith QArith Permutation Sorted.
From S2P Require Import Prelude PyStr Json Difflib StableSort.
Import ListNotations.
Local Open Scope py_scope.

Module Ranking.

(** [query.strip().lower() in x['name'].lower()] *)
Definition name_matches (query : pystr) (x : json) : res bool :=
  let? n := getitem x (str "name") in
  let? nl := json_lower n in
  Ok (py_contains (py_lower (py_strip query)) nl).

(** [[x for x in items if query.strip().lower() in x['name'].lower()]] *)
Definition filter_by_name (query : pystr) (items : list json) : res (list json) :=
  filter_res (name_matches query) items.

(** [difflib.SequenceMatcher(None, x['name'], query).ratio()] *)
Definition entry_score (query : pystr) (x : json) : res Q :=
  let? n := getitem x (str "name") in
  let? a := as_str n in
  Ok (Difflib.ratio a query).

Definition qle (a b : Q) : bool := Qle_bool a b.

(** [sorted(entries, key=..., reverse=True)]: the keys are computed once
    per element, then the pairs are sorted by descending key. *)
Definition sort_by_score (query : pystr) (kept : list json) : res (list json) :=
  let? keyed := map_res (fun x => let? k := entry_score query x in Ok (x, k)) kept in
  Ok (map fst (sort_desc snd qle keyed)).

(** The query branch of [get_doc_entries]. *)
Definition rank_entries (query : pystr) (items : list json) : res (list json) :=
  let? kept := filter_by_name query items in
  sort_by_score query kept.

(** An entry as the ranking expects it: a dict whose ["name"] is a [str]. *)
Definition named (x : json) (n : pystr) : Prop := getitem x (str "name") = Ok (JStr n).

Definition name_of (x : json) : pystr :=
  match getitem x (str "name") with Ok (JStr n) => n | _ => [] end.

(** ** Lemmas *)

Lemma qle_total a b : qle a b = true \/ qle b a = true.
Proof.
  unfold qle. destruct (Qlt_le_dec a b) as [H|H].
  - left. apply Qle_bool_iff. now apply Qlt_le_weak.
  - right. now apply Qle_bool_iff.
Qed.

Lemma qle_trans a b c : qle a b = true -> qle b c = true -> qle a c = true.
Proof. unfold qle. rewrite !Qle_bool_iff. apply Qle_trans. Qed.

Lemma name_matches_named query x n :
  named x n -> name_matches query x = Ok (py_contains (py_lower (py_strip query)) (py_lower n)).
Proof. unfold named, name_matches. now intros ->. Qed.

Lemma entry_score_named query x n :
  named x n -> entry_score query x = Ok (Difflib.ratio n query).
Proof. unfold named, entry_score. now intros ->. Qed.

Lemma name_matches_true query x :
  name_matches query x = Ok true ->
  named x (name_of x) /\ py_contains (py_lower (py_strip query)) (py_lower (name_of x)) = true.
Proof.
  unfold name_matches, named, name_of.
  destruct (getitem x (str "name")) as [[]|]; simpl; try discriminate. now intros [= ->].
Qed.

Lemma sort_by_score_Ok query kept :
  Forall (fun x => named x (name_of x)) kept ->
  sort_by_score query kept =
  Ok (map fst (sort_desc snd qle (map (fun x => (x, Difflib.ratio (name_of x) query)) kept))).
Proof.
  intros Hn. unfold sort_by_score.
  rewrite (map_res_total _ (fun x => (x, Difflib.ratio (name_of x) query))); [reflexivity|].
  intros x Hx. rewrite (entry_score_named _ _ _ (proj1 (Forall_forall _ _) Hn x Hx)). reflexivity.
Qed.

Lemma filter_by_name_named query items kept :
  filter_by_name query items = Ok kept -> Forall (fun x => named x (name_of x)) kept.
Proof.
  intros H. apply Forall_forall. intros x Hx.
  apply (filter_res_Ok_sublist _ _ _ H) in Hx as [_ Hm].
  exact (proj1 (name_matches_true _ _ Hm)).
Qed.

(** The ranking of a successful query, written with its parts. *)
Lemma rank_entries_Ok query items r :
  rank_entries query items = Ok r ->
  exists kept, filter_by_name query items = Ok kept /\
    r = map fst (sort_desc snd qle (map (fun x => (x, Difflib.ratio (name_of x) query)) kept)).
Proof.
  unfold rank_entries. destruct (filter_by_name query items) as [kept|e] eqn:Hf; [|discriminate].
  simpl. rewrite sort_by_score_Ok by exact (filter_by_name_named _ _ _ Hf).
  intros [= <-]. eauto.
Qed.

(** The score of an entry in the sort. *)
Definition score (query : pystr) (x : json) : Q := Difflib.ratio (name_of x) query.

Definition matches (query : pystr) (x : json) : bool :=
  py_contains (py_lower (py_strip query)) (py_lower (name_of x)).

(** The filter of [get_docs] and [get_doc_entries] on entries that all
    have a [str] name is [List.filter] by [matches]. *)
Lemma filter_by_name_spec query items :
  Forall (fun x => named x (name_of x)) items ->
  filter_by_name query items = Ok (List.filter (matches query) items).
Proof.
  intros Hn. apply filter_res_total. intros x Hx. apply name_matches_named.
  exact (proj1 (Forall_forall _ _) Hn x Hx).
Qed.

Section PairSort.
Context {A K : Type} (f : A -> K) (kle : K -> K -> bool).

Lemma insert_desc_pair x l :
  insert_desc snd kle (x, f x) (map (fun y => (y, f y)) l) =
  map (fun y => (y, f y)) (insert_desc f kle x l).
Proof. induction l as [|y l IH]; simpl; [reflexivity|]. destruct (kle (f x) (f y)); simpl; congruence. Qed.

Lemma sort_desc_map_pair l :
  sort_desc snd kle (map (fun y => (y, f y)) l) = map (fun y => (y, f y)) (sort_desc f kle l).
Proof.
  induction l as [|x l IH] using rev_ind; [reflexivity|].
  rewrite map_app, !sort_desc_app. simpl map. rewrite sort_desc_app, IH.
  apply insert_desc_pair.
Qed.

(** Sorting the pairs [(x, key(x))] by their second component sorts by
    [key]: computing the keys first does not change the order. *)
Lemma sort_desc_pairs l :
  map fst (sort_desc snd kle (map (fun x => (x, f x)) l)) = sort_desc f kle l.
Proof. rewrite sort_desc_map_pair, map_map. apply map_id. Qed.
End PairSort.

(** [sorted(kept, key=..., reverse=True)] on entries with a [str] name
    is the descending stable sort by [score]. *)
Lemma sort_by_score_named query kept :
  Forall (fun x => named x (name_of x)) kept ->
  sort_by_score query kept = Ok (sort_desc (score query) qle kept).
Proof. intros Hn. rewrite sort_by_score_Ok by exact Hn. f_equal. apply (sort_desc_pairs (score query)). Qed.

(** The query branch of [get_doc_entries] on stored entries that are
    all dicts with a [str] name: it does not raise, and it is the stable
    descending sort by [difflib] ratio of the entries whose name contains
    the stripped, lower-cased query. *)
Theorem rank_entries_spec query items :
  Forall (fun x => named x (name_of x)) items ->
  rank_entries query items =
  Ok (sort_desc (score query) qle (List.filter (matches query) items)).
Proof.
  intros Hn. unfold rank_entries. rewrite filter_by_name_spec by exact Hn.
  apply sort_by_score_named, Forall_list_filter, Hn.
Qed.

(** (C12) An entry without a ["name"] key makes the query raise
    [KeyError('name')] when the comprehension reaches it. *)
Theorem rank_entries_missing_name query pre x rest :
  Forall (fun y => named y (name_of y)) pre ->
  getitem x (str "name") = Err (KeyError (str "name")) ->
  rank_entries query (pre ++ x :: rest) = Err (KeyError (str "name")).
Proof.
  intros Hpre Hx. unfold rank_entries, filter_by_name.
  rewrite (filter_res_first_err _ _ _ _ (KeyError (str "name"))); [reflexivity| |].
  - intros y Hy. eexists. apply name_matches_named. exact (proj1 (Forall_forall _ _) Hpre y Hy).
  - unfold name_matches. now rewrite Hx.
Qed.

Lemma rank_entries_result query items r :
  rank_entries query items = Ok r ->
  exists kept, filter_by_name query items = Ok kept /\ r = sort_desc (score query) qle kept.
Proof.
  intros H. apply rank_entries_Ok in H as [kept [Hf ->]]. exists kept. split; [exact Hf|].
  apply (sort_desc_pairs (score query)).
Qed.

(** (C11) Every entry of a ranked result has a [str] name that contains the
    stripped query, ignoring case. *)
Theorem rank_entries_match query items r :
  rank_entries query items = Ok r ->
  Forall (fun x => In x items /\ named x (name_of x) /\ matches query x = true) r.
Proof.
  intros H. apply rank_entries_result in H as [kept [Hf ->]].
  apply Forall_forall. intros x Hx.
  apply (Permutation_in _ (Permutation_sym (sort_desc_perm _ _ kept))) in Hx.
  apply (filter_res_Ok_sublist _ _ _ Hf) in Hx as [Hin Hm].
  apply name_matches_true in Hm as [Hn Hc]. auto.
Qed.

(** (C10) A ranked result is ordered by descending score, keeps the stored
    order among entries of equal score, and is the only list with these
    two properties: Python's Timsort returns exactly it. *)
Theorem rank_entries_order query items r :
  rank_entries query items = Ok r ->
  exists kept, filter_by_name query items = Ok kept /\
    StronglySorted (ge_key (score query) qle) r /\
    (forall z, List.filter (same_key (score query) qle z) r =
               List.filter (same_key (score query) qle z) kept) /\
    (forall out, StronglySorted (ge_key (score query) qle) out ->
       (forall z, List.filter (same_key (score query) qle z) out =
                  List.filter (same_key (score query) qle z) kept) -> out = r).
Proof.
  intros H. apply rank_entries_result in H as [kept [Hf ->]]. exists kept.
  split; [exact Hf|]. split; [apply sort_desc_sorted; [exact qle_total|exact qle_trans]|].
  split; [apply sort_desc_stable; [exact qle_total|exact qle_trans]|].
  apply stable_sort_is_sort_desc; [exact qle_total|exact qle_trans].
Qed.

(** An entry of an entries file, [{"name": n}]. *)
Definition entry (n : string) : json := JObj [(str "name", JStr (str n))].

(** The spec's scenario: the query ["array_f"] against the entries [array_filter] and
    [array_map]: ["array_f"] is not a substring of ["array_map"], so only
    [array_filter] is returned; its ratio is [14/19], that of
    [array_map] would be [12/16]. *)
Example rank_array_f :
  rank_entries (str "array_f") [entry "array_filter"; entry "array_map"] = Ok [entry "array_filter"] /\
  score (str "array_f") (entry "array_filter") = (14 # 19)%Q /\
  score (str "array_f") (entry "array_map") = (12 # 16)%Q.
Proof. repeat split; vm_compute; reflexivity. Qed.

(** ** Witnesses *)

Definition demo_items : list json := [entry "array_map"; entry "str_replace"; entry "array_filter"].

Lemma rank_entries_order_witness :
  StronglySorted (ge_key (score (str "array")) qle) [entry "array_map"; entry "array_filter"].
Proof.
  destruct (rank_entries_order (str "array") demo_items [entry "array_map"; entry "array_filter"])
    as [kept [_ [Hs _]]]; [vm_compute; reflexivity|exact Hs].
Defined.

Lemma rank_entries_match_witness :
  Forall (fun x => In x demo_items /\ named x (name_of x) /\ matches (str "array") x = true)
    [entry "array_map"; entry "array_filter"].
Proof. apply (rank_entries_match (str "array") demo_items). vm_compute. reflexivity. Defined.

Lemma rank_entries_missing_name_witness :
  rank_entries (str "array") ([entry "array_map"] ++ JObj [(str "type", JStr (str "Function"))] :: [])
  = Err (KeyError (str "name")).
Proof. apply rank_entries_missing_name; [repeat constructor|reflexivity]. Defined.

End Ranking.
