(* ===== verification/CacheStore.v ===== *)
(** * The Cache Store: the cache directory on disk

    src/devdocs/devdocs_service.py keeps its state in files: [index.json]
    and one [entries/<slug>.json] per documentation set, under
    [cache_dir].  This file models the part of the OS the service uses
    (the file system as a map from path to node, [os.path.exists],
    [os.path.isdir], [os.path.join], [os.mkdir], [os.makedirs],
    [open(p, 'w')] followed by [json.dump] and [open(p, 'r')] followed by
    [json.load]) and the service's own [ensure_cache_dirs].

    Interface: the operations run in [PyM St] for any state [St] that
    holds a file system and a trace of effects ([FsState]); the laws of
    [FsStateLaws] are all the theorems of this file assume about [St], and
    Service.v instantiates them with the world the service runs in.

    Theorems: what a successful write leaves on disk, the file round trip
    ([json_file_roundtrip]), that nothing the service does removes a
    path ([grows]), the idempotence of [ensure_cache_dirs], and that the
    operations change files only into complete [json.dump] texts of
    well-formed values ([json_files], a preorder carried by [rel_op]).
    The witnesses run on a bare file system ([bare_fs_state]). *)

From Stdlib Require Import Ascii String List Bool Arith Lia.
From stdpp Require Import base gmap strings.
From S2P Require Import Prelude PyStr Json JsonText.
Import ListNotations.
Local Open Scope py_scope.

(** ** Data *)

Inductive node : Type :=
| NDir                       (** a directory *)
| NFile (contents : pystr).  (** a regular file and its text *)

#[export] Instance node_eq_dec : EqDecision node.
Proof. solve_decision. Defined.

(** The observable effects of the program, in the order they happen. *)
Inductive event : Type :=
| ELog (msg : pystr)            (** [logger.info(msg)] *)
| EGet (url : pystr)            (** [requests.get(url)] *)
| ESleep (ms : nat)             (** [time.sleep(ms / 1000)] *)
| EMkdir (path : pystr)         (** a directory is created *)
| EWrite (path : pystr)         (** [open(path, 'w')]: the file is truncated *)
| ENotify (title body : pystr). (** a desktop notification is shown *)

(** The interface between the Cache Store and its clients: a state that
    holds a file system and records effects. *)
Class FsState (S : Type) := {
  fs_of : S -> gmap pystr node;
  set_fs : gmap pystr node -> S -> S;
  emit : event -> S -> S;
}.

Class FsStateLaws (S : Type) `{FsState S} := {
  fs_of_set m s : fs_of (set_fs m s) = m;
  fs_of_emit e s : fs_of (emit e s) = fs_of s;
}.

(** ** [posixpath] *)

Definition is_slash (c : ascii) : bool := Ascii.eqb c "/"%char.

(** [p.rfind('/') + 1] *)
Definition after_last_slash (p : pystr) : nat :=
  length (lstrip_by (fun c => negb (is_slash c)) (rev p)).

(** [posixpath.split(p)]: the head (without its trailing slashes, unless
    it is all slashes) and the tail. *)
Definition path_split (p : pystr) : pystr * pystr :=
  let i := after_last_slash p in
  let head := firstn i p in
  let head := if negb (forallb is_slash head) then rstrip_by is_slash head else head in
  (head, skipn i p).

(** [posixpath.dirname(p)] *)
Definition path_dirname (p : pystr) : pystr := fst (path_split p).

(** [posixpath.join(a, b)] *)
Definition path_join (a b : pystr) : pystr :=
  if py_startswith b ["/"%char] then b
  else match rev a with
       | [] => b
       | c :: _ => if is_slash c then a ++ b else a ++ ["/"%char] ++ b
       end.

Section Ops.
Context {St : Type} `{FsState St}.

Definition lookup_path (p : pystr) (s : St) : option node := fs_of s !! p.

(** [os.path.exists(p)] *)
Definition os_path_exists (p : pystr) : PyM St bool :=
  fun s => (s, Ok (match lookup_path p s with Some _ => true | None => false end)).

(** [os.path.isdir(p)] *)
Definition os_path_isdir (p : pystr) : PyM St bool :=
  fun s => (s, Ok (match lookup_path p s with Some NDir => true | _ => false end)).

(** The containing directory of [p] must be a directory: the current
    directory when [p] has no slash. *)
Definition parent_error (p : pystr) (s : St) : option exn :=
  let d := path_dirname p in
  match d with
  | [] => None
  | _ => match lookup_path d s with
         | Some NDir => None
         | Some (NFile _) => Some (NotADirectoryError p)
         | None => Some (FileNotFoundError p)
         end
  end.

(** [os.mkdir(p, mode)] *)
Definition os_mkdir (p : pystr) : PyM St unit :=
  fun s =>
    match lookup_path p s with
    | Some _ => (s, Err (FileExistsError p))
    | None =>
        match parent_error p s with
        | Some e => (s, Err e)
        | None => (emit (EMkdir p) (set_fs (<[p := NDir]> (fs_of s)) s), Ok tt)
        end
    end.

(** [try: m except FileExistsError: pass] *)
Definition except_file_exists (m : PyM St unit) : PyM St unit :=
  fun s => match m s with
           | (s', Err (FileExistsError _)) => (s', Ok tt)
           | r => r
           end.

(** [os.makedirs(name)] with [exist_ok=False]: create the missing
    ancestors first, then [name]; [fuel] bounds the recursion on the
    ancestors, each strictly shorter than [name], so [length name] is
    enough. *)
Fixpoint os_makedirs (fuel : nat) (name : pystr) : PyM St unit :=
  match fuel with
  | 0 => os_mkdir name
  | S f =>
      let '(head, tail) := path_split name in
      let '(head, tail) := match tail with [] => path_split head | _ => (head, tail) end in
      if nonempty head && nonempty tail then
        ex <- os_path_exists head ;;
        if ex then os_mkdir name
        else
          except_file_exists (os_makedirs f head) ;;
          if pystr_eqb tail (str ".") then pret tt else os_mkdir name
      else os_mkdir name
  end.

(** [with open(p, 'w') as f]: create or truncate [p]. *)
Definition open_w (p : pystr) : PyM St unit :=
  fun s =>
    match lookup_path p s with
    | Some NDir => (s, Err (IsADirectoryError p))
    | _ =>
        match parent_error p s with
        | Some e => (s, Err e)
        | None => (emit (EWrite p) (set_fs (<[p := NFile []]> (fs_of s)) s), Ok tt)
        end
    end.

(** [f.write(text)] on the file opened by [open_w]. *)
Definition file_append (p text : pystr) : PyM St unit :=
  fun s =>
    match lookup_path p s with
    | Some (NFile c) => (set_fs (<[p := NFile (c ++ text)]> (fs_of s)) s, Ok tt)
    | _ => (s, Err (FileNotFoundError p))
    end.

(** [with open(p, 'w') as f: json.dump(v, f)] *)
Definition json_dump_file (p : pystr) (v : json) : PyM St unit :=
  open_w p ;; file_append p (json_dump v).

(** [with open(p, 'r') as f: data = json.load(f)] *)
Definition json_load_file (p : pystr) : PyM St json :=
  fun s =>
    match lookup_path p s with
    | None => (s, Err (FileNotFoundError p))
    | Some NDir => (s, Err (IsADirectoryError p))
    | Some (NFile c) =>
        match json_load c with
        | Some v => (s, Ok v)
        | None => (s, Err JSONDecodeError)
        end
    end.
End Ops.

(** ** The service's paths and [ensure_cache_dirs] *)

(** The attributes of [DevDocsService] set by [__init__]. *)
Record service : Type := {
  cache_dir : pystr;
  index_file : pystr;      (** [os.path.join(cache_dir, "index.json")] *)
  entries_dir : pystr;     (** [os.path.join(cache_dir, "entries")] *)
  docs_to_fetch : json;    (** [set_docs_to_fetch]; [[]] initially *)
}.

Definition make_service (dir : pystr) : service := {|
  cache_dir := dir;
  index_file := path_join dir (str "index.json");
  entries_dir := path_join dir (str "entries");
  docs_to_fetch := JList [];
|}.

Section Ensure.
Context {St : Type} `{FsState St}.

(** [DevDocsService.ensure_cache_dirs] *)
Definition ensure_cache_dirs (svc : service) : PyM St unit :=
  ex <- os_path_exists (cache_dir svc) ;;
  (if ex then pret tt else os_makedirs (length (cache_dir svc)) (cache_dir svc)) ;;
  ex' <- os_path_exists (index_file svc) ;;
  (if ex' then pret tt else json_dump_file (index_file svc) (JList [])) ;;
  isd <- os_path_isdir (entries_dir svc) ;;
  if isd then pret tt else os_mkdir (entries_dir svc).

(** [DevDocsService.__init__(logger, cache_dir)] *)
Definition service_init (dir : pystr) : PyM St service :=
  let svc := make_service dir in
  ensure_cache_dirs svc ;; pret svc.

(** [set_docs_to_fetch(docs)] *)
Definition set_docs_to_fetch (svc : service) (docs : json) : service :=
  {| cache_dir := cache_dir svc; index_file := index_file svc;
     entries_dir := entries_dir svc; docs_to_fetch := docs |}.
End Ensure.

(** ** Lemmas *)

Section Laws.
Context {St : Type} `{FsStateLaws St}.

Lemma lookup_path_update p n e (s : St) q :
  lookup_path q (emit e (set_fs (<[p := n]> (fs_of s)) s)) =
  if decide (p = q) then Some n else lookup_path q s.
Proof.
  unfold lookup_path. rewrite fs_of_emit, fs_of_set.
  destruct (decide (p = q)) as [->|Hne]; [apply lookup_insert_eq|now apply lookup_insert_ne].
Qed.

Lemma lookup_path_set p n (s : St) q :
  lookup_path q (set_fs (<[p := n]> (fs_of s)) s) =
  if decide (p = q) then Some n else lookup_path q s.
Proof.
  unfold lookup_path. rewrite fs_of_set.
  destruct (decide (p = q)) as [->|Hne]; [apply lookup_insert_eq|now apply lookup_insert_ne].
Qed.

(** [s'] keeps every path of [s], and every directory of [s] stays a
    directory: nothing the service does removes a file or a directory. *)
Definition grows (s s' : St) : Prop :=
  forall q, (lookup_path q s = Some NDir -> lookup_path q s' = Some NDir) /\
            (lookup_path q s <> None -> lookup_path q s' <> None).

Definition grows_op {A} (m : PyM St A) : Prop := forall s, grows s (fst (m s)).

Lemma grows_refl s : grows s s.
Proof. intros q; auto. Qed.

Lemma grows_trans s1 s2 s3 : grows s1 s2 -> grows s2 s3 -> grows s1 s3.
Proof. intros H12 H23 q. destruct (H12 q), (H23 q). auto. Qed.

Lemma grows_pret {A} (a : A) : grows_op (pret a).
Proof. intros s. apply grows_refl. Qed.

Lemma grows_pbind {A B} (m : PyM St A) (k : A -> PyM St B) :
  grows_op m -> (forall a, grows_op (k a)) -> grows_op (pbind m k).
Proof.
  intros Hm Hk s. unfold pbind. specialize (Hm s).
  destruct (m s) as [s' [a|e]] eqn:E; simpl in *; [|exact Hm].
  eapply grows_trans; [exact Hm|apply Hk].
Qed.

(** Replacing a node that is not a directory by a file, or adding a
    node, grows the file system. *)
Lemma grows_update p n e (s : St) :
  lookup_path p s <> Some NDir -> grows s (emit e (set_fs (<[p := n]> (fs_of s)) s)).
Proof.
  intros Hnd q. rewrite lookup_path_update.
  destruct (decide (p = q)) as [<-|]; [split; [congruence|discriminate]|auto].
Qed.

Lemma grows_os_mkdir p : grows_op (os_mkdir p).
Proof.
  intros s. unfold os_mkdir. destruct (lookup_path p s) eqn:E; [apply grows_refl|].
  destruct (parent_error p s); [apply grows_refl|]. simpl.
  apply grows_update. congruence.
Qed.

Lemma grows_open_w p : grows_op (open_w p).
Proof.
  intros s. unfold open_w. destruct (lookup_path p s) as [[]|] eqn:E; try apply grows_refl;
    (destruct (parent_error p s); [apply grows_refl|]); simpl;
    apply grows_update; congruence.
Qed.

Lemma grows_file_append p t : grows_op (file_append p t).
Proof.
  intros s. unfold file_append. destruct (lookup_path p s) as [[|c]|] eqn:E; try apply grows_refl.
  simpl. intros q. rewrite lookup_path_set.
  destruct (decide (p = q)) as [<-|]; [rewrite E; split; congruence|auto].
Qed.

Lemma grows_except_file_exists m : grows_op m -> grows_op (except_file_exists m).
Proof.
  intros Hm s. unfold except_file_exists. specialize (Hm s).
  destruct (m s) as [s' [|[]]]; exact Hm.
Qed.

Lemma grows_os_path_exists p : grows_op (os_path_exists p).
Proof. intros s. apply grows_refl. Qed.

Lemma grows_os_path_isdir p : grows_op (os_path_isdir p).
Proof. intros s. apply grows_refl. Qed.

Lemma grows_json_dump_file p v : grows_op (json_dump_file p v).
Proof. apply grows_pbind; [apply grows_open_w|intros; apply grows_file_append]. Qed.

Lemma grows_json_load_file p : grows_op (json_load_file p).
Proof.
  intros s. unfold json_load_file.
  destruct (lookup_path p s) as [[|c]|]; [| |apply grows_refl]; [apply grows_refl|].
  destruct (json_load c); apply grows_refl.
Qed.

Lemma grows_os_makedirs f p : grows_op (os_makedirs f p).
Proof.
  revert p. induction f as [|f IH]; intros p; [apply grows_os_mkdir|]. cbn [os_makedirs].
  destruct (path_split p) as [h t].
  destruct (match t with [] => path_split h | _ => (h, t) end) as [h' t'].
  destruct (nonempty h' && nonempty t'); [|apply grows_os_mkdir].
  apply grows_pbind; [apply grows_os_path_exists|intros []; [apply grows_os_mkdir|]].
  apply grows_pbind; [apply grows_except_file_exists, IH|intros _].
  destruct (pystr_eqb t' (str ".")); [apply grows_pret|apply grows_os_mkdir].
Qed.
End Laws.

#[export] Hint Resolve grows_refl grows_pret grows_pbind grows_os_mkdir grows_open_w
  grows_file_append grows_except_file_exists grows_os_path_exists grows_os_path_isdir
  grows_json_dump_file grows_json_load_file grows_os_makedirs : devdocs.

Section Spec.
Context {St : Type} `{FsStateLaws St}.

Lemma os_mkdir_Ok p (s s' : St) :
  os_mkdir p s = (s', Ok tt) -> lookup_path p s' = Some NDir.
Proof.
  unfold os_mkdir. destruct (lookup_path p s); [discriminate|].
  destruct (parent_error p s); [discriminate|]. intros [= <-].
  rewrite lookup_path_update. now rewrite decide_True.
Qed.

(** What a successful [json.dump] to [p] leaves on disk: the text of
    the value at [p], every other path untouched. *)
Lemma json_dump_file_Ok p v (s s' : St) :
  json_dump_file p v s = (s', Ok tt) ->
  lookup_path p s' = Some (NFile (json_dump v)) /\
  forall q, q <> p -> lookup_path q s' = lookup_path q s.
Proof.
  unfold json_dump_file, pbind, open_w.
  destruct (lookup_path p s) as [[|c]|] eqn:Ep; [discriminate| |];
    (destruct (parent_error p s); [discriminate|]);
    unfold file_append; rewrite lookup_path_update, decide_True by reflexivity;
    intros [= <-]; (split; [rewrite lookup_path_set, decide_True; reflexivity|]);
    intros q Hq; rewrite lookup_path_set, decide_False by congruence;
    rewrite lookup_path_update, decide_False by congruence; reflexivity.
Qed.

(** A failed [open(p, 'w')] changes nothing. *)
Lemma json_dump_file_Err p v (s s' : St) e :
  json_dump_file p v s = (s', Err e) -> s' = s.
Proof.
  unfold json_dump_file, pbind, open_w.
  destruct (lookup_path p s) as [[|c]|]; [congruence| |];
    (destruct (parent_error p s); [congruence|]);
    unfold file_append; rewrite lookup_path_update, decide_True by reflexivity; discriminate.
Qed.

(** The tail [os.makedirs] inspects: the last component of [name]. *)
Definition final_tail (name : pystr) : pystr :=
  let '(head, tail) := path_split name in
  match tail with [] => snd (path_split head) | _ => tail end.

Lemma os_makedirs_Ok f name (s s' : St) :
  final_tail name <> str "." ->
  os_makedirs f name s = (s', Ok tt) -> lookup_path name s' = Some NDir.
Proof.
  intros Ht. destruct f as [|f]; [apply os_mkdir_Ok|]. cbn [os_makedirs].
  unfold final_tail in Ht. destruct (path_split name) as [h t].
  assert (Ht' : snd (match t with [] => path_split h | _ => (h, t) end) <> str ".")
    by (destruct t; exact Ht).
  destruct (match t with [] => path_split h | _ => (h, t) end) as [h' t']. cbn [snd] in Ht'.
  destruct (nonempty h' && nonempty t'); [|apply os_mkdir_Ok].
  intros (s1 & ex & _ & Hk)%pbind_Ok_inv. destruct ex; [exact (os_mkdir_Ok _ _ _ Hk)|].
  apply pbind_Ok_inv in Hk as (s2 & [] & _ & Hk).
  destruct (pystr_eqb_spec t' (str ".")); [congruence|exact (os_mkdir_Ok _ _ _ Hk)].
Qed.

Lemma grows_run {A} (m : PyM St A) (s s' : St) r : grows_op m -> m s = (s', r) -> grows s s'.
Proof. intros G E. specialize (G s). now rewrite E in G. Qed.

Lemma grows_exists (s s' : St) q : grows s s' -> lookup_path q s <> None -> lookup_path q s' <> None.
Proof. intros G. apply (G q). Qed.

Lemma grows_dir (s s' : St) q : grows s s' -> lookup_path q s = Some NDir -> lookup_path q s' = Some NDir.
Proof. intros G. apply (G q). Qed.

(** A file that holds the dump of a well-formed value loads as it. *)
Lemma json_load_file_stored p v (s : St) :
  lookup_path p s = Some (NFile (json_dump v)) -> json_wf v -> json_load_file p s = (s, Ok v).
Proof. intros Hp Hwf. unfold json_load_file. now rewrite Hp, json_load_dump by exact Hwf. Qed.

(** A file that is not JSON makes [json.load] raise, and nothing changes. *)
Lemma json_load_file_corrupt p c (s : St) :
  lookup_path p s = Some (NFile c) -> json_load c = None -> json_load_file p s = (s, Err JSONDecodeError).
Proof. intros Hp Hc. unfold json_load_file. now rewrite Hp, Hc. Qed.

(** (C13) The cache file round trip: what [json.dump] wrote to [p],
    [json.load] reads back from [p]. *)
Theorem json_file_roundtrip p v (s s' : St) :
  json_wf v -> json_dump_file p v s = (s', Ok tt) -> json_load_file p s' = (s', Ok v).
Proof.
  intros Hwf Hw. apply json_dump_file_Ok in Hw as [Hp _]. now apply json_load_file_stored.
Qed.

Lemma ensure_cache_dirs_noop svc (s : St) :
  lookup_path (cache_dir svc) s <> None -> lookup_path (index_file svc) s <> None ->
  lookup_path (entries_dir svc) s = Some NDir -> ensure_cache_dirs svc s = (s, Ok tt).
Proof.
  intros H1 H2 H3. unfold ensure_cache_dirs.
  rewrite (pbind_Ok _ _ s s true)
    by (unfold os_path_exists; destruct (lookup_path (cache_dir svc) s); congruence).
  cbv beta iota. rewrite pbind_pret.
  rewrite (pbind_Ok _ _ s s true)
    by (unfold os_path_exists; destruct (lookup_path (index_file svc) s); congruence).
  cbv beta iota. rewrite pbind_pret.
  rewrite (pbind_Ok _ _ s s true) by (unfold os_path_isdir; now rewrite H3).
  reflexivity.
Qed.

Lemma os_path_exists_run p (s s' : St) b :
  os_path_exists p s = (s', Ok b) -> s' = s /\ (b = true -> lookup_path p s <> None).
Proof. unfold os_path_exists. intros [= <- <-]. split; [reflexivity|]. destruct (lookup_path p s); congruence. Qed.

Lemma os_path_isdir_run p (s s' : St) b :
  os_path_isdir p s = (s', Ok b) -> s' = s /\ (b = true -> lookup_path p s = Some NDir).
Proof. unfold os_path_isdir. intros [= <- <-]. split; [reflexivity|]. destruct (lookup_path p s) as [[]|]; congruence. Qed.

(** After a successful [ensure_cache_dirs] the cache directory and the
    index exist and the entries directory is a directory. *)
Lemma ensure_cache_dirs_post svc (s s1 : St) :
  final_tail (cache_dir svc) <> str "." ->
  ensure_cache_dirs svc s = (s1, Ok tt) ->
  lookup_path (cache_dir svc) s1 <> None /\ lookup_path (index_file svc) s1 <> None /\
  lookup_path (entries_dir svc) s1 = Some NDir.
Proof.
  intros Ht Hrun. unfold ensure_cache_dirs in Hrun.
  apply pbind_Ok_inv in Hrun as (s0 & ex & E0 & Hrun). apply os_path_exists_run in E0 as [-> E0].
  apply pbind_Ok_inv in Hrun as (sa & [] & EA & Hrun).
  apply pbind_Ok_inv in Hrun as (sb0 & ex' & EB0 & Hrun). apply os_path_exists_run in EB0 as [-> EB0].
  apply pbind_Ok_inv in Hrun as (sb & [] & EB & Hrun).
  apply pbind_Ok_inv in Hrun as (sc0 & isd & EC0 & Hrun). apply os_path_isdir_run in EC0 as [-> EC0].
  assert (GA : lookup_path (cache_dir svc) sa <> None).
  { destruct ex; [injection EA as <-; auto|]. apply os_makedirs_Ok in EA; [congruence|exact Ht]. }
  assert (GB : grows sa sb) by (destruct ex'; [injection EB as <-; apply grows_refl|exact (grows_run _ _ _ _ (grows_json_dump_file _ _) EB)]).
  assert (GC : grows sb s1) by (destruct isd; [injection Hrun as <-; apply grows_refl|exact (grows_run _ _ _ _ (grows_os_mkdir _) Hrun)]).
  assert (IB : lookup_path (index_file svc) sb <> None).
  { destruct ex'; [injection EB as <-; auto|]. apply json_dump_file_Ok in EB as [-> _]. discriminate. }
  repeat split.
  - eauto using grows_exists.
  - eauto using grows_exists.
  - destruct isd; [injection Hrun as <-; auto|]. exact (os_mkdir_Ok _ _ _ Hrun).
Qed.

(** (C14) [ensure_cache_dirs] is idempotent: run again on the state it
    produced, it succeeds and changes nothing. *)
Theorem ensure_cache_dirs_idempotent svc (s s1 : St) :
  final_tail (cache_dir svc) <> str "." ->
  ensure_cache_dirs svc s = (s1, Ok tt) -> ensure_cache_dirs svc s1 = (s1, Ok tt).
Proof.
  intros Ht Hrun. destruct (ensure_cache_dirs_post svc s s1 Ht Hrun) as (H1 & H2 & H3).
  now apply ensure_cache_dirs_noop.
Qed.
End Spec.

(** ** The files the service writes are JSON documents

    [json_files s s']: every file of [s'] is a file of [s] with the same
    content, or holds the text [json.dump] writes for a well-formed value.
    Each operation of the service moves the state along this preorder
    whether it returns or raises; [open(p, 'w')] alone does not (it leaves
    an empty file), but [json_dump_file] does, since
    once [open] succeeded the [dump] cannot fail. *)
Section JsonFiles.
Context {St : Type} `{FsStateLaws St}.

Definition json_text (c : pystr) : Prop := exists v, c = json_dump v /\ json_wf v.

Definition json_files (s s' : St) : Prop :=
  forall p c, lookup_path p s' = Some (NFile c) -> lookup_path p s = Some (NFile c) \/ json_text c.

Lemma json_files_refl s : json_files s s.
Proof. intros p c Hp. now left. Qed.

Lemma json_files_trans s1 s2 s3 : json_files s1 s2 -> json_files s2 s3 -> json_files s1 s3.
Proof. intros H12 H23 p c Hp. destruct (H23 p c Hp) as [Hp2|Hj]; [exact (H12 p c Hp2)|now right]. Qed.

Lemma json_files_run {A} (m : PyM St A) s s' r : rel_op json_files m -> m s = (s', r) -> json_files s s'.
Proof. intros Hm E. specialize (Hm s). now rewrite E in Hm. Qed.

Lemma json_files_mkdir p e (s : St) : json_files s (emit e (set_fs (<[p := NDir]> (fs_of s)) s)).
Proof.
  intros q c. rewrite lookup_path_update. destruct (decide (p = q)); [discriminate|now left].
Qed.

Lemma json_files_os_mkdir p : rel_op json_files (os_mkdir p).
Proof.
  intros s. unfold os_mkdir. destruct (lookup_path p s); [apply json_files_refl|].
  destruct (parent_error p s); [apply json_files_refl|apply json_files_mkdir].
Qed.

Lemma json_files_except_file_exists m : rel_op json_files m -> rel_op json_files (except_file_exists m).
Proof. intros Hm s. specialize (Hm s). unfold except_file_exists. destruct (m s) as [s' [|[]]]; exact Hm. Qed.

Lemma json_files_os_makedirs f p : rel_op json_files (os_makedirs f p).
Proof.
  revert p. induction f as [|f IH]; intros p; [apply json_files_os_mkdir|]. cbn [os_makedirs].
  destruct (path_split p) as [h t].
  destruct (match t with [] => path_split h | _ => (h, t) end) as [h' t'].
  destruct (nonempty h' && nonempty t'); [|apply json_files_os_mkdir].
  apply rel_op_pbind; [exact json_files_trans|intros s; apply json_files_refl|intros []; [apply json_files_os_mkdir|]].
  apply rel_op_pbind; [exact json_files_trans|apply json_files_except_file_exists, IH|intros _].
  destruct (pystr_eqb t' (str ".")); [apply rel_op_pret, json_files_refl|apply json_files_os_mkdir].
Qed.

Lemma json_files_json_dump_file p v : json_wf v -> rel_op json_files (json_dump_file p v).
Proof.
  intros Hwf s. destruct (json_dump_file p v s) as [s' [[]|e]] eqn:E; cbn [fst].
  - apply json_dump_file_Ok in E as [Hp Hq]. intros q c Hc.
    destruct (decide (q = p)) as [->|Hne].
    + rewrite Hp in Hc. injection Hc as <-. right. now exists v.
    + left. now rewrite <- Hq.
  - apply json_dump_file_Err in E as ->. apply json_files_refl.
Qed.

Lemma json_files_json_load_file p : rel_op json_files (json_load_file p).
Proof.
  intros s. unfold json_load_file.
  destruct (lookup_path p s) as [[|c]|]; [| |apply json_files_refl]; [apply json_files_refl|].
  destruct (json_load c); apply json_files_refl.
Qed.

Lemma json_files_read {A} (m : PyM St A) : (forall s, fst (m s) = s) -> rel_op json_files m.
Proof. intros Hm s. rewrite Hm. apply json_files_refl. Qed.

Lemma json_files_ensure_cache_dirs svc : rel_op json_files (ensure_cache_dirs svc).
Proof.
  unfold ensure_cache_dirs.
  repeat first
    [ apply json_files_json_dump_file, json_wf_list; constructor
    | apply json_files_os_makedirs | apply json_files_os_mkdir
    | apply rel_op_pbind; [exact json_files_trans| |intros []]
    | apply json_files_read; reflexivity
    | apply rel_op_pret, json_files_refl ].
Qed.
End JsonFiles.

(** ** Paths of the cache *)

(** A directory path with no trailing slash, as [cache_dir] is. *)
Definition plain_dir (d : pystr) : bool :=
  match rev d with c :: _ => negb (is_slash c) | [] => false end.

(** A file name without slashes, as ["index.json"] or [slug + ".json"]. *)
Definition plain_name (n : pystr) : bool := nonempty n && negb (existsb is_slash n).

Lemma lstrip_by_all p l r : forallb p l = true -> lstrip_by p (l ++ r) = lstrip_by p r.
Proof.
  induction l as [|c l IH]; simpl; [reflexivity|]. intros [-> H]%andb_true_iff. now apply IH.
Qed.

Lemma plain_name_head n : plain_name n = true -> py_startswith n ["/"%char] = false.
Proof.
  unfold plain_name. destruct n as [|c n]; [discriminate|]. cbn [nonempty existsb andb].
  intros H. apply negb_true_iff, orb_false_iff in H as [Hc _]. cbn [py_startswith].
  unfold is_slash in Hc. now rewrite Ascii.eqb_sym, Hc.
Qed.

Lemma path_join_plain d n :
  plain_dir d = true -> plain_name n = true -> path_join d n = d ++ "/"%char :: n.
Proof.
  intros Hd Hn. unfold path_join. rewrite plain_name_head by exact Hn.
  unfold plain_dir in Hd. destruct (rev d) as [|c r]; [discriminate|].
  apply negb_true_iff in Hd. now rewrite Hd.
Qed.

Lemma plain_dir_join d n : plain_dir d = true -> plain_name n = true -> plain_dir (path_join d n) = true.
Proof.
  intros Hd Hn. rewrite path_join_plain by assumption. unfold plain_dir.
  rewrite rev_app_distr. simpl. unfold plain_name in Hn.
  apply andb_true_iff in Hn as [Hne Hs]. destruct (rev n) as [|c r] eqn:E.
  - apply (f_equal (@rev ascii)) in E. rewrite rev_involutive in E. subst. discriminate.
  - simpl. apply negb_true_iff. apply negb_true_iff in Hs.
    destruct (is_slash c) eqn:Ec; [|reflexivity].
    assert (In c n) by (apply in_rev; rewrite E; now left).
    rewrite <- Hs. symmetry. apply existsb_exists. eauto.
Qed.

(** The directory of [os.path.join(d, n)] is [d]. *)
Lemma path_dirname_join d n :
  plain_dir d = true -> plain_name n = true -> path_dirname (path_join d n) = d.
Proof.
  intros Hd Hn. rewrite path_join_plain by assumption.
  unfold path_dirname, path_split, after_last_slash.
  rewrite rev_app_distr. simpl rev. rewrite <- app_assoc.
  rewrite lstrip_by_all.
  2: { unfold plain_name in Hn. apply andb_true_iff in Hn as [_ Hs]. apply negb_true_iff in Hs.
       apply forallb_forall. intros c Hc%in_rev. apply negb_true_iff.
       destruct (is_slash c) eqn:Ec; [|reflexivity]. rewrite <- Hs. symmetry.
       apply existsb_exists. eauto. }
  simpl. rewrite length_rev.
  replace (d ++ "/"%char :: n) with ((d ++ ["/"%char]) ++ n) by now rewrite <- app_assoc.
  rewrite firstn_app, length_app. simpl length.
  replace (S (length d) - (length d + 1)) with 0 by lia.
  rewrite firstn_O, app_nil_r, firstn_all2 by (rewrite length_app; simpl; lia). simpl fst.
  unfold plain_dir in Hd.
  assert (Hf : forallb is_slash (d ++ ["/"%char]) = false).
  { rewrite forallb_app. apply andb_false_iff. left.
    destruct (rev d) as [|c r] eqn:E; [discriminate|]. apply negb_true_iff in Hd.
    apply not_true_iff_false. intros Hall. rewrite forallb_forall in Hall.
    rewrite Hall in Hd; [discriminate|]. apply in_rev. rewrite E. now left. }
  rewrite Hf. simpl negb. cbv iota. unfold rstrip_by. rewrite rev_app_distr. simpl.
  destruct (rev d) as [|c r] eqn:E; [discriminate|]. simpl. apply negb_true_iff in Hd. rewrite Hd.
  rewrite <- E. apply rev_involutive.
Qed.

(** ** Witnesses

    The theorems on a bare file system: the state is the map of paths,
    and the trace of effects is not kept. *)
#[export] Instance bare_fs_state : FsState (gmap pystr node) := {|
  fs_of m := m;
  set_fs m _ := m;
  emit _ m := m;
|}.

#[export] Instance bare_fs_laws : FsStateLaws (gmap pystr node).
Proof. split; reflexivity. Qed.

Definition root_fs : gmap pystr node := <[str "/" := NDir]> ∅.

Definition cache_fs : gmap pystr node := <[str "/c" := NDir]> root_fs.

Lemma json_file_roundtrip_witness :
  json_load_file (str "/c/index.json")
    (fst (json_dump_file (str "/c/index.json") (JList [JStr (str "go")]) cache_fs)) =
  (fst (json_dump_file (str "/c/index.json") (JList [JStr (str "go")]) cache_fs), Ok (JList [JStr (str "go")])).
Proof.
  apply (json_file_roundtrip _ _ cache_fs); [vm_compute; tauto|vm_compute; reflexivity].
Defined.

Lemma ensure_cache_dirs_idempotent_witness :
  ensure_cache_dirs (make_service (str "/home/u/.cache/devdocs"))
    (fst (ensure_cache_dirs (make_service (str "/home/u/.cache/devdocs")) root_fs)) =
  (fst (ensure_cache_dirs (make_service (str "/home/u/.cache/devdocs")) root_fs), Ok tt).
Proof.
  apply (ensure_cache_dirs_idempotent _ root_fs); [vm_compute; discriminate|vm_compute; reflexivity].
Defined.

