(* ===== verification/Service.v ===== *)
(** * The Sync and Search engine: [DevDocsService]

    src/devdocs/devdocs_service.py, class [DevDocsService]:
    - sync: [index] (lines 59-78) fetches [docs.json], keeps the documents
      whose slug is [in self.docs_to_fetch], writes them to [index.json],
      then runs [fetch_doc_entries] (lines 80-91) on each kept slug with a
      [time.sleep(0.5)] after each;
    - search: [get_docs] (lines 93-104), [get_doc_entries] (lines 106-131)
      and [get_doc_by_slug] (lines 133-142) read the cache files.

    The world the service runs in ([world]) is the file system, the trace
    of effects and the HTTP endpoint: [w_http url] is what [requests.get]
    returns for [url] (the code never checks the status, so only the body
    matters; [HttpDown] is a [ConnectionError]).  [world] is an instance of
    the Cache Store's interface [FsState], and its laws hold by
    computation.

    Theorems: the run of a sync that succeeds ([index_Ok]), fails at the
    first request ([index_down]) or fails part-way ([index_partial]); the
    queries on a stored cache, that they only read, that they raise on a
    corrupt cache file, and that a search after a sync finds what the
    sync stored; which documents a sync fetches on a [str] preference
    ([index_selects_substrings]) and where the entries of an absolute slug
    go ([entries_path_escapes]); that every file it writes holds a complete JSON text ([json_files_index]),
    and that a successful sync leaves the cache ready for the next one
    ([index_keeps_ready]).  [body_world] is the world after one turn of
    the loop of [index], and [loop_world] the world after the loop; both
    are shared with Interleave.v, which splits the sync into its atomic
    operations.  The section Witnesses runs them on
    [demo_world] (a remote with three documents), [scenario_world] (the
    caches of the spec's scenarios) and [corrupt_world]. *)

From Stdlib Require Import Ascii String List Bool Arith ZArith QArith Lia.
From stdpp Require Import base gmap strings.
From S2P Require Import Prelude PyStr Json JsonText Difflib StableSort Ranking CacheStore.
Import ListNotations.
Local Open Scope py_scope.

Inductive http_response : Type :=
| HttpBody (body : pystr)   (** a response; [r.json()] parses its body *)
| HttpDown.                 (** [requests.get] raises [ConnectionError] *)

Record world : Type := {
  w_fs : gmap pystr node;
  w_trace : list event;
  w_http : pystr -> http_response;
}.

#[export] Instance world_fs_state : FsState world := {|
  fs_of := w_fs;
  set_fs m w := {| w_fs := m; w_trace := w_trace w; w_http := w_http w |};
  emit e w := {| w_fs := w_fs w; w_trace := w_trace w ++ [e]; w_http := w_http w |};
|}.

#[export] Instance world_fs_laws : FsStateLaws world.
Proof. split; reflexivity. Qed.

(** ** Effects *)

(** [self.logger.info(msg)] *)
Definition log_info (msg : pystr) : PyM world unit := pmodify (emit (ELog msg)).

(** [time.sleep(ms / 1000)] *)
Definition sleep (ms : nat) : PyM world unit := pmodify (emit (ESleep ms)).

(** [r = requests.get(url); r.json()] *)
Definition requests_get_json (url : pystr) : PyM world json :=
  fun w =>
    let w' := emit (EGet url) w in
    match w_http w url with
    | HttpDown => (w', Err (ConnectionError url))
    | HttpBody body =>
        match json_load body with
        | Some v => (w', Ok v)
        | None => (w', Err JSONDecodeError)
        end
    end.

Definition DEVDOCS_BASE_URL : pystr := str "https://devdocs.io".
Definition DEVDOCS_INDEX_ALL_URL : pystr := str "https://devdocs.io/docs/docs.json".
Definition DEVDOCS_DOC_ENTRIES_URL : pystr := str "https://devdocs.io/docs/%slug%/index.json".

(** [DevDocsService.get_base_url()] *)
Definition get_base_url : pystr := DEVDOCS_BASE_URL.

(** [get_index_cache_ttl()], in seconds. *)
Definition index_cache_ttl : Z := 86400%Z.

(** ** Sync *)

(** The path [fetch_doc_entries] writes for [doc]. *)
Definition entries_path (svc : service) (doc : pystr) : pystr :=
  path_join (entries_dir svc) (doc ++ str ".json").

Definition entries_url (doc : pystr) : pystr :=
  py_replace DEVDOCS_DOC_ENTRIES_URL (str "%slug%") doc.

(** [fetch_doc_entries(doc)] *)
Definition fetch_doc_entries (svc : service) (doc : json) : PyM world unit :=
  log_info (str "Fetching Docs for " ++ py_str doc ++ str " ") ;;
  d <- lift (as_str doc) ;;
  entries <- requests_get_json (entries_url d) ;;
  json_dump_file (entries_path svc d) entries.

(** The test of the comprehension of [index]: [x['slug'] in self.docs_to_fetch]. *)
Definition selected (svc : service) (x : json) : res bool :=
  let? slug := getitem x (str "slug") in py_in slug (docs_to_fetch svc).

(** The body of the loop of [index]: [fetch_doc_entries(doc['slug'])]
    then [time.sleep(0.5)]. *)
Definition index_body (svc : service) (doc : json) : PyM world unit :=
  slug <- lift (getitem doc (str "slug")) ;;
  fetch_doc_entries svc slug ;;
  sleep 500.

(** [index()] *)
Definition index (svc : service) : PyM world unit :=
  log_info (str "Start indexing documentation") ;;
  docs <- requests_get_json DEVDOCS_INDEX_ALL_URL ;;
  items <- lift (py_iter docs) ;;
  kept <- lift (filter_res (selected svc) items) ;;
  json_dump_file (index_file svc) (JList kept) ;;
  for_each kept (index_body svc) ;;
  log_info (str "Index Finished").

(** ** Search *)

(** [get_docs(query)]; [query] is [None] or a [str]. *)
Definition get_docs (svc : service) (query : option pystr) : PyM world json :=
  data <- json_load_file (index_file svc) ;;
  match query with
  | Some q =>
      if nonempty q then
        items <- lift (py_iter data) ;;
        kept <- lift (Ranking.filter_by_name q items) ;;
        pret (JList kept)
      else pret data
  | None => pret data
  end.

(** [get_doc_entries(lang_slug, query)] *)
Definition get_doc_entries (svc : service) (lang_slug query : pystr) : PyM world json :=
  let entries_file := entries_path svc lang_slug in
  ex <- os_path_exists entries_file ;;
  if negb ex then pret (JList [])
  else
    data <- json_load_file entries_file ;;
    entries <- lift (getitem data (str "entries")) ;;
    if nonempty query then
      items <- lift (py_iter entries) ;;
      ranked <- lift (Ranking.rank_entries query items) ;;
      pret (JList ranked)
    else pret entries.

(** The loop of [get_doc_by_slug]: the first document whose slug equals
    [doc_slug], [None] when there is none. *)
Fixpoint find_by_slug (doc_slug : pystr) (docs : list json) : res json :=
  match docs with
  | [] => Ok JNull
  | doc :: docs' =>
      let? s := getitem doc (str "slug") in
      if py_eq (JStr doc_slug) s then Ok doc else find_by_slug doc_slug docs'
  end.

(** [get_doc_by_slug(doc_slug)] *)
Definition get_doc_by_slug (svc : service) (doc_slug : pystr) : PyM world json :=
  data <- json_load_file (index_file svc) ;;
  items <- lift (py_iter data) ;;
  lift (find_by_slug doc_slug items).

(** ** Nothing the service does removes a file *)

Lemma grows_emit ev : grows_op (pmodify (@emit world _ ev)).
Proof. intros w q. split; auto. Qed.

Lemma grows_lift {A} (r : res A) : grows_op (St := world) (lift r).
Proof. intros w. apply grows_refl. Qed.

Lemma grows_requests_get_json url : grows_op (requests_get_json url).
Proof. intros w. unfold requests_get_json. destruct (w_http w url) as [b|]; [destruct (json_load b)|]; apply grows_emit. Qed.

Lemma grows_for_each {A} (l : list A) (body : A -> PyM world unit) :
  (forall x, grows_op (body x)) -> grows_op (for_each l body).
Proof. intros Hb. induction l as [|x l IH]; cbn [for_each]; auto with devdocs. Qed.

#[export] Hint Resolve grows_emit grows_lift grows_requests_get_json grows_for_each : devdocs.

Lemma grows_index svc : grows_op (index svc).
Proof.
  unfold index, index_body, fetch_doc_entries, log_info, sleep.
  repeat first [progress auto with devdocs | apply grows_open_w | apply grows_file_append
               | apply grows_pbind; [|intros ?] | apply grows_for_each; intros ?].
Qed.

(** ** The service writes only JSON documents *)

Lemma json_files_emit ev : rel_op json_files (pmodify (@emit world _ ev)).
Proof. intros w p c. unfold lookup_path. cbn [fst pmodify]. rewrite fs_of_emit. now left. Qed.

Lemma json_files_lift {A} (r : res A) : rel_op (S := world) json_files (lift r).
Proof. apply rel_op_lift, json_files_refl. Qed.

(** What [r.json()] returns is well formed. *)
Lemma requests_get_json_wf url : ensures (requests_get_json url) json_wf.
Proof.
  intros w w' v. unfold requests_get_json. destruct (w_http w url) as [b|]; [|discriminate].
  destruct (json_load b) eqn:E; [|discriminate]. intros [= _ <-]. exact (json_load_wf _ _ E).
Qed.

Lemma py_iter_wf x items : json_wf x -> py_iter x = Ok items -> Forall json_wf items.
Proof.
  intros Hx. destruct x; cbn; intros [= <-]; try (now apply json_wf_list);
    apply List.Forall_forall; intros y Hy; apply in_map_iff in Hy as (? & <- & _); exact I.
Qed.

Lemma json_files_requests_get_json url : rel_op json_files (requests_get_json url).
Proof.
  intros w. unfold requests_get_json.
  destruct (w_http w url) as [b|]; [destruct (json_load b)|]; apply json_files_emit.
Qed.

#[export] Hint Resolve json_files_emit json_files_lift json_files_requests_get_json : devdocs.

(** Splits a composition into its steps, each to move along [json_files]. *)
Ltac json_files_bind :=
  first [ apply rel_op_pbind; [exact json_files_trans| |intros ?]
        | eapply rel_op_pbind_ensures; [exact json_files_trans| | |intros ? ?] ].

Lemma json_files_fetch_doc_entries svc doc : rel_op json_files (fetch_doc_entries svc doc).
Proof.
  unfold fetch_doc_entries, log_info.
  do 2 (json_files_bind; [auto with devdocs|]).
  eapply rel_op_pbind_ensures; [exact json_files_trans|auto with devdocs|apply requests_get_json_wf|].
  intros v Hv. exact (json_files_json_dump_file _ _ Hv).
Qed.

Lemma json_files_index_body svc doc : rel_op json_files (index_body svc doc).
Proof.
  unfold index_body, sleep.
  repeat first [progress auto with devdocs | apply json_files_fetch_doc_entries | json_files_bind].
Qed.

Lemma json_files_index svc : rel_op json_files (index svc).
Proof.
  unfold index, log_info. json_files_bind; [auto with devdocs|].
  eapply rel_op_pbind_ensures;
    [exact json_files_trans|auto with devdocs|apply requests_get_json_wf|intros docs Hd].
  eapply rel_op_pbind_ensures; [exact json_files_trans|auto with devdocs|..].
  { apply ensures_lift. intros xs. exact (py_iter_wf _ xs Hd). }
  intros items Hi.
  eapply rel_op_pbind_ensures; [exact json_files_trans|auto with devdocs|..].
  { apply ensures_lift. intros xs. exact (filter_res_Forall _ _ _ xs Hi). }
  intros kept Hk.
  json_files_bind; [now apply json_files_json_dump_file, json_wf_list|].
  json_files_bind; [|auto with devdocs].
  apply (rel_op_for_each _ json_files_refl json_files_trans _ _ (fun _ => True)).
  - apply List.Forall_forall. trivial.
  - intros x _. apply json_files_index_body.
Qed.

(** ** Lemmas on the effects *)

(** The service of [DevDocsService(logger, dir)] after [set_docs_to_fetch(sel)]. *)
Definition svc_of (dir : pystr) (sel : json) : service :=
  set_docs_to_fetch (make_service dir) sel.

Definition slug_of (x : json) : pystr :=
  match getitem x (str "slug") with Ok (JStr s) => s | _ => [] end.

(** The effects of one [fetch_doc_entries(slug)] that succeeds. *)
Definition fetch_events (svc : service) (s : pystr) : list event :=
  [ELog (str "Fetching Docs for " ++ s ++ str " "); EGet (entries_url s); EWrite (entries_path svc s)].

Lemma json_dump_file_world p v (w : world) :
  lookup_path p w <> Some NDir -> parent_error p w = None ->
  json_dump_file p v w =
  ({| w_fs := <[p := NFile (json_dump v)]> (w_fs w); w_trace := w_trace w ++ [EWrite p];
      w_http := w_http w |}, Ok tt).
Proof.
  intros Hd Hp. unfold json_dump_file, pbind, open_w.
  destruct (lookup_path p w) as [[|c]|]; [congruence| |]; rewrite Hp;
    unfold file_append, lookup_path; cbn; rewrite lookup_insert_eq; cbn;
    now rewrite insert_insert_eq.
Qed.

Lemma plain_name_json s : existsb is_slash s = false -> plain_name (s ++ str ".json") = true.
Proof.
  intros Hs. unfold plain_name. rewrite existsb_app, Hs.
  destruct s; reflexivity.
Qed.

Lemma parent_error_plain d n (w : world) :
  plain_dir d = true -> plain_name n = true -> lookup_path d w = Some NDir ->
  parent_error (path_join d n) w = None.
Proof.
  intros Hd Hn Hl. unfold parent_error. rewrite path_dirname_join by assumption.
  destruct d as [|c d]; [discriminate|]. now rewrite Hl.
Qed.

Lemma plain_entries_dir dir : plain_dir dir = true -> plain_dir (path_join dir (str "entries")) = true.
Proof. intros Hd. apply plain_dir_join; [exact Hd|reflexivity]. Qed.

(** One [fetch_doc_entries(slug)] whose request succeeds writes the
    entries file and nothing else. *)
Lemma fetch_doc_entries_Ok svc s v (w : world) :
  (exists b, w_http w (entries_url s) = HttpBody b /\ json_load b = Some v) ->
  lookup_path (entries_path svc s) w <> Some NDir ->
  parent_error (entries_path svc s) w = None ->
  fetch_doc_entries svc (JStr s) w =
  ({| w_fs := <[entries_path svc s := NFile (json_dump v)]> (w_fs w);
      w_trace := w_trace w ++ fetch_events svc s; w_http := w_http w |}, Ok tt).
Proof.
  intros [b [Hb Hv]] Hd Hp. unfold fetch_doc_entries, pbind, log_info, pmodify, lift, as_str.
  cbn [py_str]. unfold requests_get_json. cbn [w_http emit world_fs_state]. rewrite Hb, Hv.
  rewrite json_dump_file_world by assumption. cbn. now rewrite <- !app_assoc.
Qed.

Lemma lookup_insert_file_not_dir (m : gmap pystr node) p c q :
  m !! q <> Some NDir -> <[p := NFile c]> m !! q <> Some NDir.
Proof.
  intros H. destruct (decide (p = q)) as [->|Hne].
  - now rewrite lookup_insert_eq.
  - now rewrite lookup_insert_ne.
Qed.

Lemma path_join_neq d n : plain_dir d = true -> plain_name n = true -> path_join d n <> d.
Proof.
  intros Hd Hn E. rewrite path_join_plain in E by assumption.
  apply (f_equal (@length ascii)) in E. rewrite length_app in E. simpl in E. lia.
Qed.

(** What the remote answers for the entries of [s]: a body that parses
    to [ent s]. *)
Definition fetch_ok (http : pystr -> http_response) (ent : pystr -> json) (s : pystr) : Prop :=
  exists b, http (entries_url s) = HttpBody b /\ json_load b = Some (ent s).

(** The files the loop of [index] writes, in order. *)
Definition write_entries (svc : service) (ent : pystr -> json) (kept : list json)
    (m : gmap pystr node) : gmap pystr node :=
  fold_left (fun m x => <[entries_path svc (slug_of x) := NFile (json_dump (ent (slug_of x)))]> m) kept m.

Definition loop_events (svc : service) (kept : list json) : list event :=
  flat_map (fun x => fetch_events svc (slug_of x) ++ [ESleep 500]) kept.

(** A kept document the loop can fetch: its slug is a [str] without a
    slash, the remote answers for it, and its entries path is not a
    directory. *)
Definition loop_ok (svc : service) (w : world) (ent : pystr -> json) (x : json) : Prop :=
  getitem x (str "slug") = Ok (JStr (slug_of x)) /\ existsb is_slash (slug_of x) = false /\
  fetch_ok (w_http w) ent (slug_of x) /\ lookup_path (entries_path svc (slug_of x)) w <> Some NDir.


(** The world after one turn of the loop of [index] on [x]. *)
Definition body_world (svc : service) (ent : pystr -> json) (x : json) (w : world) : world :=
  {| w_fs := <[entries_path svc (slug_of x) := NFile (json_dump (ent (slug_of x)))]> (w_fs w);
     w_trace := w_trace w ++ fetch_events svc (slug_of x) ++ [ESleep 500]; w_http := w_http w |}.

(** One turn of the loop: [fetch_doc_entries(doc['slug'])], then the sleep. *)
Lemma index_body_Ok svc ent x (w : world) :
  plain_dir (entries_dir svc) = true -> lookup_path (entries_dir svc) w = Some NDir -> loop_ok svc w ent x ->
  index_body svc x w = (body_world svc ent x w, Ok tt).
Proof.
  intros Hd Hdir (Hs & Hsl & Hf & Hnd).
  assert (Hn : plain_name (slug_of x ++ str ".json") = true) by now apply plain_name_json.
  unfold index_body, pbind at 1, lift. rewrite Hs.
  unfold pbind at 1. rewrite (fetch_doc_entries_Ok svc (slug_of x) (ent (slug_of x)))
    by first [exact Hf | exact Hnd | unfold entries_path; now apply parent_error_plain].
  unfold sleep, pmodify, body_world. cbn. now rewrite <- app_assoc.
Qed.

(** A turn keeps the entries directory and what the other turns need. *)
Lemma body_world_ready svc ent x y (w : world) :
  plain_dir (entries_dir svc) = true -> existsb is_slash (slug_of x) = false ->
  lookup_path (entries_dir svc) w = Some NDir -> loop_ok svc w ent y ->
  lookup_path (entries_dir svc) (body_world svc ent x w) = Some NDir /\ loop_ok svc (body_world svc ent x w) ent y.
Proof.
  intros Hd Hsl Hdir (Hy1 & Hy2 & Hy3 & Hy4). unfold lookup_path, body_world. cbn [fs_of world_fs_state w_fs w_http].
  split; [rewrite lookup_insert_ne; [exact Hdir|]|repeat split; auto; now apply lookup_insert_file_not_dir].
  unfold entries_path. apply path_join_neq; [exact Hd|now apply plain_name_json].
Qed.

(** The loop [for doc in kept: body(doc)] for any body that does what one
    turn of [index]'s loop does: the explicit world after all turns. *)
Lemma loop_world svc ent (body : json -> PyM world unit) kept (w : world) :
  plain_dir (entries_dir svc) = true ->
  (forall x w, lookup_path (entries_dir svc) w = Some NDir -> loop_ok svc w ent x ->
     body x w = (body_world svc ent x w, Ok tt)) ->
  lookup_path (entries_dir svc) w = Some NDir -> Forall (loop_ok svc w ent) kept ->
  for_each kept body w =
  ({| w_fs := write_entries svc ent kept (w_fs w); w_trace := w_trace w ++ loop_events svc kept;
      w_http := w_http w |}, Ok tt).
Proof.
  intros Hd Hb. revert w. induction kept as [|x kept IH]; intros w Hdir Hk.
  { destruct w; cbn. now rewrite app_nil_r. }
  inversion Hk as [|? ? Hx Hk']; subst. cbn [for_each]. unfold pbind at 1. rewrite (Hb x w Hdir Hx).
  assert (Hr : lookup_path (entries_dir svc) (body_world svc ent x w) = Some NDir /\
               Forall (loop_ok svc (body_world svc ent x w) ent) kept).
  { split; [exact (proj1 (body_world_ready svc ent x x w Hd (proj1 (proj2 Hx)) Hdir Hx))|].
    refine (Forall_impl _ _ _ Hk' _). intros y Hy.
    exact (proj2 (body_world_ready svc ent x y w Hd (proj1 (proj2 Hx)) Hdir Hy)). }
  rewrite (IH _ (proj1 Hr) (proj2 Hr)). unfold body_world. cbn [w_fs w_trace w_http].
  f_equal. f_equal. unfold loop_events. cbn [flat_map]. now rewrite <- !app_assoc.
Qed.

(** The loop of [index] when every fetch succeeds. *)
Lemma index_loop_Ok svc ent kept (w : world) :
  plain_dir (entries_dir svc) = true -> lookup_path (entries_dir svc) w = Some NDir ->
  Forall (loop_ok svc w ent) kept ->
  for_each kept (index_body svc) w =
  ({| w_fs := write_entries svc ent kept (w_fs w); w_trace := w_trace w ++ loop_events svc kept;
      w_http := w_http w |}, Ok tt).
Proof. intros Hd. apply loop_world; [exact Hd|]. intros x w'. now apply index_body_Ok. Qed.

(** ** Selection *)

(** A preference [docs_to_fetch] that [in] accepts on its right: a [str]
    (what Ulauncher stores), a [list] or a [dict]. *)
Definition iterable_sel (sel : json) : bool :=
  match sel with JStr _ | JList _ | JObj _ => true | _ => false end.

(** [slug in sel], as a boolean. *)
Definition sel_b (sel : json) (s : pystr) : bool :=
  match py_in (JStr s) sel with Ok b => b | Err _ => false end.

Lemma selected_Ok svc x :
  getitem x (str "slug") = Ok (JStr (slug_of x)) -> iterable_sel (docs_to_fetch svc) = true ->
  selected svc x = Ok (sel_b (docs_to_fetch svc) (slug_of x)).
Proof.
  intros Hs Hi. unfold selected, sel_b. rewrite Hs. simpl.
  destruct (docs_to_fetch svc); try discriminate; reflexivity.
Qed.

(** The documents [index] keeps. *)
Definition kept_docs (sel : json) (docs : list json) : list json :=
  List.filter (fun x => sel_b sel (slug_of x)) docs.

(** The effects of an [index()] that succeeds. *)
Definition index_events (svc : service) (kept : list json) : list event :=
  [ELog (str "Start indexing documentation"); EGet DEVDOCS_INDEX_ALL_URL; EWrite (index_file svc)] ++
  loop_events svc kept ++ [ELog (str "Index Finished")].

Lemma index_file_neq_entries_dir dir :
  plain_dir dir = true -> index_file (make_service dir) <> entries_dir (make_service dir).
Proof.
  intros Hd. cbn [index_file entries_dir make_service].
  rewrite !path_join_plain by (try exact Hd; reflexivity).
  intros E. apply app_inv_head in E. discriminate.
Qed.

(** The first steps of [index()]: the start log, the request for the index
    of all documentation and its parse. *)
Lemma index_prefix svc (w : world) :
  index svc w =
  pbind (requests_get_json DEVDOCS_INDEX_ALL_URL) (fun docs =>
    items <- lift (py_iter docs) ;;
    kept <- lift (filter_res (selected svc) items) ;;
    json_dump_file (index_file svc) (JList kept) ;;
    for_each kept (index_body svc) ;;
    log_info (str "Index Finished"))
    (emit (ELog (str "Start indexing documentation")) w).
Proof. reflexivity. Qed.

Lemma requests_get_json_Ok url v (w : world) :
  (exists b, w_http w url = HttpBody b /\ json_load b = Some v) ->
  requests_get_json url w = (emit (EGet url) w, Ok v).
Proof. intros [b [Hb Hv]]. unfold requests_get_json. now rewrite Hb, Hv. Qed.

Lemma requests_get_json_down url (w : world) :
  w_http w url = HttpDown -> requests_get_json url w = (emit (EGet url) w, Err (ConnectionError url)).
Proof. intros Hb. unfold requests_get_json. now rewrite Hb. Qed.

(** The world after [index()] wrote [index.json]. *)
Definition index_world (svc : service) (kept : list json) (w : world) : world :=
  {| w_fs := <[index_file svc := NFile (json_dump (JList kept))]> (w_fs w);
     w_trace := w_trace w ++ [ELog (str "Start indexing documentation"); EGet DEVDOCS_INDEX_ALL_URL;
                              EWrite (index_file svc)];
     w_http := w_http w |}.

(** The hypotheses of a sync on a well-formed cache: the cache directory
    and [entries] exist, [index.json] is not a directory, the remote
    answers [docs.json] with a list of documents each with a [str] slug. *)
Definition sync_ready (dir : pystr) (sel : json) (docs : list json) (w : world) : Prop :=
  plain_dir dir = true /\ iterable_sel sel = true /\
  lookup_path dir w = Some NDir /\
  lookup_path (index_file (svc_of dir sel)) w <> Some NDir /\
  lookup_path (entries_dir (svc_of dir sel)) w = Some NDir /\
  (exists b, w_http w DEVDOCS_INDEX_ALL_URL = HttpBody b /\ json_load b = Some (JList docs)) /\
  Forall (fun x => getitem x (str "slug") = Ok (JStr (slug_of x))) docs.

(** A kept document whose fetch succeeds. *)
Definition fetchable (svc : service) (ent : pystr -> json) (w : world) (x : json) : Prop :=
  existsb is_slash (slug_of x) = false /\ fetch_ok (w_http w) ent (slug_of x) /\
  lookup_path (entries_path svc (slug_of x)) w <> Some NDir.

(** [index()] up to the loop: it wrote [index.json] with the kept documents. *)
Lemma index_written dir sel docs (w : world) :
  sync_ready dir sel docs w ->
  index (svc_of dir sel) w =
  pbind (for_each (kept_docs sel docs) (index_body (svc_of dir sel)))
        (fun _ => log_info (str "Index Finished"))
        (index_world (svc_of dir sel) (kept_docs sel docs) w).
Proof.
  intros (Hd & Hsel & Hcd & Hix & Hed & Hget & Hslug).
  rewrite index_prefix.
  rewrite (pbind_Ok _ _ _ _ _ (requests_get_json_Ok DEVDOCS_INDEX_ALL_URL (JList docs)
    (@emit _ world_fs_state (ELog (str "Start indexing documentation")) w) Hget)).
  cbv beta. rewrite (pbind_lift_Ok _ docs) by reflexivity.
  rewrite (pbind_lift_Ok _ (kept_docs sel docs)).
  2: { apply filter_res_total. intros x Hx. apply selected_Ok; [|exact Hsel].
       exact (proj1 (List.Forall_forall _ _) Hslug x Hx). }
  cbv beta. erewrite pbind_Ok; [reflexivity|].
  rewrite json_dump_file_world; [unfold index_world; cbn; now rewrite <- !app_assoc|exact Hix|].
  cbn [svc_of set_docs_to_fetch make_service index_file]. now apply parent_error_plain.
Qed.

(** After [index.json] is written, [entries] is still a directory and
    every fetchable document can still be fetched. *)
Lemma index_world_ready dir sel docs ent l (w : world) :
  sync_ready dir sel docs w ->
  Forall (fun x => In x docs /\ fetchable (svc_of dir sel) ent w x) l ->
  lookup_path (entries_dir (svc_of dir sel)) (index_world (svc_of dir sel) (kept_docs sel docs) w) = Some NDir /\
  Forall (loop_ok (svc_of dir sel) (index_world (svc_of dir sel) (kept_docs sel docs) w) ent) l.
Proof.
  intros (Hd & Hsel & Hcd & Hix & Hed & Hget & Hslug) Hl. split.
  - unfold lookup_path. cbn [w_fs fs_of world_fs_state index_world].
    rewrite lookup_insert_ne; [exact Hed|]. now apply index_file_neq_entries_dir.
  - refine (Forall_impl _ _ _ Hl _). intros x [Hx [Hs [Hf Hnd]]].
    split; [exact (proj1 (List.Forall_forall _ _) Hslug x Hx)|].
    split; [exact Hs|split; [exact Hf|]]. now apply lookup_insert_file_not_dir.
Qed.

Lemma kept_docs_in sel docs ent svc (w : world) :
  Forall (fetchable svc ent w) (kept_docs sel docs) ->
  Forall (fun x => In x docs /\ fetchable svc ent w x) (kept_docs sel docs).
Proof.
  intros Hk. apply List.Forall_forall. intros x Hx. split.
  - now apply filter_In in Hx as [Hx _].
  - exact (proj1 (List.Forall_forall _ _) Hk x Hx).
Qed.

(** The run of a sync that succeeds. *)
Lemma index_success dir sel docs ent (w : world) :
  sync_ready dir sel docs w ->
  Forall (fetchable (svc_of dir sel) ent w) (kept_docs sel docs) ->
  index (svc_of dir sel) w =
  ({| w_fs := write_entries (svc_of dir sel) ent (kept_docs sel docs)
                (<[index_file (svc_of dir sel) := NFile (json_dump (JList (kept_docs sel docs)))]> (w_fs w));
      w_trace := w_trace w ++ index_events (svc_of dir sel) (kept_docs sel docs);
      w_http := w_http w |}, Ok tt).
Proof.
  intros Hr Hk. rewrite (index_written _ _ _ _ Hr).
  destruct (index_world_ready _ _ _ _ _ _ Hr (kept_docs_in _ _ _ _ _ Hk)) as [Hed Hl].
  rewrite (pbind_Ok _ _ _ _ _ (index_loop_Ok (svc_of dir sel) ent _ _ (plain_entries_dir _ (proj1 Hr)) Hed Hl)).
  unfold log_info, pmodify. cbn. unfold index_events. now rewrite <- !app_assoc.
Qed.

(** (C1) A sync that succeeds: [index()] writes [index.json] with the kept
    documents, in the order of [docs.json], then one entries file per kept
    document, and the trace is the log, the requests, the writes and the
    sleeps in program order.  A document is kept when its slug is
    [in self.docs_to_fetch]. *)
Theorem index_Ok dir sel docs ent (w : world) :
  sync_ready dir sel docs w ->
  Forall (fetchable (svc_of dir sel) ent w) (kept_docs sel docs) ->
  index (svc_of dir sel) w =
  ({| w_fs := write_entries (svc_of dir sel) ent (kept_docs sel docs)
                (<[index_file (svc_of dir sel) := NFile (json_dump (JList (kept_docs sel docs)))]> (w_fs w));
      w_trace := w_trace w ++ index_events (svc_of dir sel) (kept_docs sel docs);
      w_http := w_http w |}, Ok tt).
Proof. exact (index_success dir sel docs ent w). Qed.

(** ** Syncs that fail *)

Lemma fetch_doc_entries_down svc s (w : world) :
  w_http w (entries_url s) = HttpDown ->
  fetch_doc_entries svc (JStr s) w =
  ({| w_fs := w_fs w; w_trace := w_trace w ++ [ELog (str "Fetching Docs for " ++ s ++ str " ");
                                              EGet (entries_url s)];
      w_http := w_http w |}, Err (ConnectionError (entries_url s))).
Proof.
  intros Hb. unfold fetch_doc_entries, pbind, log_info, pmodify, lift, as_str.
  cbn [py_str]. unfold requests_get_json. cbn [w_http emit world_fs_state]. rewrite Hb.
  cbn. now rewrite <- app_assoc.
Qed.

(** The loop of [index] when the fetch of a kept document fails after
    the fetches of the documents before it succeeded: the entries of
    those are written, the loop stops with the exception. *)
Lemma index_loop_down svc ent pre x rest (w : world) :
  plain_dir (entries_dir svc) = true -> lookup_path (entries_dir svc) w = Some NDir ->
  Forall (loop_ok svc w ent) pre ->
  getitem x (str "slug") = Ok (JStr (slug_of x)) ->
  w_http w (entries_url (slug_of x)) = HttpDown ->
  for_each (pre ++ x :: rest) (index_body svc) w =
  ({| w_fs := write_entries svc ent pre (w_fs w);
      w_trace := w_trace w ++ loop_events svc pre ++
                 [ELog (str "Fetching Docs for " ++ slug_of x ++ str " "); EGet (entries_url (slug_of x))];
      w_http := w_http w |}, Err (ConnectionError (entries_url (slug_of x)))).
Proof.
  intros Hd Hdir Hpre Hs Hb. rewrite for_each_app.
  rewrite (pbind_Ok _ _ _ _ _ (index_loop_Ok _ _ _ _ Hd Hdir Hpre)). cbn [for_each].
  unfold pbind at 1, index_body. rewrite (pbind_lift_Ok _ _ _ _ Hs).
  unfold pbind at 1. rewrite fetch_doc_entries_down by exact Hb.
  cbn. now rewrite <- app_assoc.
Qed.

(** (C2) When the remote does not answer the request for the index of all
    documentation, [index()] raises [ConnectionError] and the cache is
    left as it was: nothing is written before that request succeeds. *)
Theorem index_down svc (w : world) :
  w_http w DEVDOCS_INDEX_ALL_URL = HttpDown ->
  index svc w =
  ({| w_fs := w_fs w;
      w_trace := w_trace w ++ [ELog (str "Start indexing documentation"); EGet DEVDOCS_INDEX_ALL_URL];
      w_http := w_http w |}, Err (ConnectionError DEVDOCS_INDEX_ALL_URL)).
Proof.
  intros Hb. rewrite index_prefix.
  rewrite (pbind_Err _ _ _ _ _ (requests_get_json_down DEVDOCS_INDEX_ALL_URL
    (@emit _ world_fs_state (ELog (str "Start indexing documentation")) w) Hb)).
  cbn. now rewrite <- app_assoc.
Qed.

(** (C3) A sync that fails part-way: when the fetch of the entries of a
    kept document fails, [index()] raises [ConnectionError], but
    [index.json] has already been replaced by the new list of kept
    documents, and only the entries of the documents before the failing
    one were written.  The cache is left listing a document whose entries
    file was not refreshed. *)
Theorem index_partial dir sel docs ent pre x rest (w : world) :
  sync_ready dir sel docs w ->
  kept_docs sel docs = pre ++ x :: rest ->
  Forall (fetchable (svc_of dir sel) ent w) pre ->
  w_http w (entries_url (slug_of x)) = HttpDown ->
  index (svc_of dir sel) w =
  ({| w_fs := write_entries (svc_of dir sel) ent pre
                (<[index_file (svc_of dir sel) := NFile (json_dump (JList (pre ++ x :: rest)))]> (w_fs w));
      w_trace := w_trace w ++
                 [ELog (str "Start indexing documentation"); EGet DEVDOCS_INDEX_ALL_URL;
                  EWrite (index_file (svc_of dir sel))] ++ loop_events (svc_of dir sel) pre ++
                 [ELog (str "Fetching Docs for " ++ slug_of x ++ str " "); EGet (entries_url (slug_of x))];
      w_http := w_http w |}, Err (ConnectionError (entries_url (slug_of x)))).
Proof.
  intros Hr Hkept Hpre Hb. rewrite (index_written _ _ _ _ Hr).
  assert (Hin : forall y, In y (pre ++ x :: rest) -> In y docs).
  { intros y Hy. rewrite <- Hkept in Hy. now apply filter_In in Hy as [Hy _]. }
  assert (Hpre' : Forall (fun y => In y docs /\ fetchable (svc_of dir sel) ent w y) pre).
  { apply List.Forall_forall. intros y Hy. split; [apply Hin, in_or_app; now left|].
    exact (proj1 (List.Forall_forall _ _) Hpre y Hy). }
  destruct (index_world_ready _ _ _ _ _ _ Hr Hpre') as [Hed Hl].
  destruct Hr as (Hd & _ & _ & _ & _ & _ & Hslug).
  rewrite Hkept in *.
  rewrite (pbind_Err _ _ _ _ _ (index_loop_down (svc_of dir sel) ent pre x rest _
    (plain_entries_dir _ Hd) Hed Hl
    (proj1 (List.Forall_forall _ _) Hslug x (Hin x (in_elt x pre rest))) Hb)).
  cbn. now rewrite <- !app_assoc.
Qed.


(** ** A concrete sync

    A cache at [/c] with its [entries] directory, and a remote whose
    [docs.json] lists [javascript], [java] and [python] and whose entries
    files are [{"entries": []}]. *)
Definition doc_json (slug : string) : json :=
  JObj [(str "slug", JStr (str slug)); (str "name", JStr (str slug))].

Definition demo_world : world := {|
  w_fs := <[str "/c/entries" := NDir]> (<[str "/c" := NDir]> ∅);
  w_trace := [];
  w_http := fun url =>
    if pystr_eqb url DEVDOCS_INDEX_ALL_URL
    then HttpBody (json_dump (JList [doc_json "javascript"; doc_json "java"; doc_json "python"]))
    else HttpBody (json_dump (JObj [(str "entries", JList [])]))
|}.

(** ** Queries *)

(** An operation that leaves the world as it found it, whatever it
    returns. *)
Definition read_only {A} (m : PyM world A) : Prop := forall w, fst (m w) = w.

Lemma read_only_pret {A} (a : A) : read_only (pret a).
Proof. intros w. reflexivity. Qed.

Lemma read_only_lift {A} (r : res A) : read_only (lift r).
Proof. intros w. reflexivity. Qed.

Lemma read_only_pbind {A B} (m : PyM world A) (k : A -> PyM world B) :
  read_only m -> (forall a, read_only (k a)) -> read_only (pbind m k).
Proof.
  intros Hm Hk w. unfold pbind. specialize (Hm w).
  destruct (m w) as [w' [a|e]]; cbn in Hm; subst; [apply Hk|reflexivity].
Qed.

Lemma read_only_json_load_file p : read_only (json_load_file p).
Proof. intros w. unfold json_load_file. destruct (lookup_path p w) as [[|c]|]; try reflexivity. now destruct (json_load c). Qed.

Lemma read_only_os_path_exists p : read_only (os_path_exists p).
Proof. intros w. reflexivity. Qed.

#[export] Hint Resolve read_only_pret read_only_lift read_only_json_load_file read_only_os_path_exists : devdocs.

(** Proves [read_only] of a composition of reads. *)
Ltac read_only_steps :=
  repeat first
    [ progress auto with devdocs
    | apply read_only_pbind; [|intros ?]
    | match goal with
      | |- read_only (match ?x with _ => _ end) => destruct x
      | |- read_only (if ?b then _ else _) => destruct b
      end ].

(** The first document of [docs] whose slug is [doc_slug]. *)
Definition first_by_slug (doc_slug : pystr) (docs : list json) : json :=
  match List.find (fun x => pystr_eqb doc_slug (slug_of x)) docs with Some d => d | None => JNull end.

(** The value [get_docs] returns on a stored list of documents. *)
Definition docs_result (query : option pystr) (items : list json) : list json :=
  match query with
  | Some q => if nonempty q then List.filter (Ranking.matches q) items else items
  | None => items
  end.

Lemma find_by_slug_spec doc_slug docs :
  Forall (fun x => getitem x (str "slug") = Ok (JStr (slug_of x))) docs ->
  find_by_slug doc_slug docs = Ok (first_by_slug doc_slug docs).
Proof.
  unfold first_by_slug. induction 1 as [|x docs Hx _ IH]; [reflexivity|].
  cbn [find_by_slug List.find]. rewrite Hx. cbn [rbind py_eq].
  now destruct (pystr_eqb doc_slug (slug_of x)).
Qed.

Lemma read_only_get_docs svc query : read_only (get_docs svc query).
Proof. unfold get_docs. read_only_steps. Qed.

Lemma read_only_get_doc_entries svc lang_slug q : read_only (get_doc_entries svc lang_slug q).
Proof. unfold get_doc_entries. read_only_steps. Qed.

Lemma read_only_get_doc_by_slug svc doc_slug : read_only (get_doc_by_slug svc doc_slug).
Proof. unfold get_doc_by_slug. read_only_steps. Qed.

#[export] Hint Resolve read_only_get_docs read_only_get_doc_entries read_only_get_doc_by_slug : devdocs.

(** (C9) The queries only read: [get_docs], [get_doc_entries] and
    [get_doc_by_slug] leave the cache and the trace as they found them,
    whether they return or raise. *)
Theorem queries_read_only svc query lang_slug q doc_slug :
  read_only (get_docs svc query) /\ read_only (get_doc_entries svc lang_slug q) /\
  read_only (get_doc_by_slug svc doc_slug).
Proof. repeat split; auto with devdocs. Qed.

(** [get_docs] on a stored index. *)
Lemma get_docs_stored svc query items (w : world) :
  lookup_path (index_file svc) w = Some (NFile (json_dump (JList items))) ->
  json_wf (JList items) -> Forall (fun x => Ranking.named x (Ranking.name_of x)) items ->
  get_docs svc query w = (w, Ok (JList (docs_result query items))).
Proof.
  intros Hp Hwf Hn. unfold get_docs.
  rewrite (pbind_Ok _ _ _ _ _ (json_load_file_stored _ _ _ Hp Hwf)).
  destruct query as [q|]; [|reflexivity]. cbn [docs_result].
  destruct (nonempty q); [|reflexivity].
  rewrite (pbind_lift_Ok _ items) by reflexivity.
  now rewrite (pbind_lift_Ok _ _ _ _ (Ranking.filter_by_name_spec q items Hn)).
Qed.

(** (C5) [get_docs(query)] on an [index.json] that holds a list of
    documents with [str] names: without a query, or with the empty one,
    it returns the stored list; with a query, the documents whose name
    contains the stripped query, ignoring case, in stored order. *)
Theorem get_docs_spec svc query items (w : world) :
  lookup_path (index_file svc) w = Some (NFile (json_dump (JList items))) ->
  json_wf (JList items) -> Forall (fun x => Ranking.named x (Ranking.name_of x)) items ->
  get_docs svc query w = (w, Ok (JList (docs_result query items))).
Proof. exact (get_docs_stored svc query items w). Qed.

(** (C7) [get_doc_entries(slug, query)] for a slug that was never fetched
    returns [[]]. *)
Theorem get_doc_entries_missing svc lang_slug q (w : world) :
  lookup_path (entries_path svc lang_slug) w = None ->
  get_doc_entries svc lang_slug q w = (w, Ok (JList [])).
Proof. intros Hp. unfold get_doc_entries, pbind, os_path_exists. now rewrite Hp. Qed.

(** [get_doc_entries] on a stored entries file. *)
Lemma get_doc_entries_stored svc lang_slug q data items (w : world) :
  lookup_path (entries_path svc lang_slug) w = Some (NFile (json_dump data)) -> json_wf data ->
  getitem data (str "entries") = Ok (JList items) ->
  Forall (fun x => Ranking.named x (Ranking.name_of x)) items ->
  get_doc_entries svc lang_slug q w =
  (w, Ok (JList (if nonempty q
                 then sort_desc (Ranking.score q) Ranking.qle (List.filter (Ranking.matches q) items)
                 else items))).
Proof.
  intros Hp Hwf He Hn. unfold get_doc_entries.
  rewrite (pbind_Ok _ _ _ _ true) by (unfold os_path_exists; now rewrite Hp).
  cbn [negb]. rewrite (pbind_Ok _ _ _ _ _ (json_load_file_stored _ _ _ Hp Hwf)).
  rewrite (pbind_lift_Ok _ _ _ _ He).
  destruct (nonempty q); [|reflexivity].
  rewrite (pbind_lift_Ok _ items) by reflexivity.
  now rewrite (pbind_lift_Ok _ _ _ _ (Ranking.rank_entries_spec q items Hn)).
Qed.

(** (C6) [get_doc_entries(slug, query)] on an entries file that holds
    [{"entries": items}], every item with a [str] name: with the empty
    query it returns the stored entries; otherwise it returns the entries
    whose name contains the stripped query ignoring case, stably sorted
    by descending [difflib] ratio against the query. *)
Theorem get_doc_entries_spec svc lang_slug q data items (w : world) :
  lookup_path (entries_path svc lang_slug) w = Some (NFile (json_dump data)) -> json_wf data ->
  getitem data (str "entries") = Ok (JList items) ->
  Forall (fun x => Ranking.named x (Ranking.name_of x)) items ->
  get_doc_entries svc lang_slug q w =
  (w, Ok (JList (if nonempty q
                 then sort_desc (Ranking.score q) Ranking.qle (List.filter (Ranking.matches q) items)
                 else items))).
Proof. exact (get_doc_entries_stored svc lang_slug q data items w). Qed.

(** [get_doc_by_slug] on a stored index. *)
Lemma get_doc_by_slug_stored svc doc_slug docs (w : world) :
  lookup_path (index_file svc) w = Some (NFile (json_dump (JList docs))) -> json_wf (JList docs) ->
  Forall (fun x => getitem x (str "slug") = Ok (JStr (slug_of x))) docs ->
  get_doc_by_slug svc doc_slug w = (w, Ok (first_by_slug doc_slug docs)).
Proof.
  intros Hp Hwf Hs. unfold get_doc_by_slug.
  rewrite (pbind_Ok _ _ _ _ _ (json_load_file_stored _ _ _ Hp Hwf)).
  rewrite (pbind_lift_Ok _ docs) by reflexivity.
  unfold lift. now rewrite find_by_slug_spec.
Qed.

(** (C8) [get_doc_by_slug(slug)] on an [index.json] that holds a list of
    documents with [str] slugs returns the first document whose slug
    equals [slug], and [None] when there is none. *)
Theorem get_doc_by_slug_spec svc doc_slug docs (w : world) :
  lookup_path (index_file svc) w = Some (NFile (json_dump (JList docs))) -> json_wf (JList docs) ->
  Forall (fun x => getitem x (str "slug") = Ok (JStr (slug_of x))) docs ->
  get_doc_by_slug svc doc_slug w = (w, Ok (first_by_slug doc_slug docs)).
Proof. exact (get_doc_by_slug_stored svc doc_slug docs w). Qed.

Lemma lookup_write_entries_ne svc ent kept m q :
  Forall (fun x => entries_path svc (slug_of x) <> q) kept ->
  write_entries svc ent kept m !! q = m !! q.
Proof.
  revert m. induction kept as [|x kept IH]; intros m Hk; [reflexivity|].
  inversion Hk as [|? ? Hx Hk']; subst. cbn [write_entries fold_left].
  unfold write_entries in IH. rewrite IH by exact Hk'. now apply lookup_insert_ne.
Qed.

Lemma entries_path_neq_index_file dir sel s :
  plain_dir dir = true -> existsb is_slash s = false ->
  entries_path (svc_of dir sel) s <> index_file (svc_of dir sel).
Proof.
  intros Hd Hs. unfold entries_path. cbn [svc_of set_docs_to_fetch make_service index_file entries_dir].
  rewrite (path_join_plain (path_join dir (str "entries"))) by
    (try apply plain_entries_dir; try apply plain_name_json; assumption).
  rewrite !path_join_plain by (try exact Hd; reflexivity).
  rewrite <- app_assoc. intros E. apply app_inv_head in E. discriminate.
Qed.

(** ** Which documents a sync fetches *)

Lemma sel_b_str s t : sel_b (JStr s) t = py_contains t s.
Proof. reflexivity. Qed.

Lemma entries_path_inj svc t1 t2 :
  plain_dir (entries_dir svc) = true -> existsb is_slash t1 = false -> existsb is_slash t2 = false ->
  entries_path svc t1 = entries_path svc t2 -> t1 = t2.
Proof.
  intros Hd H1 H2. unfold entries_path. rewrite !path_join_plain by auto using plain_name_json.
  intros E. apply app_inv_head in E. injection E as E. exact (app_inv_tail _ _ _ E).
Qed.

(** The entries file of the slug [t] after the loop of [index]: written
    when a kept document has that slug, untouched otherwise. *)
Lemma write_entries_lookup svc ent kept m t :
  (forall x, In x kept -> entries_path svc (slug_of x) = entries_path svc t -> slug_of x = t) ->
  write_entries svc ent kept m !! entries_path svc t =
  if existsb (fun x => pystr_eqb (slug_of x) t) kept then Some (NFile (json_dump (ent t)))
  else m !! entries_path svc t.
Proof.
  unfold write_entries. revert m. induction kept as [|x kept IH]; intros m Hinj; [reflexivity|].
  cbn [fold_left existsb]. rewrite IH by (intros y Hy; apply Hinj; now right).
  destruct (existsb _ kept); [now rewrite orb_true_r|rewrite orb_false_r].
  destruct (decide (entries_path svc (slug_of x) = entries_path svc t)) as [E|E].
  - rewrite E, (Hinj x (or_introl eq_refl) E), pystr_eqb_refl. apply lookup_insert_eq.
  - destruct (pystr_eqb_spec (slug_of x) t) as [Heq|_]; [exfalso; apply E; now rewrite Heq|]. now apply lookup_insert_ne.
Qed.

Lemma kept_has_slug s docs x :
  In x docs ->
  existsb (fun y => pystr_eqb (slug_of y) (slug_of x)) (kept_docs (JStr s) docs) = py_contains (slug_of x) s.
Proof.
  intros Hx. destruct (py_contains (slug_of x) s) eqn:E.
  - apply existsb_exists. exists x. split; [apply filter_In; now rewrite sel_b_str|apply pystr_eqb_refl].
  - apply not_true_iff_false. intros (y & Hy & Heq)%existsb_exists. apply filter_In in Hy as [_ Hy].
    destruct (pystr_eqb_spec (slug_of y) (slug_of x)) as [Hs|]; [|discriminate].
    rewrite sel_b_str, Hs, E in Hy. discriminate.
Qed.

(** (C23) [x['slug'] in self.docs_to_fetch] on the [str] preference that
    Ulauncher stores is a substring test: for every preference [s] and
    every document of [docs.json] (with a slug without a slash), a sync
    that succeeds writes the entries file of the document exactly when
    its slug occurs in [s] ([py_contains_spec]: [s = l ++ slug ++ r]),
    and leaves that path as it was otherwise.  So ["javascript"] also
    fetches ["java"] and ["script"], which the spec's "selected slugs"
    does not mean. *)
Theorem index_selects_substrings dir s docs ent (w : world) x :
  sync_ready dir (JStr s) docs w -> Forall (fetchable (svc_of dir (JStr s)) ent w) (kept_docs (JStr s) docs) ->
  In x docs -> existsb is_slash (slug_of x) = false ->
  lookup_path (entries_path (svc_of dir (JStr s)) (slug_of x)) (fst (index (svc_of dir (JStr s)) w)) =
  if py_contains (slug_of x) s then Some (NFile (json_dump (ent (slug_of x))))
  else lookup_path (entries_path (svc_of dir (JStr s)) (slug_of x)) w.
Proof.
  intros Hr Hk Hx Hsl. rewrite (index_success _ _ _ _ _ Hr Hk). unfold lookup_path. cbn [fst fs_of world_fs_state w_fs].
  rewrite write_entries_lookup.
  - rewrite kept_has_slug by exact Hx. destruct (py_contains (slug_of x) s); [reflexivity|].
    apply lookup_insert_ne. intros E. exact (entries_path_neq_index_file dir (JStr s) (slug_of x) (proj1 Hr) Hsl (eq_sym E)).
  - intros y Hy E. apply (entries_path_inj (svc_of dir (JStr s)) _ _ (plain_entries_dir _ (proj1 Hr))); [|exact Hsl|exact E].
    exact (proj1 (proj1 (List.Forall_forall _ _) Hk y Hy)).
Qed.

(** (C27) A cache file that is present but is not JSON is reported, not
    hidden (the spec's [CacheCorrupt]): [get_docs] and [get_doc_by_slug]
    on a corrupt [index.json], and [get_doc_entries] on a corrupt entries
    file, raise [JSONDecodeError] and leave the world as they found it. *)
Theorem corrupt_cache_raises svc query lang_slug q doc_slug (w : world) :
  (forall c, lookup_path (index_file svc) w = Some (NFile c) -> json_load c = None ->
   get_docs svc query w = (w, Err JSONDecodeError) /\ get_doc_by_slug svc doc_slug w = (w, Err JSONDecodeError)) /\
  (forall c, lookup_path (entries_path svc lang_slug) w = Some (NFile c) -> json_load c = None ->
   get_doc_entries svc lang_slug q w = (w, Err JSONDecodeError)).
Proof.
  split.
  - intros c Hp Hc. unfold get_docs, get_doc_by_slug.
    now rewrite !(pbind_Err _ _ _ _ _ (json_load_file_corrupt _ _ _ Hp Hc)).
  - intros c Hp Hc. unfold get_doc_entries.
    rewrite (pbind_Ok _ _ _ _ true) by (unfold os_path_exists; now rewrite Hp). cbn [negb].
    now rewrite (pbind_Err _ _ _ _ _ (json_load_file_corrupt _ _ _ Hp Hc)).
Qed.

(** After a sync that succeeds, [index.json] holds the kept documents. *)
Lemma index_stored dir sel docs ent (w : world) :
  sync_ready dir sel docs w -> Forall (fetchable (svc_of dir sel) ent w) (kept_docs sel docs) ->
  lookup_path (index_file (svc_of dir sel)) (fst (index (svc_of dir sel) w)) =
  Some (NFile (json_dump (JList (kept_docs sel docs)))).
Proof.
  intros Hr Hk. rewrite (index_success _ _ _ _ _ Hr Hk). unfold lookup_path. cbn [fst fs_of world_fs_state w_fs].
  rewrite lookup_write_entries_ne; [apply lookup_insert_eq|].
  refine (Forall_impl _ _ _ Hk _). intros x [Hs _].
  apply entries_path_neq_index_file; [exact (proj1 Hr)|exact Hs].
Qed.

Lemma write_entries_dir svc ent kept m q :
  write_entries svc ent kept m !! q = Some NDir -> m !! q = Some NDir.
Proof.
  revert m. induction kept as [|x kept IH]; intros m; [auto|]. cbn [write_entries fold_left].
  intros Hq. apply IH in Hq. destruct (decide (entries_path svc (slug_of x) = q)) as [<-|Hne].
  - now rewrite lookup_insert_eq in Hq.
  - now rewrite lookup_insert_ne in Hq.
Qed.

(** A sync that succeeds creates no directory. *)
Lemma index_no_new_dir dir sel docs ent (w : world) q :
  sync_ready dir sel docs w -> Forall (fetchable (svc_of dir sel) ent w) (kept_docs sel docs) ->
  lookup_path q (fst (index (svc_of dir sel) w)) = Some NDir -> lookup_path q w = Some NDir.
Proof.
  intros Hr Hk. rewrite (index_success _ _ _ _ _ Hr Hk). unfold lookup_path. cbn [fst fs_of world_fs_state w_fs].
  intros Hq%write_entries_dir. destruct (decide (index_file (svc_of dir sel) = q)) as [<-|Hne].
  - now rewrite lookup_insert_eq in Hq.
  - now rewrite lookup_insert_ne in Hq.
Qed.

(** A sync that succeeds leaves the cache ready for the next one: the
    same remote and the same selection succeed again on the world it
    leaves. *)
Lemma index_keeps_ready dir sel docs ent (w : world) :
  sync_ready dir sel docs w -> Forall (fetchable (svc_of dir sel) ent w) (kept_docs sel docs) ->
  let w' := fst (index (svc_of dir sel) w) in
  sync_ready dir sel docs w' /\ Forall (fetchable (svc_of dir sel) ent w') (kept_docs sel docs).
Proof.
  intros Hr Hk w'. pose proof (grows_index (svc_of dir sel) w) as G.
  assert (Hh : w_http w' = w_http w) by (unfold w'; now rewrite (index_success _ _ _ _ _ Hr Hk)).
  pose proof Hr as (Hd & Hsel & Hcd & Hix & Hed & Hget & Hslug). split.
  - repeat split; try assumption.
    + exact (grows_dir _ _ _ G Hcd).
    + unfold w'. rewrite (index_stored _ _ _ _ _ Hr Hk).
      discriminate.
    + exact (grows_dir _ _ _ G Hed).
    + now rewrite Hh.
  - refine (Forall_impl _ _ _ Hk _). intros x (Hs & Hf & Hp). unfold fetchable. rewrite Hh.
    split; [exact Hs|split; [exact Hf|]]. intros Hq. apply Hp.
    exact (index_no_new_dir _ _ _ _ _ _ Hr Hk Hq).
Qed.

(** (C4) What a sync stores is what a search finds: after an [index()]
    that succeeds, [get_docs(query)] returns the kept documents whose
    name contains the query (all of them without a query), in the order
    of [docs.json]. *)
Theorem sync_then_get_docs dir sel docs ent query (w : world) :
  sync_ready dir sel docs w ->
  Forall (fetchable (svc_of dir sel) ent w) (kept_docs sel docs) ->
  Forall json_wf docs -> Forall (fun x => Ranking.named x (Ranking.name_of x)) docs ->
  get_docs (svc_of dir sel) query (fst (index (svc_of dir sel) w)) =
  (fst (index (svc_of dir sel) w), Ok (JList (docs_result query (kept_docs sel docs)))).
Proof.
  intros Hr Hk Hwf Hn. apply get_docs_stored; [exact (index_stored _ _ _ _ _ Hr Hk)| |].
  - apply json_wf_list. unfold kept_docs. now apply Forall_list_filter.
  - unfold kept_docs. now apply Forall_list_filter.
Qed.

(** ** Witnesses

    The theorems above applied to the concrete caches of the spec's
    scenarios: [demo_world] for the syncs, [scenario_world] (an index
    with [python] and [go], the entries of [php]) for the queries. *)
(** Discharges a hypothesis about closed data: unfolds the predicates of
    the sync, splits conjunctions, fills an existential from its first
    equation, evaluates a [Forall]'s list and closes each closed leaf by
    evaluation. *)
Ltac concrete_leaf :=
  first [ reflexivity | discriminate | (vm_compute; reflexivity) | (vm_compute; discriminate)
        | (let H := fresh in intros H; vm_compute in H; discriminate)
        | (vm_compute; intuition discriminate) ].

Ltac concrete :=
  cbv delta [sync_ready fetchable fetch_ok loop_ok] beta;
  repeat first
    [ match goal with |- _ /\ _ => split end
    | match goal with |- exists _, _ /\ _ => eexists; split; [reflexivity|] end
    | match goal with |- Forall ?P ?l =>
        let l' := eval vm_compute in l in change (Forall P l'); repeat constructor end
    | match goal with |- json_wf _ => progress vm_compute end
    | match goal with |- List.NoDup _ => constructor end
    | match goal with |- True => exact I end
    | concrete_leaf ].

Definition demo_docs : list json := [doc_json "javascript"; doc_json "java"; doc_json "python"].
Definition demo_entries (s : pystr) : json := JObj [(str "entries", JList [])].

Lemma index_Ok_witness : snd (index (svc_of (str "/c") (JStr (str "javascript"))) demo_world) = Ok tt.
Proof.
  rewrite (index_Ok (str "/c") (JStr (str "javascript")) demo_docs demo_entries demo_world); [reflexivity|concrete|concrete].
Defined.

Lemma index_partial_witness :
  snd (index (svc_of (str "/c") (JStr (str "javascript")))
        {| w_fs := w_fs demo_world; w_trace := []; w_http := fun url =>
             if pystr_eqb url (entries_url (str "java")) then HttpDown else w_http demo_world url |})
  = Err (ConnectionError (entries_url (str "java"))).
Proof.
  rewrite (index_partial (str "/c") (JStr (str "javascript")) demo_docs demo_entries
             [doc_json "javascript"] (doc_json "java") []); [reflexivity|concrete|concrete|concrete|concrete].
Defined.

Lemma index_down_witness :
  snd (index (svc_of (str "/c") (JStr (str "go")))
        {| w_fs := w_fs demo_world; w_trace := []; w_http := fun _ => HttpDown |})
  = Err (ConnectionError DEVDOCS_INDEX_ALL_URL).
Proof. rewrite index_down; [reflexivity|concrete]. Defined.

Definition docset (slug name : string) : json :=
  JObj [(str "slug", JStr (str slug)); (str "name", JStr (str name))].
Definition entry_json (name : string) : json :=
  JObj [(str "name", JStr (str name)); (str "type", JStr (str "Function")); (str "path", JStr (str name))].

(** The cache of the scenarios of the spec: an index with [python] and
    [go], and the entries of [php]. *)
Definition scenario_world : world := {|
  w_fs := <[str "/c/entries/php.json" := NFile (json_dump (JObj [(str "entries",
              JList [entry_json "array_filter"; entry_json "array_map"])]))]>
          (<[str "/c/index.json" := NFile (json_dump (JList [docset "python" "Python"; docset "go" "Go"]))]>
          (<[str "/c/entries" := NDir]> (<[str "/c" := NDir]> ∅)));
  w_trace := [];
  w_http := fun _ => HttpDown
|}.

Lemma get_docs_spec_witness :
  snd (get_docs (svc_of (str "/c") (JList [])) (Some (str "py")) scenario_world) =
  Ok (JList [docset "python" "Python"]).
Proof.
  rewrite (get_docs_spec _ _ [docset "python" "Python"; docset "go" "Go"]); [reflexivity|concrete..].
Defined.

Lemma get_doc_entries_spec_witness :
  snd (get_doc_entries (svc_of (str "/c") (JList [])) (str "php") (str "array_f") scenario_world) =
  Ok (JList [entry_json "array_filter"]).
Proof.
  rewrite (get_doc_entries_spec _ _ _ (JObj [(str "entries", JList [entry_json "array_filter"; entry_json "array_map"])])
             [entry_json "array_filter"; entry_json "array_map"]); [vm_compute; reflexivity|concrete..].
Defined.

Lemma get_doc_entries_missing_witness :
  get_doc_entries (svc_of (str "/c") (JList [])) (str "go") (str "x") scenario_world = (scenario_world, Ok (JList [])).
Proof. apply get_doc_entries_missing. concrete. Defined.

Lemma get_doc_by_slug_spec_witness :
  snd (get_doc_by_slug (svc_of (str "/c") (JList [])) (str "go") scenario_world) = Ok (docset "go" "Go").
Proof.
  rewrite (get_doc_by_slug_spec _ _ [docset "python" "Python"; docset "go" "Go"]); [reflexivity|concrete..].
Defined.

Lemma sync_then_get_docs_witness :
  snd (get_docs (svc_of (str "/c") (JStr (str "javascript"))) (Some (str "java"))
        (fst (index (svc_of (str "/c") (JStr (str "javascript"))) demo_world))) =
  Ok (JList [doc_json "javascript"; doc_json "java"]).
Proof.
  rewrite (sync_then_get_docs (str "/c") (JStr (str "javascript")) demo_docs demo_entries); [reflexivity|concrete..].
Defined.

(** ** A slug that is an absolute path *)

Lemma entries_path_abs svc t : entries_path svc ("/"%char :: t) = "/"%char :: t ++ str ".json".
Proof. reflexivity. Qed.

(** (C24) The slug of a document is used as a path: for every service,
    whatever its cache directory, a [fetch_doc_entries] of a slug [/t]
    (an absolute path, as [docs.json] or a [doc:term] query may give)
    whose request succeeds writes the entries to [/t.json], because
    [os.path.join] drops [entries_dir] before an absolute component. *)
Theorem entries_path_escapes svc t v (w : world) :
  (exists b, w_http w (entries_url ("/"%char :: t)) = HttpBody b /\ json_load b = Some v) ->
  lookup_path ("/"%char :: t ++ str ".json") w <> Some NDir -> parent_error ("/"%char :: t ++ str ".json") w = None ->
  lookup_path ("/"%char :: t ++ str ".json") (fst (fetch_doc_entries svc (JStr ("/"%char :: t)) w)) =
  Some (NFile (json_dump v)).
Proof.
  intros Hb Hd Hp. rewrite <- (entries_path_abs svc t) in Hd, Hp |- *.
  rewrite (fetch_doc_entries_Ok _ _ _ _ Hb Hd Hp). unfold lookup_path. cbn [fst fs_of world_fs_state w_fs].
  apply lookup_insert_eq.
Qed.

(** A remote that lists a document with the slug ["/tmp/x"]: its entries
    land in [/tmp/x.json], not under [/c/entries]. *)
Definition escape_world : world := {|
  w_fs := <[str "/tmp" := NDir]> (w_fs demo_world); w_trace := []; w_http := w_http demo_world |}.

Lemma entries_path_escapes_witness :
  lookup_path (str "/tmp/x.json") (fst (fetch_doc_entries (svc_of (str "/c") (JStr (str "javascript"))) (JStr (str "/tmp/x")) escape_world)) =
  Some (NFile (json_dump (JObj [(str "entries", JList [])]))).
Proof.
  apply (entries_path_escapes (svc_of (str "/c") (JStr (str "javascript"))) (str "tmp/x")).
  - exists (json_dump (JObj [(str "entries", JList [])])). split; vm_compute; reflexivity.
  - vm_compute. discriminate.
  - vm_compute. reflexivity.
Defined.

Lemma index_selects_substrings_witness :
  lookup_path (entries_path (svc_of (str "/c") (JStr (str "javascript"))) (slug_of (doc_json "java")))
    (fst (index (svc_of (str "/c") (JStr (str "javascript"))) demo_world)) =
  Some (NFile (json_dump (demo_entries (slug_of (doc_json "java"))))).
Proof.
  rewrite (index_selects_substrings (str "/c") (str "javascript") demo_docs demo_entries demo_world (doc_json "java"));
    [vm_compute; reflexivity|concrete|concrete|cbn; tauto|reflexivity].
Defined.

(** A cache whose [index.json] and [entries/php.json] were cut short. *)
Definition corrupt_world : world := {|
  w_fs := <[str "/c/entries/php.json" := NFile (str "{")]> (<[str "/c/index.json" := NFile (str "[")]> ∅);
  w_trace := []; w_http := fun _ => HttpDown |}.

Lemma corrupt_cache_raises_witness :
  get_docs (svc_of (str "/c") (JList [])) None corrupt_world = (corrupt_world, Err JSONDecodeError) /\
  get_doc_entries (svc_of (str "/c") (JList [])) (str "php") (str "array") corrupt_world =
  (corrupt_world, Err JSONDecodeError).
Proof.
  destruct (corrupt_cache_raises (svc_of (str "/c") (JList [])) None (str "php") (str "array") (str "php")
              corrupt_world) as [H1 H2].
  split; [apply (H1 (str "["))|apply (H2 (str "{"))]; vm_compute; reflexivity.
Defined.

