(* ===== verification/Interleave.v ===== *)
(** * The sync thread, one file operation at a time

    [DevdocsExtension.index_docs] (src/main.py, lines 52-61) runs
    [DevDocsService.index] (src/devdocs/devdocs_service.py, lines 59-91)
    on a [threading.Timer] thread, while the launcher's thread answers
    keyword queries with [get_docs] (lines 93-104) on the same cache
    directory; the spec (section 5) asks that a query running during a
    sync never see a torn file.  Service.v runs [index] as one step; this
    file refines it into the sequence of operations the file system sees:
    - [op]: an effect on the trace (a log line, a request, a sleep),
      [open(p, 'w')], or one write of [json.dump] to the open file;
      [json.dump] writes its text in chunks through a buffer, and the
      model lets each character reach the file by its own write, so the
      states a reader may see include every state a real buffer can show;
    - [sync_ops]: the operations of a sync that succeeds, in program order;
      the lemma [sync_ops_run] shows that running them one after the other
      is [index()];
    - [cut ops w n]: the world after the first [n] operations, which is
      what a read-only query running between the operations [n] and
      [n + 1] of the sync reads.
    The theorem [index_file_at_cut] says what [index.json] holds at each
    cut point: the old file, a prefix of the new text, then the new text;
    its witness runs [get_docs] at the cut point after the open and gets
    [JSONDecodeError] on a cache that is valid before and after the sync. *)

From Stdlib Require Import Ascii String List Bool Arith Lia.
From stdpp Require Import base gmap strings.
From S2P Require Import Prelude PyStr Json JsonText CacheStore Service.
Import ListNotations.
Local Open Scope py_scope.

(** ** Operations *)

Inductive op : Type :=
| OEmit (ev : event)            (** a log line, a request, a sleep: the trace only *)
| OOpen (p : pystr)             (** [open(p, 'w')]: create or truncate *)
| OWrite (p : pystr) (chunk : pystr).  (** [f.write(chunk)] on the file open at [p] *)

Definition run_op (o : op) : PyM world unit :=
  match o with
  | OEmit ev => pmodify (emit ev)
  | OOpen p => open_w p
  | OWrite p t => file_append p t
  end.

(** [with open(p, 'w') as f: json.dump(v, f)] where [text] is the text of
    [v]: the open, then one write per character. *)
Definition dump_ops (p text : pystr) : list op := OOpen p :: map (fun c => OWrite p [c]) text.

(** One turn of the loop of [index] on the slug [s]: [fetch_doc_entries(s)]
    with the body [ent s], then [time.sleep(0.5)]. *)
Definition body_ops (svc : service) (ent : pystr -> json) (s : pystr) : list op :=
  [OEmit (ELog (str "Fetching Docs for " ++ s ++ str " ")); OEmit (EGet (entries_url s))] ++
  dump_ops (entries_path svc s) (json_dump (ent s)) ++ [OEmit (ESleep 500)].

(** [index()] when [docs.json] gives the documents [kept] keeps. *)
Definition sync_ops (svc : service) (kept : list json) (ent : pystr -> json) : list op :=
  [OEmit (ELog (str "Start indexing documentation")); OEmit (EGet DEVDOCS_INDEX_ALL_URL)] ++
  dump_ops (index_file svc) (json_dump (JList kept)) ++
  flat_map (fun x => body_ops svc ent (slug_of x)) kept ++ [OEmit (ELog (str "Index Finished"))].

(** The world after the first [n] operations of [ops], run one after the
    other from [w]. *)
Definition cut (ops : list op) (w : world) (n : nat) : world := fst (for_each (firstn n ops) run_op w).

(** ** The operations of one [json.dump] to a file *)

(** The writes of [text] to a file that holds [c]. *)
Lemma writes_world p c text (w : world) :
  lookup_path p w = Some (NFile c) ->
  for_each (map (fun ch => OWrite p [ch]) text) run_op w =
  ({| w_fs := <[p := NFile (c ++ text)]> (w_fs w); w_trace := w_trace w; w_http := w_http w |}, Ok tt).
Proof.
  revert c w. induction text as [|ch text IH]; intros c w Hp; cbn [map for_each].
  - rewrite app_nil_r, insert_id by exact Hp. now destruct w.
  - unfold pbind at 1. cbn [run_op]. unfold file_append. rewrite Hp. cbn.
    rewrite (IH (c ++ [ch])) by (unfold lookup_path; cbn; apply lookup_insert_eq).
    cbn. now rewrite insert_insert_eq, <- app_assoc.
Qed.

(** [json.dump] to [p] as its operations: the world [json_dump_file]
    leaves when the open succeeds. *)
Lemma dump_ops_world p text (w : world) :
  lookup_path p w <> Some NDir -> parent_error p w = None ->
  for_each (dump_ops p text) run_op w =
  ({| w_fs := <[p := NFile text]> (w_fs w); w_trace := w_trace w ++ [EWrite p]; w_http := w_http w |}, Ok tt).
Proof.
  intros Hd Hp. cbn [dump_ops for_each]. unfold pbind at 1. cbn [run_op]. unfold open_w.
  destruct (lookup_path p w) as [[|c]|] eqn:E; [congruence| |]; rewrite Hp;
    (rewrite (writes_world p []) by (unfold lookup_path; cbn; apply lookup_insert_eq));
    cbn; now rewrite insert_insert_eq.
Qed.

(** ** Running the operations is [index()] *)

(** One turn of the loop, as operations. *)
Lemma body_ops_world svc ent x (w : world) :
  plain_dir (entries_dir svc) = true -> lookup_path (entries_dir svc) w = Some NDir -> loop_ok svc w ent x ->
  for_each (body_ops svc ent (slug_of x)) run_op w = (body_world svc ent x w, Ok tt).
Proof.
  intros Hd Hdir (Hs & Hsl & Hf & Hnd). unfold body_ops. rewrite for_each_app. cbn [for_each run_op].
  unfold pbind at 1 2 3, pmodify. cbn [pret]. rewrite for_each_app. unfold pbind at 1.
  rewrite dump_ops_world; [|destruct w; exact Hnd|].
  2:{ destruct w. unfold entries_path. apply parent_error_plain; [exact Hd|now apply plain_name_json|exact Hdir]. }
  cbn. unfold body_world, fetch_events. cbn. now rewrite <- !app_assoc.
Qed.

(** The head of the sync: the log, the request, and [index.json]. *)
Lemma head_ops_world dir sel docs (w : world) :
  sync_ready dir sel docs w ->
  for_each ([OEmit (ELog (str "Start indexing documentation")); OEmit (EGet DEVDOCS_INDEX_ALL_URL)] ++
            dump_ops (index_file (svc_of dir sel)) (json_dump (JList (kept_docs sel docs)))) run_op w =
  (index_world (svc_of dir sel) (kept_docs sel docs) w, Ok tt).
Proof.
  intros (Hd & Hsel & Hcd & Hix & Hed & Hget & Hslug). rewrite for_each_app. cbn [for_each run_op].
  unfold pbind at 1 2 3, pmodify. cbn [pret].
  rewrite dump_ops_world; [|destruct w; exact Hix|].
  2:{ destruct w. apply parent_error_plain; [exact Hd|reflexivity|exact Hcd]. }
  unfold index_world. cbn. now rewrite <- !app_assoc.
Qed.

(** The operations of a sync that succeeds, run one after the other, do
    what [index()] does: same files, same trace, same result. *)
Lemma sync_ops_run dir sel docs ent (w : world) :
  sync_ready dir sel docs w -> Forall (fetchable (svc_of dir sel) ent w) (kept_docs sel docs) ->
  for_each (sync_ops (svc_of dir sel) (kept_docs sel docs) ent) run_op w = index (svc_of dir sel) w.
Proof.
  intros Hr Hk. rewrite (index_success _ _ _ _ _ Hr Hk). unfold sync_ops. rewrite app_assoc, for_each_app.
  unfold pbind at 1. rewrite (head_ops_world _ _ _ _ Hr), for_each_app.
  destruct (index_world_ready _ _ _ _ _ _ Hr (kept_docs_in _ _ _ _ _ Hk)) as [Hed Hl].
  unfold pbind at 1. rewrite for_each_flat_map.
  rewrite (loop_world (svc_of dir sel) ent _ _ _ (plain_entries_dir _ (proj1 Hr))); try assumption.
  - cbn. unfold index_events. now rewrite <- !app_assoc.
  - intros x w' Hd' Hx. exact (body_ops_world (svc_of dir sel) _ _ _ (plain_entries_dir _ (proj1 Hr)) Hd' Hx).
Qed.

(** ** What [index.json] holds at each cut point *)

(** The path an operation writes, if any. *)
Definition op_path (o : op) : option pystr :=
  match o with OEmit _ => None | OOpen p | OWrite p _ => Some p end.

Lemma run_op_other o q (w : world) :
  op_path o <> Some q -> lookup_path q (fst (run_op o w)) = lookup_path q w.
Proof.
  intros Hq. destruct o as [ev|p|p t]; cbn [run_op op_path] in *.
  - destruct w. reflexivity.
  - unfold open_w. destruct (lookup_path p w) as [[]|]; try reflexivity;
      (destruct (parent_error p w); [reflexivity|]); cbn [fst];
      rewrite lookup_path_update, decide_False by congruence; reflexivity.
  - unfold file_append. destruct (lookup_path p w) as [[|c]|]; try reflexivity. cbn [fst].
    rewrite lookup_path_set, decide_False by congruence. reflexivity.
Qed.

(** Operations on other paths leave [q] as it was, whether they succeed
    or raise. *)
Lemma for_each_other l q (w : world) :
  Forall (fun o => op_path o <> Some q) l -> lookup_path q (fst (for_each l run_op w)) = lookup_path q w.
Proof.
  intros Hl. revert w. induction Hl as [|o l Ho _ IH]; intros w; [reflexivity|]. cbn [for_each].
  unfold pbind. pose proof (run_op_other o q w Ho) as E.
  destruct (run_op o w) as [w' [[]|e]]; cbn [fst] in *; [now rewrite IH|exact E].
Qed.

(** After the open and the first [k] writes of a dump, the file holds
    the first [k] characters of the text. *)
Lemma dump_prefix p text k (w : world) :
  lookup_path p w <> Some NDir -> parent_error p w = None ->
  for_each (firstn (S k) (dump_ops p text)) run_op w =
  ({| w_fs := <[p := NFile (firstn k text)]> (w_fs w); w_trace := w_trace w ++ [EWrite p]; w_http := w_http w |},
   Ok tt).
Proof.
  intros Hd Hp. cbn [dump_ops firstn]. rewrite firstn_map.
  exact (dump_ops_world p (firstn k text) w Hd Hp).
Qed.

Lemma Forall_firstn_of {X} (P : X -> Prop) k l : Forall P l -> Forall P (firstn k l).
Proof.
  intros Hl. apply List.Forall_forall. intros x Hx. apply in_firstn in Hx.
  exact (proj1 (List.Forall_forall P l) Hl x Hx).
Qed.

(** The turns of the loop and the final log do not touch [index.json]. *)
Lemma loop_ops_paths dir sel docs ent (w : world) :
  plain_dir dir = true -> Forall (fetchable (svc_of dir sel) ent w) (kept_docs sel docs) ->
  Forall (fun o => op_path o <> Some (index_file (svc_of dir sel)))
    (flat_map (fun x => body_ops (svc_of dir sel) ent (slug_of x)) (kept_docs sel docs) ++
     [OEmit (ELog (str "Index Finished"))]).
Proof.
  intros Hd Hk. apply Forall_app. split; [|repeat constructor; discriminate].
  apply List.Forall_forall. intros o (x & Hx & Ho)%in_flat_map.
  pose proof (proj1 (List.Forall_forall _ _) Hk x Hx) as (Hs & _ & _).
  pose proof (entries_path_neq_index_file dir sel (slug_of x) Hd Hs) as Hne.
  unfold body_ops, dump_ops in Ho. repeat rewrite in_app_iff in Ho. cbn in Ho.
  destruct Ho as [[<-|[<-|[]]]|[[<-|Ho]|[<-|[]]]]; cbn [op_path]; try discriminate; [congruence|].
  apply in_map_iff in Ho as (c & <- & _). cbn [op_path]. congruence.
Qed.

(** [index.json] at the cut point [m] of a sync that succeeds: the old
    node before the open, then the first [m - 3] characters of the new
    text, then all of it. *)
Lemma index_file_at dir sel docs ent (w : world) m :
  sync_ready dir sel docs w -> Forall (fetchable (svc_of dir sel) ent w) (kept_docs sel docs) ->
  lookup_path (index_file (svc_of dir sel)) (cut (sync_ops (svc_of dir sel) (kept_docs sel docs) ent) w m) =
  if m <=? 2 then lookup_path (index_file (svc_of dir sel)) w
  else Some (NFile (firstn (m - 3) (json_dump (JList (kept_docs sel docs))))).
Proof.
  intros Hr Hk. pose proof Hr as (Hd & Hsel & Hcd & Hix & Hed & Hget & Hslug).
  unfold cut, sync_ops. rewrite firstn_app. cbn [length].
  destruct (Nat.leb_spec m 2) as [Hm|Hm].
  - replace (m - 2) with 0 by lia. rewrite firstn_O, app_nil_r. apply for_each_other.
    apply Forall_firstn_of. repeat constructor; discriminate.
  - rewrite firstn_all2 by (cbn; lia). rewrite for_each_app.
    set (w2 := emit (EGet DEVDOCS_INDEX_ALL_URL) (emit (ELog (str "Start indexing documentation")) w)).
    rewrite (pbind_Ok _ _ _ w2 tt) by reflexivity.
    replace (m - 2) with (S (m - 3)) by lia. rewrite firstn_app, for_each_app.
    assert (H2 : lookup_path (index_file (svc_of dir sel)) w2 <> Some NDir) by (subst w2; destruct w; exact Hix).
    assert (H3 : parent_error (index_file (svc_of dir sel)) w2 = None)
      by (subst w2; destruct w; apply parent_error_plain; [exact Hd|reflexivity|exact Hcd]).
    rewrite (pbind_Ok _ _ _ _ tt (dump_prefix _ _ _ w2 H2 H3)).
    cbv beta. rewrite for_each_other by (apply Forall_firstn_of, (loop_ops_paths _ _ _ _ w); assumption).
    unfold lookup_path. cbn. apply lookup_insert_eq.
Qed.

(** ** A query during a sync *)

(** (C30) What a query during a sync can find in [index.json]: at the cut
    point [m] of a sync that succeeds, the file holds the old node for
    [m <= 2] (the log line and the request of [docs.json]), then, from
    the [open(..., 'w')] on, the first [m - 3] characters of the new text:
    first the empty file, then its prefixes, then all of it, and the
    operations on the entries files do not touch it again.  A query at
    the cut points between the open and the last character reads a file
    that is not the old one nor the new one. *)
Theorem index_file_at_cut dir sel docs ent (w : world) m :
  sync_ready dir sel docs w -> Forall (fetchable (svc_of dir sel) ent w) (kept_docs sel docs) ->
  lookup_path (index_file (svc_of dir sel)) (cut (sync_ops (svc_of dir sel) (kept_docs sel docs) ent) w m) =
  if m <=? 2 then lookup_path (index_file (svc_of dir sel)) w
  else Some (NFile (firstn (m - 3) (json_dump (JList (kept_docs sel docs))))).
Proof. exact (index_file_at dir sel docs ent w m). Qed.

(** ** Witnesses *)

Definition demo_svc : service := svc_of (str "/c") (JStr (str "javascript")).

Definition demo_ops : list op := sync_ops demo_svc (kept_docs (JStr (str "javascript")) demo_docs) demo_entries.

(** A [get_docs()] right after the sync opened [index.json] raises
    [JSONDecodeError], on a cache that is valid before and after the sync. *)
Lemma index_file_at_cut_witness :
  lookup_path (index_file demo_svc) (cut demo_ops demo_world 3) = Some (NFile []) /\
  snd (get_docs demo_svc None (cut demo_ops demo_world 3)) = Err JSONDecodeError.
Proof.
  split; [|vm_compute; reflexivity].
  unfold demo_ops, demo_svc.
  rewrite (index_file_at_cut (str "/c") (JStr (str "javascript")) demo_docs demo_entries demo_world 3); [reflexivity|concrete..].
Defined.
