(* ===== verification/TwoSyncs.v ===== *)
(** * Two syncs at once: file objects with their own offset

    [DevdocsExtension.index_docs] (src/main.py, lines 52-61) starts a new
    [threading.Timer] chain at every docs preference update and never
    cancels the earlier ones (Extension.v, [timers_accumulate]), so two
    timer threads can run [DevDocsService.index] (src/devdocs/
    devdocs_service.py, lines 59-91) at the same time on the same cache
    directory.  Interleave.v lets a file grow by appending, which is what
    a single writer sees; with two writers the file object of each
    [open(p, 'w')] matters: it writes at its own offset, which starts at 0
    and grows by the length of each write, and a write past the end of
    the file fills the gap with NUL characters (POSIX [write] on a file
    opened without [O_APPEND]).

    - [write_at], [file_write_at]: [f.write(chunk)] at the offset of [f];
    - [hop], [hrun]: the operations of Interleave.v run by a thread that
      keeps the offset of its open file; [hrun_sync_ops] shows that for one
      thread this is the appending model of Interleave.v;
    - [tstep], [c2step]: two threads, each with its remaining operations,
      its offset and the exception it raised, on one shared world; a
      thread that raises stops there.
    Theorems: two syncs that write the same text leave [index.json] with
    that text whatever the interleaving ([two_syncs_same_index], by an
    invariant over [rtc c2step]); two syncs that write different texts
    can leave the later opener's text followed by the rest of the
    other's, a file no later operation of either sync touches again
    ([two_syncs_mixed_index]). *)

From Stdlib Require Import Ascii String List Bool Arith Lia.
From stdpp Require Import base gmap strings relations.
From S2P Require Import Prelude PyStr Json JsonText CacheStore Service Interleave.
Import ListNotations.
Local Open Scope py_scope.

(** ** Writes at an offset *)

(** The character a gap past the end of a file reads as. *)
Definition NUL : ascii := "000"%char.

(** [f.write(chunk)] when [f]'s offset is [off] and the file holds [c]:
    an empty write changes nothing, any other overwrites from [off]. *)
Definition write_at (off : nat) (chunk c : pystr) : pystr :=
  match chunk with
  | [] => c
  | _ => firstn off c ++ repeat NUL (off - length c) ++ chunk ++ skipn (off + length chunk) c
  end.

Definition file_write_at (p : pystr) (off : nat) (chunk : pystr) : PyM world unit :=
  fun s =>
    match lookup_path p s with
    | Some (NFile c) => (set_fs (<[p := NFile (write_at off chunk c)]> (fs_of s)) s, Ok tt)
    | _ => (s, Err (FileNotFoundError p))
    end.

(** One operation of a thread whose open file object is at offset [off]:
    the world, the result and the new offset. *)
Definition hop (o : op) (off : nat) (w : world) : world * res unit * nat :=
  match o with
  | OEmit ev => (emit ev w, Ok tt, off)
  | OOpen p => let '(w', r) := open_w p w in (w', r, 0)
  | OWrite p t => let '(w', r) := file_write_at p off t w in (w', r, off + length t)
  end.

(** A thread running its operations one after the other, stopping at the
    first exception. *)
Fixpoint hrun (ops : list op) (off : nat) (w : world) : world * res unit * nat :=
  match ops with
  | [] => (w, Ok tt, off)
  | o :: os =>
      match hop o off w with
      | (w', Ok _, off') => hrun os off' w'
      | (w', Err e, off') => (w', Err e, off')
      end
  end.

Definition hrun_res (ops : list op) (off : nat) (w : world) : world * res unit :=
  let '(w', r, _) := hrun ops off w in (w', r).

(** ** Two threads on one world *)

Record thread : Type := Thread { t_ops : list op; t_off : nat; t_exn : option exn }.

Inductive tstep : thread -> world -> thread -> world -> Prop :=
| ts_ok o os off w w' off' :
    hop o off w = (w', Ok tt, off') -> tstep (Thread (o :: os) off None) w (Thread os off' None) w'
| ts_raise o os off w w' e off' :
    hop o off w = (w', Err e, off') -> tstep (Thread (o :: os) off None) w (Thread (o :: os) off (Some e)) w'.

Record conf2 : Type := Conf2 { c_t1 : thread; c_t2 : thread; c2_world : world }.

Inductive c2step : conf2 -> conf2 -> Prop :=
| c2_left t1 t2 w t1' w' : tstep t1 w t1' w' -> c2step (Conf2 t1 t2 w) (Conf2 t1' t2 w')
| c2_right t1 t2 w t2' w' : tstep t2 w t2' w' -> c2step (Conf2 t1 t2 w) (Conf2 t1 t2' w').

(** A thread that ran all its operations without raising. *)
Definition finished (t : thread) : Prop := t_ops t = [] /\ t_exn t = None.

(** ** Writes at an offset, character by character *)

Lemma nth_error_write_at off chunk c i :
  chunk <> [] ->
  nth_error (write_at off chunk c) i =
  if i <? off then (if i <? length c then nth_error c i else Some NUL)
  else if i <? off + length chunk then nth_error chunk (i - off)
  else nth_error c i.
Proof.
  intros Hne. unfold write_at. destruct chunk as [|x chunk']; [congruence|].
  remember (x :: chunk') as chunk eqn:Ec. clear Hne Ec.
  assert (Hlen : length (firstn off c ++ repeat NUL (off - length c)) = off).
  { rewrite length_app, length_firstn, repeat_length. lia. }
  rewrite app_assoc. destruct (Nat.ltb_spec i off) as [Hi|Hi].
  - rewrite nth_error_app1 by lia.
    destruct (Nat.ltb_spec i (length c)) as [Hc|Hc].
    + rewrite nth_error_app1 by (rewrite length_firstn; lia).
      rewrite nth_error_firstn. now replace (i <? off) with true by (symmetry; apply Nat.ltb_lt; lia).
    + rewrite nth_error_app2 by (rewrite length_firstn; lia).
      apply nth_error_repeat. rewrite length_firstn. lia.
  - rewrite nth_error_app2 by lia. rewrite Hlen.
    destruct (Nat.ltb_spec i (off + length chunk)) as [Hj|Hj].
    + rewrite nth_error_app1 by lia. reflexivity.
    + rewrite nth_error_app2 by lia. rewrite nth_error_skipn. f_equal. lia.
Qed.

Lemma length_write_at off chunk c :
  chunk <> [] -> length (write_at off chunk c) = Nat.max (length c) (off + length chunk).
Proof.
  intros Hne. unfold write_at. destruct chunk as [|x chunk']; [congruence|].
  remember (x :: chunk') as chunk eqn:Ec. clear Hne Ec. rewrite !length_app, length_firstn, repeat_length, length_skipn. lia.
Qed.

(** Writing at the end of the file is appending. *)
Lemma write_at_end chunk c : write_at (length c) chunk c = c ++ chunk.
Proof.
  unfold write_at. destruct chunk as [|x chunk']; [now rewrite app_nil_r|].
  remember (x :: chunk') as chunk eqn:Ec. clear Ec. rewrite firstn_all, Nat.sub_diag, skipn_all2 by lia.
  cbn [repeat app]. now rewrite app_nil_r.
Qed.

(** ** One thread: writing at the offset is appending *)

Lemma open_w_Ok_file p (w w' : world) : open_w p w = (w', Ok tt) -> lookup_path p w' = Some (NFile []).
Proof.
  unfold open_w. destruct (lookup_path p w) as [[]|]; [congruence| |];
    (destruct (parent_error p w); [congruence|]); intros [= <-];
    unfold lookup_path; cbn [fs_of world_fs_state w_fs]; apply lookup_insert_eq.
Qed.

Lemma file_write_at_end p t c (w : world) :
  lookup_path p w = Some (NFile c) -> file_write_at p (length c) t w = file_append p t w.
Proof. intros Hp. unfold file_write_at, file_append. rewrite Hp, write_at_end. reflexivity. Qed.

(** The operations of a sync are trace effects and whole-file dumps. *)
Inductive blocks : list op -> Prop :=
| blocks_nil : blocks []
| blocks_emit ev l : blocks l -> blocks (OEmit ev :: l)
| blocks_dump p t l : blocks l -> blocks (dump_ops p t ++ l).

Lemma blocks_app l1 l2 : blocks l1 -> blocks l2 -> blocks (l1 ++ l2).
Proof.
  intros H1 H2. induction H1 as [|ev l _ IH|p t l _ IH]; [exact H2|constructor; exact IH|].
  rewrite <- app_assoc. constructor. exact IH.
Qed.

Lemma sync_ops_blocks svc kept ent : blocks (sync_ops svc kept ent).
Proof.
  unfold sync_ops. cbn [app]. do 2 constructor. apply blocks_dump, blocks_app.
  - induction kept as [|x kept IH]; [constructor|]. cbn [flat_map]. apply blocks_app; [|exact IH].
    unfold body_ops. cbn [app]. do 2 constructor. apply blocks_dump. repeat constructor.
  - repeat constructor.
Qed.

Lemma hrun_res_cons o os off w :
  hrun_res (o :: os) off w =
  match hop o off w with (w', Ok _, off') => hrun_res os off' w' | (w', Err e, _) => (w', Err e) end.
Proof. unfold hrun_res. cbn [hrun]. destruct (hop o off w) as [[w' [[]|e]] off']; reflexivity. Qed.

Lemma hrun_writes p l (IH : forall off w, hrun_res l off w = for_each l run_op w) t :
  forall c (w : world), lookup_path p w = Some (NFile c) ->
  hrun_res (map (fun ch => OWrite p [ch]) t ++ l) (length c) w = for_each (map (fun ch => OWrite p [ch]) t ++ l) run_op w.
Proof.
  induction t as [|ch t IHt]; intros c w Hp; [apply IH|].
  cbn [map app for_each run_op]. rewrite hrun_res_cons. cbn [hop]. rewrite (file_write_at_end _ _ _ _ Hp).
  unfold pbind at 1. unfold file_append at 1 2. rewrite Hp.
  set (w2 := set_fs (<[p := NFile (c ++ [ch])]> (fs_of w)) w).
  replace (length c + length [ch]) with (length (c ++ [ch])) by (rewrite length_app; reflexivity).
  apply IHt. unfold w2. rewrite lookup_path_set. now rewrite decide_True.
Qed.

Lemma hrun_blocks l : blocks l -> forall off w, hrun_res l off w = for_each l run_op w.
Proof.
  induction 1 as [|ev l _ IH|p t l _ IH]; intros off w.
  - reflexivity.
  - rewrite hrun_res_cons. cbn [hop for_each run_op]. unfold pbind at 1. apply IH.
  - unfold dump_ops. cbn [app for_each run_op]. rewrite hrun_res_cons. cbn [hop]. unfold pbind at 1.
    destruct (open_w p w) as [w1 [[]|e]] eqn:Ho; [|reflexivity].
    apply (hrun_writes p l IH t [] w1). exact (open_w_Ok_file _ _ _ Ho).
Qed.

(** A sync run by one thread whose file objects write at their own
    offset, as the operating system does, has the effect of the model of
    Interleave.v where each write appends to the file: for one writer the
    offset of the file object is always the end of the file.  Every
    world, every starting offset, success or exception. *)
Lemma hrun_sync_ops svc kept ent off (w : world) :
  hrun_res (sync_ops svc kept ent) off w = for_each (sync_ops svc kept ent) run_op w.
Proof. exact (hrun_blocks _ (sync_ops_blocks svc kept ent) off w). Qed.

(** ** What a file holds while two threads write the same text *)

Ltac ltb_cases := repeat match goal with |- context [?a <? ?b] => destruct (Nat.ltb_spec a b) end.

(** [c] is made of characters of [text] at their place and NUL gaps, and
    no longer than [text]. *)
Definition compat (text c : pystr) : Prop :=
  length c <= length text /\
  forall i ch, nth_error c i = Some ch -> ch = NUL \/ nth_error text i = Some ch.

(** The first [k] characters of [c] are those of [text]. *)
Definition prefix_ok (text : pystr) (k : nat) (c : pystr) : Prop :=
  k <= length text /\ forall i, i < k -> nth_error c i = nth_error text i.

Lemma nth_error_lt {X} (l : list X) i x : nth_error l i = Some x -> i < length l.
Proof. intros H. apply nth_error_Some. congruence. Qed.

Lemma compat_nil text : compat text [].
Proof. split; [cbn; lia|]. intros i ch H. rewrite nth_error_nil in H. discriminate. Qed.

Lemma compat_write text c k ch :
  compat text c -> nth_error text k = Some ch -> compat text (write_at k [ch] c).
Proof.
  intros [Hl Hc] Hk. pose proof (nth_error_lt _ _ _ Hk). split.
  - rewrite length_write_at by discriminate. cbn [length]. lia.
  - intros i x. rewrite nth_error_write_at by discriminate. cbn [length]. ltb_cases; intros Hx.
    + exact (Hc i x Hx).
    + left. congruence.
    + right. assert (i = k) as -> by lia. rewrite Nat.sub_diag in Hx. cbn in Hx. congruence.
    + exact (Hc i x Hx).
Qed.

Lemma prefix_write text c k0 k ch :
  prefix_ok text k0 c -> nth_error text k = Some ch -> prefix_ok text k0 (write_at k [ch] c).
Proof.
  intros [Hk0 Hp] Hk. split; [exact Hk0|]. intros i Hi. rewrite nth_error_write_at by discriminate. cbn [length].
  specialize (Hp i Hi). ltb_cases; try exact Hp.
  - exfalso. assert (Ht : nth_error text i <> None) by (apply nth_error_Some; lia).
    assert (Hci : nth_error c i <> None) by congruence. apply nth_error_Some in Hci. lia.
  - assert (i = k) as -> by lia. rewrite Nat.sub_diag, Hk. reflexivity.
Qed.

Lemma prefix_write_self text c k ch :
  prefix_ok text k c -> nth_error text k = Some ch -> prefix_ok text (S k) (write_at k [ch] c).
Proof.
  intros Hp Hk. pose proof (nth_error_lt _ _ _ Hk). split; [lia|]. intros i Hi.
  destruct (Nat.eq_dec i k) as [->|Hne].
  - rewrite nth_error_write_at by discriminate. cbn [length]. ltb_cases; try lia. rewrite Nat.sub_diag, Hk. reflexivity.
  - apply (prefix_write text c k k ch Hp Hk). lia.
Qed.

Lemma compat_prefix_full text c : compat text c -> prefix_ok text (length text) c -> c = text.
Proof.
  intros [Hl _] [_ Hp]. apply nth_error_ext. intros i.
  destruct (Nat.ltb_spec i (length text)) as [Hi|Hi]; [apply Hp, Hi|].
  rewrite !(proj2 (nth_error_None _ _)) by lia. reflexivity.
Qed.

(** ** The operations of a thread and the files they touch *)

Lemma hop_Err_world o off (w w' : world) e off' : hop o off w = (w', Err e, off') -> w' = w.
Proof.
  destruct o as [ev|p|p t]; cbn [hop]; [congruence| |].
  - unfold open_w. destruct (lookup_path p w) as [[]|]; [congruence| |];
      destruct (parent_error p w); congruence.
  - unfold file_write_at. destruct (lookup_path p w) as [[]|]; congruence.
Qed.

Lemma hop_other o off (w : world) q :
  op_path o <> Some q -> lookup_path q (fst (fst (hop o off w))) = lookup_path q w.
Proof.
  intros Hq. destruct o as [ev|p|p t]; cbn [hop].
  - exact (run_op_other (OEmit ev) q w Hq).
  - pose proof (run_op_other (OOpen p) q w Hq) as E. cbn [run_op] in E.
    destruct (open_w p w). exact E.
  - cbn [op_path] in Hq. unfold file_write_at. destruct (lookup_path p w) as [[]|]; try reflexivity.
    cbn [fst]. rewrite lookup_path_set, decide_False by congruence. reflexivity.
Qed.

Lemma lookup_path_world_set p n (w : world) q :
  lookup_path q {| w_fs := <[p := n]> (w_fs w); w_trace := w_trace w; w_http := w_http w |} =
  if decide (p = q) then Some n else lookup_path q w.
Proof. exact (lookup_path_set p n w q). Qed.

Lemma hop_write p k ch cs (w : world) :
  lookup_path p w = Some (NFile cs) ->
  hop (OWrite p [ch]) k w = (set_fs (<[p := NFile (write_at k [ch] cs)]> (fs_of w)) w, Ok tt, S k).
Proof. intros Hp. cbn [hop]. unfold file_write_at. rewrite Hp, Nat.add_1_r. reflexivity. Qed.

Lemma skipn_cons_nth {X} k (l r : list X) x : skipn k l = x :: r -> nth_error l k = Some x /\ skipn (S k) l = r.
Proof.
  intros Hs. split.
  - rewrite <- (Nat.add_0_r k), <- nth_error_skipn, Hs. reflexivity.
  - replace (S k) with (1 + k) by lia. rewrite <- skipn_skipn, Hs. reflexivity.
Qed.

(** ** Two threads that dump the same text to the same path *)

Section SameText.
Variables (p text : pystr).

Definition no_p (o : op) : Prop := op_path o <> Some p.

(** Where a thread stands with respect to its [with open(p, 'w') as f:
    json.dump(...)] block, the rest of its operations being [post]:
    before the open, after the open and [k] characters, or past the block
    (counted as the whole text). *)
Inductive phase (post : list op) : thread -> option nat -> Prop :=
| ph_before pre off ex : Forall no_p pre -> phase post (Thread (pre ++ dump_ops p text ++ post) off ex) None
| ph_writing k ex : k <= length text ->
    phase post (Thread (map (fun ch => OWrite p [ch]) (skipn k text) ++ post) k ex) (Some k)
| ph_after ops off ex : Forall no_p ops -> phase post (Thread ops off ex) (Some (length text)).

(** No thread has opened [p], or [p] holds a file made of the text and
    gaps, of which one thread that opened it has its first [k] characters
    in place. *)
Definition good (w : world) (a b : option nat) : Prop :=
  exists cs, lookup_path p w = Some (NFile cs) /\ compat text cs /\
    exists k, (a = Some k \/ b = Some k) /\ prefix_ok text k cs.

Definition state_ok (w : world) (a b : option nat) : Prop := (a = None /\ b = None) \/ good w a b.

Lemma state_ok_comm w a b : state_ok w a b -> state_ok w b a.
Proof. intros [[-> ->]|(cs & Hp & Hc & k & Hk & Hpre)]; [now left|right]. exists cs. split_and!; eauto. exists k. tauto. Qed.

Lemma state_ok_same_p w w' a b : lookup_path p w' = lookup_path p w -> state_ok w a b -> state_ok w' a b.
Proof. intros E [H|(cs & Hp & H)]; [now left|right]. exists cs. rewrite E. auto. Qed.

Lemma step_other t w t' w' a b o os off :
  t_ops t = o :: os -> t_off t = off -> no_p o -> tstep t w t' w' ->
  state_ok w a b -> t_ops t' = os /\ t_exn t' = None /\ state_ok w' a b \/ t_ops t' = t_ops t /\ state_ok w' a b.
Proof.
  intros Ho Hoff Hn Hs Hok. inversion Hs as [o1 os1 off1 w1 w1' off1' E|o1 os1 off1 w1 w1' e off1' E]; subst; cbn in Ho; injection Ho as -> ->.
  - left. split_and!; [reflexivity|reflexivity|]. apply (state_ok_same_p w); [|exact Hok].
    pose proof (hop_other o off1 w p Hn) as H. rewrite E in H. exact H.
  - right. split; [reflexivity|]. apply hop_Err_world in E. now subst.
Qed.

Lemma step_after post t w t' w' b :
  Forall no_p (t_ops t) -> tstep t w t' w' -> state_ok w (Some (length text)) b ->
  phase post t' (Some (length text)) /\ state_ok w' (Some (length text)) b.
Proof.
  intros Hn Hs Hok. destruct t as [ops off ex]. destruct ops as [|o os]; [inversion Hs|].
  inversion Hn as [|? ? Ho Hos]; subst.
  destruct (step_other (Thread (o :: os) off ex) w t' w' _ b o os off eq_refl eq_refl Ho Hs Hok) as [(E & _ & Hok')|(E & Hok')];
    destruct t' as [ops' off' ex']; cbn in E; subst; (split; [constructor|exact Hok']); auto.
Qed.

Lemma step_phase post t w t' w' a b :
  Forall no_p post -> tstep t w t' w' -> phase post t a -> state_ok w a b ->
  exists a', phase post t' a' /\ state_ok w' a' b.
Proof.
  intros Hpost Hs Hph Hok. destruct Hph as [pre off ex Hpre|k ex Hk|ops off ex Hops].
  - destruct pre as [|o pre].
    + inversion Hs as [o1 os1 off1 w1 w1' off1' E|o1 os1 off1 w1 w1' e off1' E]; subst.
      * cbn [hop] in E. destruct (open_w p w) as [w2 r] eqn:Eo. injection E as -> -> <-.
        exists (Some 0). split; [apply (ph_writing post 0); lia|].
        right. exists []. split_and!; [exact (open_w_Ok_file _ _ _ Eo)|apply compat_nil|].
        exists 0. split; [now left|]. split; [lia|intros; lia].
      * apply hop_Err_world in E. subst. exists None. split; [|exact Hok].
        apply (ph_before post [] off (Some e)). constructor.
    + inversion Hpre as [|? ? Ho Hpre']; subst.
      destruct (step_other (Thread ((o :: pre) ++ dump_ops p text ++ post) off ex) w t' w' _ b
                  o (pre ++ dump_ops p text ++ post) off eq_refl eq_refl Ho Hs Hok)
        as [(E & Ex & Hok')|(E & Hok')]; exists None; (split; [|exact Hok']);
        destruct t' as [ops' off' ex']; cbn [t_ops t_off t_exn] in *; subst; apply ph_before; auto.
  - destruct (skipn k text) as [|ch rest] eqn:Hsk.
    + assert (k = length text) as ->.
      { pose proof (length_skipn k text) as L. rewrite Hsk in L. cbn in L. lia. }
      cbn [map app] in Hs.
      exists (Some (length text)). exact (step_after post (Thread post (length text) ex) w t' w' b Hpost Hs Hok).
    + apply skipn_cons_nth in Hsk as [Hnth Hrest].
      destruct Hok as [[Hsome _]|(cs & Hp & Hc & k0 & Hk0 & Hpre)]; [discriminate|].
      inversion Hs as [o1 os1 off1 w1 w1' off1' E|o1 os1 off1 w1 w1' e off1' E]; subst;
        rewrite (hop_write _ _ _ _ _ Hp) in E; [injection E as <- <-|discriminate].
      exists (Some (S k)). split.
      * apply ph_writing. pose proof (nth_error_lt _ _ _ Hnth). lia.
      * right. eexists. split_and!; [rewrite lookup_path_world_set; now rewrite decide_True|exact (compat_write _ _ _ _ Hc Hnth)|].
        destruct Hk0 as [[= <-]|Hb].
        -- exists (S k). split; [now left|exact (prefix_write_self _ _ _ _ Hpre Hnth)].
        -- exists k0. split; [now right|exact (prefix_write _ _ _ _ _ Hpre Hnth)].
  - exists (Some (length text)). exact (step_after post (Thread ops off ex) w t' w' b Hops Hs Hok).
Qed.
End SameText.

Section SameTextRuns.
Variables (p text : pystr) (post1 post2 : list op).
Hypotheses (Hpost1 : Forall (no_p p) post1) (Hpost2 : Forall (no_p p) post2).

Definition inv2 (c : conf2) : Prop :=
  exists a b, phase p text post1 (c_t1 c) a /\ phase p text post2 (c_t2 c) b /\ state_ok p text (c2_world c) a b.

Lemma inv2_step c c' : c2step c c' -> inv2 c -> inv2 c'.
Proof.
  intros Hs (a & b & Ha & Hb & Hok). destruct Hs as [t1 t2 w t1' w' Ht|t1 t2 w t2' w' Ht]; cbn in *.
  - destruct (step_phase p text post1 t1 w t1' w' a b Hpost1 Ht Ha Hok) as (a' & Ha' & Hok').
    exists a', b. auto.
  - destruct (step_phase p text post2 t2 w t2' w' b a Hpost2 Ht Hb (state_ok_comm _ _ _ _ _ Hok)) as (b' & Hb' & Hok').
    exists a, b'. split_and!; auto. now apply state_ok_comm.
Qed.

Lemma inv2_rtc c c' : rtc c2step c c' -> inv2 c -> inv2 c'.
Proof. induction 1 as [|c1 c2 c3 Hs _ IH]; [tauto|]. intros H. apply IH, (inv2_step c1); assumption. Qed.

Lemma inv2_init pre1 pre2 off1 off2 w :
  Forall (no_p p) pre1 -> Forall (no_p p) pre2 ->
  inv2 (Conf2 (Thread (pre1 ++ dump_ops p text ++ post1) off1 None) (Thread (pre2 ++ dump_ops p text ++ post2) off2 None) w).
Proof. intros H1 H2. exists None, None. split_and!; [constructor; exact H1|constructor; exact H2|now left]. Qed.

Lemma phase_finished post t a : phase p text post t a -> t_ops t = [] -> a = Some (length text).
Proof.
  destruct 1 as [pre off ex _|k ex Hk|ops off ex _]; cbn [t_ops]; intros E.
  - destruct pre; discriminate.
  - apply app_eq_nil in E as [E _]. apply map_eq_nil in E.
    pose proof (length_skipn k text) as L. rewrite E in L. cbn in L. f_equal. lia.
  - reflexivity.
Qed.

Lemma inv2_finished c :
  inv2 c -> finished (c_t1 c) -> finished (c_t2 c) -> lookup_path p (c2_world c) = Some (NFile text).
Proof.
  intros (a & b & Ha & Hb & Hok) [E1 _] [E2 _].
  rewrite (phase_finished _ _ _ Ha E1), (phase_finished _ _ _ Hb E2) in Hok.
  destruct Hok as [[? _]|(cs & Hp & Hc & k & Hk & Hpre)]; [discriminate|].
  assert (k = length text) as -> by (destruct Hk as [[=]|[=]]; auto).
  rewrite Hp. f_equal. f_equal. exact (compat_prefix_full _ _ Hc Hpre).
Qed.
End SameTextRuns.

(** ** Two syncs *)

Lemma sync_ops_split svc kept ent :
  sync_ops svc kept ent =
  [OEmit (ELog (str "Start indexing documentation")); OEmit (EGet DEVDOCS_INDEX_ALL_URL)] ++
  dump_ops (index_file svc) (json_dump (JList kept)) ++
  (flat_map (fun x => body_ops svc ent (slug_of x)) kept ++ [OEmit (ELog (str "Index Finished"))]).
Proof. reflexivity. Qed.

Lemma sync_pre_no_p q : Forall (no_p q) [OEmit (ELog (str "Start indexing documentation")); OEmit (EGet DEVDOCS_INDEX_ALL_URL)].
Proof. repeat constructor; discriminate. Qed.

(** (C25) Two syncs at once that write the same [index.json] text (the
    same [docs.json] and preference; their entries bodies may differ):
    in every interleaving of their operations, with each file object
    writing at its own offset, once both threads have run to the end
    without raising, [index.json] holds exactly that text, although a
    reader in between may see it truncated or with NUL gaps. *)
Theorem two_syncs_same_index dir sel docs ent1 ent2 (w : world) off1 off2 c :
  plain_dir dir = true ->
  Forall (fetchable (svc_of dir sel) ent1 w) (kept_docs sel docs) ->
  Forall (fetchable (svc_of dir sel) ent2 w) (kept_docs sel docs) ->
  rtc c2step (Conf2 (Thread (sync_ops (svc_of dir sel) (kept_docs sel docs) ent1) off1 None)
                    (Thread (sync_ops (svc_of dir sel) (kept_docs sel docs) ent2) off2 None) w) c ->
  finished (c_t1 c) -> finished (c_t2 c) ->
  lookup_path (index_file (svc_of dir sel)) (c2_world c) = Some (NFile (json_dump (JList (kept_docs sel docs)))).
Proof.
  intros Hd Hk1 Hk2 Hr Hf1 Hf2. rewrite !sync_ops_split in Hr.
  eapply inv2_finished; [|exact Hf1|exact Hf2].
  eapply inv2_rtc; [exact (loop_ops_paths _ _ _ _ w Hd Hk1)|exact (loop_ops_paths _ _ _ _ w Hd Hk2)|exact Hr|].
  apply inv2_init; apply sync_pre_no_p.
Qed.

(** ** Running a thread in the two-thread semantics *)

Lemma run_left ops rest off (w : world) w' off' t2 :
  hrun ops off w = (w', Ok tt, off') ->
  rtc c2step (Conf2 (Thread (ops ++ rest) off None) t2 w) (Conf2 (Thread rest off' None) t2 w').
Proof.
  revert off w. induction ops as [|o os IH]; intros off w H; cbn [hrun] in H.
  - injection H as -> ->. apply rtc_refl.
  - destruct (hop o off w) as [[w1 [[]|e]] off1] eqn:E; [|discriminate].
    eapply rtc_l; [apply c2_left, ts_ok, E|exact (IH _ _ H)].
Qed.

Lemma run_right ops rest off (w : world) w' off' t1 :
  hrun ops off w = (w', Ok tt, off') ->
  rtc c2step (Conf2 t1 (Thread (ops ++ rest) off None) w) (Conf2 t1 (Thread rest off' None) w').
Proof.
  revert off w. induction ops as [|o os IH]; intros off w H; cbn [hrun] in H.
  - injection H as -> ->. apply rtc_refl.
  - destruct (hop o off w) as [[w1 [[]|e]] off1] eqn:E; [|discriminate].
    eapply rtc_l; [apply c2_right, ts_ok, E|exact (IH _ _ H)].
Qed.

Lemma write_at_cons k ch t c : write_at (S k) t (write_at k [ch] c) = write_at k (ch :: t) c.
Proof.
  destruct t as [|x t]; [reflexivity|].
  apply nth_error_ext. intros i. rewrite !nth_error_write_at, length_write_at by discriminate. cbn [length].
  ltb_cases; try lia; try reflexivity.
  - assert (i = k) as -> by lia. now rewrite Nat.sub_diag.
  - replace (i - k) with (S (i - S k)) by lia. reflexivity.
Qed.

Lemma write_at_0 t c : write_at 0 t c = t ++ skipn (length t) c.
Proof. destruct t; reflexivity. Qed.

Lemma parent_error_same p (w w' : world) :
  (forall q, q <> p -> lookup_path q w' = lookup_path q w) -> path_dirname p <> p ->
  parent_error p w' = parent_error p w.
Proof. intros E Hd. unfold parent_error. destruct (path_dirname p); [reflexivity|]. now rewrite E. Qed.

(** The writes of a text from offset [k], one character at a time. *)
Lemma hrun_writes_at p t : forall k cs (w : world), lookup_path p w = Some (NFile cs) ->
  exists w', hrun (map (fun ch => OWrite p [ch]) t) k w = (w', Ok tt, k + length t) /\
    lookup_path p w' = Some (NFile (write_at k t cs)) /\ forall q, q <> p -> lookup_path q w' = lookup_path q w.
Proof.
  induction t as [|ch t IH]; intros k cs w Hp.
  - exists w. split_and!; [now rewrite Nat.add_0_r|exact Hp|reflexivity].
  - cbn [map hrun]. rewrite (hop_write _ _ _ _ _ Hp).
    set (w1 := set_fs (<[p := NFile (write_at k [ch] cs)]> (fs_of w)) w).
    assert (H1 : lookup_path p w1 = Some (NFile (write_at k [ch] cs))) by (unfold w1; rewrite lookup_path_set; now rewrite decide_True).
    destruct (IH (S k) _ w1 H1) as (w' & Hr & Hp' & Hq'). exists w'. split_and!.
    + rewrite Hr. f_equal. cbn [length]. lia.
    + now rewrite Hp', write_at_cons.
    + intros q Hq. rewrite Hq'; [|exact Hq]. unfold w1. rewrite lookup_path_set, decide_False by congruence. reflexivity.
Qed.

Lemma hrun_head p e1 e2 off (w : world) :
  lookup_path p w <> Some NDir -> parent_error p w = None ->
  exists w1, hrun [OEmit e1; OEmit e2; OOpen p] off w = (w1, Ok tt, 0) /\
    lookup_path p w1 = Some (NFile []) /\ forall q, q <> p -> lookup_path q w1 = lookup_path q w.
Proof.
  intros Hp Hpe. set (w2 := emit e2 (emit e1 w)).
  assert (Hw2 : forall q, lookup_path q w2 = lookup_path q w) by (intros q; unfold lookup_path, w2; now rewrite !fs_of_emit).
  assert (Hpe2 : parent_error p w2 = None).
  { rewrite <- Hpe. unfold parent_error. destruct (path_dirname p); [reflexivity|]. now rewrite Hw2. }
  cbn [hrun hop]. fold w2. unfold open_w. rewrite Hw2, Hpe2.
  destruct (lookup_path p w) as [[]|]; [congruence| |];
    (eexists; split_and!; [reflexivity|rewrite lookup_path_update; now rewrite decide_True|]);
    intros q Hq; rewrite lookup_path_update, decide_False by congruence; apply Hw2.
Qed.

Lemma tstep_no_p p t (w : world) t' w' :
  Forall (no_p p) (t_ops t) -> tstep t w t' w' -> Forall (no_p p) (t_ops t') /\ lookup_path p w' = lookup_path p w.
Proof.
  intros Hn Hs. destruct Hs as [o os off w1 w1' off' E|o os off w1 w1' e off' E]; cbn [t_ops] in *.
  - inversion Hn as [|? ? Ho Hos]; subst. split; [exact Hos|].
    pose proof (hop_other o off w1 p Ho) as H. rewrite E in H. exact H.
  - apply hop_Err_world in E. now subst.
Qed.

Lemma rtc_keep_p p c c' :
  rtc c2step c c' -> Forall (no_p p) (t_ops (c_t1 c)) -> Forall (no_p p) (t_ops (c_t2 c)) ->
  lookup_path p (c2_world c') = lookup_path p (c2_world c).
Proof.
  induction 1 as [c|c1 c2 c3 Hs _ IH]; intros H1 H2; [reflexivity|].
  destruct Hs as [t1 t2 w t1' w' Ht|t1 t2 w t2' w' Ht]; cbn in *;
    [destruct (tstep_no_p _ _ _ _ _ H1 Ht) as [H1' E]|destruct (tstep_no_p _ _ _ _ _ H2 Ht) as [H2' E]];
    rewrite <- E; apply IH; assumption.
Qed.

Lemma sync_ops_split3 svc kept ent :
  sync_ops svc kept ent =
  [OEmit (ELog (str "Start indexing documentation")); OEmit (EGet DEVDOCS_INDEX_ALL_URL); OOpen (index_file svc)] ++
  (map (fun ch => OWrite (index_file svc) [ch]) (json_dump (JList kept)) ++
   (flat_map (fun x => body_ops svc ent (slug_of x)) kept ++ [OEmit (ELog (str "Index Finished"))])).
Proof. reflexivity. Qed.

Lemma index_file_parent_ok dir sel (w : world) :
  plain_dir dir = true -> lookup_path dir w = Some NDir -> parent_error (index_file (svc_of dir sel)) w = None.
Proof. intros Hd Hw. exact (parent_error_plain dir (str "index.json") w Hd eq_refl Hw). Qed.

Lemma index_file_neq_dir dir sel : plain_dir dir = true -> dir <> index_file (svc_of dir sel).
Proof. intros Hd E. exact (path_join_neq dir (str "index.json") Hd eq_refl (eq_sym E)). Qed.

(** (C31) Two syncs at once that write different [index.json] texts
    (the preference or [docs.json] changed between them) can leave a file
    that is neither: when both open [index.json] before either writes,
    and the first to open writes its whole text first, the file ends as
    the text of the second followed by the rest of the text of the first,
    and no later operation of either sync touches it again. *)
Theorem two_syncs_mixed_index dir sel1 sel2 docs1 docs2 ent1 ent2 (w : world) :
  plain_dir dir = true -> lookup_path dir w = Some NDir ->
  lookup_path (index_file (svc_of dir sel1)) w <> Some NDir ->
  Forall (fetchable (svc_of dir sel1) ent1 w) (kept_docs sel1 docs1) ->
  Forall (fetchable (svc_of dir sel2) ent2 w) (kept_docs sel2 docs2) ->
  exists c,
    rtc c2step (Conf2 (Thread (sync_ops (svc_of dir sel1) (kept_docs sel1 docs1) ent1) 0 None)
                      (Thread (sync_ops (svc_of dir sel2) (kept_docs sel2 docs2) ent2) 0 None) w) c /\
    lookup_path (index_file (svc_of dir sel1)) (c2_world c) =
      Some (NFile (json_dump (JList (kept_docs sel2 docs2)) ++
                   skipn (length (json_dump (JList (kept_docs sel2 docs2)))) (json_dump (JList (kept_docs sel1 docs1))))) /\
    forall c', rtc c2step c c' -> lookup_path (index_file (svc_of dir sel1)) (c2_world c') = lookup_path (index_file (svc_of dir sel1)) (c2_world c).
Proof.
  intros Hd Hdir Hp Hk1 Hk2. set (p := index_file (svc_of dir sel1)).
  pose proof (index_file_neq_dir dir sel1 Hd) as Hne.
  destruct (hrun_head p (ELog (str "Start indexing documentation")) (EGet DEVDOCS_INDEX_ALL_URL) 0 w Hp
              (index_file_parent_ok dir sel1 w Hd Hdir)) as (w1 & R1 & P1 & Q1).
  destruct (hrun_head p (ELog (str "Start indexing documentation")) (EGet DEVDOCS_INDEX_ALL_URL) 0 w1 ltac:(congruence)
              (index_file_parent_ok dir sel1 w1 Hd ltac:(rewrite Q1; auto))) as (w2 & R2 & P2 & Q2).
  destruct (hrun_writes_at p (json_dump (JList (kept_docs sel1 docs1))) 0 [] w2 P2) as (w3 & R3 & P3 & _).
  rewrite write_at_0, skipn_nil, app_nil_r in P3.
  destruct (hrun_writes_at p (json_dump (JList (kept_docs sel2 docs2))) 0 _ w3 P3) as (w4 & R4 & P4 & _).
  rewrite write_at_0 in P4.
  rewrite (sync_ops_split3 (svc_of dir sel1)), (sync_ops_split3 (svc_of dir sel2)).
  eexists. split_and!.
  - etrans; [exact (run_left _ _ _ _ _ _ _ R1)|].
    etrans; [exact (run_right _ _ _ _ _ _ _ R2)|].
    etrans; [exact (run_left _ _ _ _ _ _ _ R3)|].
    exact (run_right _ _ _ _ _ _ _ R4).
  - exact P4.
  - intros c' Hr. apply (rtc_keep_p _ _ _ Hr); [exact (loop_ops_paths _ _ _ _ w Hd Hk1)|exact (loop_ops_paths _ _ _ _ w Hd Hk2)].
Qed.

(** ** Witnesses *)

Lemma run_left_split n ops off (w : world) w' off' t2 :
  hrun (firstn n ops) off w = (w', Ok tt, off') ->
  rtc c2step (Conf2 (Thread ops off None) t2 w) (Conf2 (Thread (skipn n ops) off' None) t2 w').
Proof. intros H. rewrite <- (firstn_skipn n ops) at 1. exact (run_left _ _ _ _ _ _ _ H). Qed.

Lemma run_right_split n ops off (w : world) w' off' t1 :
  hrun (firstn n ops) off w = (w', Ok tt, off') ->
  rtc c2step (Conf2 t1 (Thread ops off None) w) (Conf2 t1 (Thread (skipn n ops) off' None) w').
Proof. intros H. rewrite <- (firstn_skipn n ops) at 1. exact (run_right _ _ _ _ _ _ _ H). Qed.

Lemma run_left_all ops off (w : world) w' off' t2 :
  hrun ops off w = (w', Ok tt, off') ->
  rtc c2step (Conf2 (Thread ops off None) t2 w) (Conf2 (Thread [] off' None) t2 w').
Proof. intros H. rewrite <- (app_nil_r ops) at 1. exact (run_left _ _ _ _ _ _ _ H). Qed.

Lemma run_right_all ops off (w : world) w' off' t1 :
  hrun ops off w = (w', Ok tt, off') ->
  rtc c2step (Conf2 t1 (Thread ops off None) w) (Conf2 t1 (Thread [] off' None) w').
Proof. intros H. rewrite <- (app_nil_r ops) at 1. exact (run_right _ _ _ _ _ _ _ H). Qed.

Lemma get_docs_corrupt_file svc query t (w : world) :
  lookup_path (index_file svc) w = Some (NFile t) -> json_load t = None ->
  snd (get_docs svc query w) = Err JSONDecodeError.
Proof. intros Hp Hc. unfold get_docs. now rewrite (pbind_Err _ _ _ _ _ (json_load_file_corrupt _ _ _ Hp Hc)). Qed.

(** A run of two syncs of [demo_world] with the preference ["javascript"]:
    the first opens [index.json] and writes 5 characters, the second
    opens it (truncating it), the first writes its 6th character at
    offset 5 (after a NUL gap), the second runs to the end, then the
    first. *)
Definition race_w1 : world := fst (fst (hrun (firstn 8 demo_ops) 0 demo_world)).
Definition race_w2 : world := fst (fst (hrun (firstn 3 demo_ops) 0 race_w1)).
Definition race_w3 : world := fst (fst (hrun (firstn 1 (skipn 8 demo_ops)) 5 race_w2)).
Definition race_w4 : world := fst (fst (hrun (skipn 3 demo_ops) 0 race_w3)).
Definition race_w5 : world := fst (fst (hrun (skipn 1 (skipn 8 demo_ops)) 6 race_w4)).

Lemma two_syncs_same_index_witness :
  lookup_path (index_file demo_svc) race_w3 =
    Some (NFile (repeat NUL 5 ++ firstn 1 (skipn 5 (json_dump (JList (kept_docs (JStr (str "javascript")) demo_docs)))))) /\
  lookup_path (index_file demo_svc) race_w5 =
    Some (NFile (json_dump (JList (kept_docs (JStr (str "javascript")) demo_docs)))).
Proof.
  split; [vm_compute; reflexivity|].
  apply (two_syncs_same_index (str "/c") (JStr (str "javascript")) demo_docs demo_entries demo_entries demo_world 0 0
           (Conf2 (Thread [] (snd (hrun (skipn 1 (skipn 8 demo_ops)) 6 race_w4)) None)
                  (Thread [] (snd (hrun (skipn 3 demo_ops) 0 race_w3)) None) race_w5)); [concrete|concrete|concrete| |split; reflexivity..].
  etrans; [apply (run_left_split 8 _ _ _ race_w1 5); vm_compute; reflexivity|].
  etrans; [apply (run_right_split 3 _ _ _ race_w2 0); vm_compute; reflexivity|].
  etrans; [apply (run_left_split 1 _ _ _ race_w3 6); vm_compute; reflexivity|].
  etrans; [apply (run_right_all _ _ _ race_w4); vm_compute; reflexivity|].
  apply (run_left_all _ _ _ race_w5); vm_compute; reflexivity.
Defined.

(** The preference is ["javascript"] for one sync (it keeps [javascript]
    and [java]) and ["python"] for the other: after the run of
    [two_syncs_mixed_index], [get_docs()] raises [JSONDecodeError], and
    keeps raising it whatever either sync does next. *)
Lemma two_syncs_mixed_index_witness :
  exists c,
    rtc c2step (Conf2 (Thread demo_ops 0 None)
                      (Thread (sync_ops (svc_of (str "/c") (JStr (str "python")))
                                        (kept_docs (JStr (str "python")) demo_docs) demo_entries) 0 None) demo_world) c /\
    forall c', rtc c2step c c' -> snd (get_docs demo_svc None (c2_world c')) = Err JSONDecodeError.
Proof.
  destruct (two_syncs_mixed_index (str "/c") (JStr (str "javascript")) (JStr (str "python")) demo_docs demo_docs
              demo_entries demo_entries demo_world) as (c & Hr & Hp & Hk); [concrete..|].
  exists c. split; [exact Hr|]. intros c' Hc'. rewrite <- (Hk c' Hc') in Hp.
  exact (get_docs_corrupt_file _ _ _ _ Hp ltac:(vm_compute; reflexivity)).
Defined.
