(* ===== verification/Extension.v ===== *)
(** * The launcher extension: src/main.py

    [DevdocsExtension] holds a [DevDocsService] and answers the launcher's
    events through four listeners:
    - [KeywordQueryEventListener.on_event] (lines 202-223) routes a query
      to [show_options_menu], [show_entries] or [list_available_docs];
    - [PreferencesEventListener] and [PreferencesUpdateEventListener]
      (lines 232-248) set the documents to fetch and run [index_docs];
    - [ItemEnterEventListener] (lines 254-257) runs [index_docs];
    - [index_docs] (lines 52-61) runs [index()], shows a notification and
      starts a [threading.Timer] that runs [index_docs] again a day later.

    The state [ext] is the world of the service, the service's fields,
    the preferences the launcher stores in [extension.preferences], the
    directory of main.py ([os.path.dirname(__file__)], where the icons
    are) and the number of pending timers.  Rendering is data: an
    [item] per [ExtensionResultItem], an [action] per action class.

    Theorems: keyword queries change nothing; [Section Keeps] shows that a
    preorder on worlds kept by [index] and by notifications is kept by
    every handler, hence between the first state and every reachable one;
    with [grows] this gives the cache layout invariant, and with
    [json_files] that every file the extension changed holds a complete
    JSON text ([reachable_json_files]) -- in this model, where [step] runs
    each handler, the timer's [index_docs] included, as one step; with two
    timer threads at once this fails (TwoSyncs.v).  Also the routing of
    queries, the timers, the bounds of the lists and the URL of a page. *)

From Stdlib Require Import Ascii String List Bool Arith ZArith Lia.
From stdpp Require Import base gmap strings.
From S2P Require Import Prelude PyStr Json JsonText CacheStore Service.
Import ListNotations.
Local Open Scope py_scope.

(** The actions of [ulauncher.api.shared.action] the code builds. *)
Inductive action : Type :=
| RunScriptAction (script : pystr)
| OpenAction (path : pystr)
| OpenUrlAction (url : pystr)
| SetUserQueryAction (query : pystr)
| HideWindowAction
| ExtensionCustomAction.

(** [ExtensionResultItem(icon=, name=, description=, highlightable=,
    on_enter=, on_alt_enter=)], with the class's defaults
    ([description=None], [highlightable=True], [on_alt_enter=None]). *)
Record item : Type := {
  it_icon : pystr;
  it_name : json;
  it_description : json;
  it_highlightable : bool;
  it_on_enter : action;
  it_on_alt_enter : option action;
}.

(** What a listener returns: [RenderResultListAction(items)], another
    action, or [None]. *)
Inductive response : Type :=
| Render (items : list item)
| Respond (a : action)
| NoResponse.

Record ext : Type := {
  ext_world : world;
  ext_svc : service;
  ext_prefs : json;      (** [self.preferences], a dict of [str] *)
  ext_base : pystr;      (** [os.path.dirname(__file__)] *)
  ext_timers : nat;      (** started [Timer]s that have not fired *)
}.

Definition set_world (w : world) (e : ext) : ext :=
  {| ext_world := w; ext_svc := ext_svc e; ext_prefs := ext_prefs e; ext_base := ext_base e;
     ext_timers := ext_timers e |}.

Definition set_svc (svc : service) (e : ext) : ext :=
  {| ext_world := ext_world e; ext_svc := svc; ext_prefs := ext_prefs e; ext_base := ext_base e;
     ext_timers := ext_timers e |}.

Definition set_timers (n : nat) (e : ext) : ext :=
  {| ext_world := ext_world e; ext_svc := ext_svc e; ext_prefs := ext_prefs e; ext_base := ext_base e;
     ext_timers := n |}.

Definition set_prefs (p : json) (e : ext) : ext :=
  {| ext_world := ext_world e; ext_svc := ext_svc e; ext_prefs := p; ext_base := ext_base e;
     ext_timers := ext_timers e |}.

(** A call of the service: it runs on the world of the extension. *)
Definition on_world {A} (m : PyM world A) : PyM ext A :=
  fun e => let '(w', r) := m (ext_world e) in (set_world w' e, r).

Definition dq : pystr := [Ascii.ascii_of_nat 34].

(** [a + b] on two [str]s. *)
Definition py_concat (a b : json) : res json :=
  match a, b with
  | JStr x, JStr y => Ok (JStr (x ++ y))
  | JStr _, _ => Err (TypeError (str "can only concatenate str (not " ++ dq ++ type_name b ++ dq ++ str ") to str"))
  | _, _ => Err (TypeError (str "unsupported operand type(s) for +: " ++ type_name a ++ str " and str"))
  end.

(** [get_icon(doc_slug)] *)
Definition get_icon (base : pystr) (doc_slug : json) : PyM world pystr :=
  let images := path_join base (str "images") in
  ex <- os_path_exists (path_join images (py_str doc_slug ++ str ".png")) ;;
  if ex then pret (str "images/" ++ py_str doc_slug ++ str ".png")
  else
    base_doc <- lift (match doc_slug with
                      | JStr s => Ok (hd [] (py_split "~"%char s))
                      | _ => Err (AttributeError (type_name doc_slug ++ str " object has no attribute split"))
                      end) ;;
    ex' <- os_path_exists (path_join images (base_doc ++ str ".png")) ;;
    if ex' then pret (str "images/" ++ base_doc ++ str ".png")
    else pret (str "images/icon.png").

(** [open_in_devdocs(doc, entry)]; [entry] is [None] when not given. *)
Definition open_in_devdocs (prefs : json) (doc : json) (entry : option json) : res action :=
  let? open_result_in := getitem prefs (str "open_doc_in") in
  let? doc_path :=
    match entry with
    | Some e => if py_truthy e then let? p := py_concat doc (JStr (str "/")) in py_concat p e else Ok doc
    | None => Ok doc
    end in
  let doc_url := str "https://devdocs.io/" ++ py_str doc_path in
  if py_eq open_result_in (JStr (str "Hawkeye"))
  then Ok (RunScriptAction (str "hawkeye --uri=" ++ dq ++ doc_url ++ dq))
  else if py_eq open_result_in (JStr (str "DevDocs Protocol"))
  then Ok (OpenAction (str "devdocs://" ++ py_str doc_path))
  else Ok (OpenUrlAction doc_url).

(** The item shown when a list is empty. *)
Definition empty_item (msg : string) : item :=
  {| it_icon := str "images/icon.png"; it_name := JStr (str msg); it_description := JNull;
     it_highlightable := false; it_on_enter := HideWindowAction; it_on_alt_enter := None |}.

(** The body of the loop of [list_available_docs]. *)
Definition doc_item (base : pystr) (prefs : json) (keyword : pystr) (doc : json) : PyM world item :=
  slug <- lift (getitem doc (str "slug")) ;;
  icon <- get_icon base slug ;;
  name <- lift (getitem doc (str "name")) ;;
  desc <- lift (dict_get doc (str "release") (JStr [])) ;;
  alt <- lift (open_in_devdocs prefs slug None) ;;
  pret {| it_icon := icon; it_name := name; it_description := desc; it_highlightable := true;
          it_on_enter := SetUserQueryAction (keyword ++ str " " ++ py_str slug ++ str ":");
          it_on_alt_enter := Some alt |}.

(** [list_available_docs(keyword, query)] *)
Definition list_available_docs (keyword query : pystr) : PyM ext response :=
  e <- pget ;;
  docs <- on_world (get_docs (ext_svc e) (Some query)) ;;
  if negb (py_truthy docs)
  then pret (Render [empty_item "No documentation found matching your criteria"])
  else
    first <- lift (py_slice_to docs 10) ;;
    ds <- lift (py_iter first) ;;
    items <- on_world (map_m (doc_item (ext_base e) (ext_prefs e) keyword) ds) ;;
    pret (Render items).

(** The body of the loop of [show_entries]. *)
Definition entry_item (base : pystr) (prefs : json) (doc_slug : pystr) (entry : json) : PyM world item :=
  icon <- get_icon base (JStr doc_slug) ;;
  name <- lift (getitem entry (str "name")) ;;
  desc <- lift (getitem entry (str "type")) ;;
  path <- lift (getitem entry (str "path")) ;;
  act <- lift (open_in_devdocs prefs (JStr doc_slug) (Some path)) ;;
  pret {| it_icon := icon; it_name := name; it_description := desc; it_highlightable := true;
          it_on_enter := act; it_on_alt_enter := None |}.

(** [show_entries(doc_slug, query)] *)
Definition show_entries (doc_slug query : pystr) : PyM ext response :=
  e <- pget ;;
  entries <- on_world (get_doc_entries (ext_svc e) doc_slug query) ;;
  if negb (py_truthy entries)
  then pret (Render [empty_item "No entries found matching your criteria"])
  else
    first <- lift (py_slice_to entries 8) ;;
    es <- lift (py_iter first) ;;
    items <- on_world (map_m (entry_item (ext_base e) (ext_prefs e) doc_slug) es) ;;
    pret (Render items).

(** [show_options_menu(query)] *)
Definition show_options_menu (query : pystr) : PyM ext response :=
  e <- pget ;;
  pret (Render [
    {| it_icon := str "images/icon.png"; it_name := JStr (str "Open DevDocs.io");
       it_description := JStr (str "Opens DevDocs on your default browser"); it_highlightable := false;
       it_on_enter := OpenUrlAction (str "https://devdocs.io/"); it_on_alt_enter := None |};
    {| it_icon := str "images/icon.png"; it_name := JStr (str "Open cache folder");
       it_description := JStr (str "Opens the folder where the documentation cache is stored");
       it_highlightable := false; it_on_enter := OpenAction (cache_dir (ext_svc e)); it_on_alt_enter := None |};
    {| it_icon := str "images/icon.png"; it_name := JStr (str "Index Documentation");
       it_description := JStr (str "This process might take a while. You will receive a notification when finished.");
       it_highlightable := false; it_on_enter := ExtensionCustomAction; it_on_alt_enter := None |}]).

(** [KeywordQueryEventListener.on_event]: [arg] is [event.get_argument()]. *)
Definition on_keyword (arg : option pystr) (keyword : pystr) : PyM ext response :=
  let query := match arg with Some q => q | None => [] end in
  if py_startswith query (str "!") then show_options_menu (py_strip_chars (str "!") query)
  else
    e <- pget ;;
    d <- on_world (get_doc_by_slug (ext_svc e) keyword) ;;
    if py_truthy d then show_entries keyword query
    else if nonempty query then
      let args := py_split ":"%char query in
      if length args =? 2 then show_entries (nth 0 args []) (nth 1 args [])
      else list_available_docs keyword query
    else list_available_docs keyword query.

(** [index_docs()]: the sync, the notification, and a new [Timer]. *)
Definition index_docs : PyM ext unit :=
  e <- pget ;;
  on_world (index (ext_svc e)) ;;
  on_world (pmodify (emit (ENotify (str "Ulauncher Devdocs") (str "Index Finished")))) ;;
  pmodify (fun e => set_timers (S (ext_timers e)) e).

(** [extension.devdocs_svc.set_docs_to_fetch(docs)] *)
Definition set_docs (docs : json) : PyM ext unit :=
  pmodify (fun e => set_svc (set_docs_to_fetch (ext_svc e) docs) e).

(** [PreferencesEventListener.on_event] *)
Definition on_preferences (prefs : json) : PyM ext response :=
  docs <- lift (getitem prefs (str "docs")) ;;
  set_docs docs ;; index_docs ;; pret NoResponse.

(** [PreferencesUpdateEventListener.on_event] *)
Definition on_preferences_update (id : pystr) (new_value : json) : PyM ext response :=
  if pystr_eqb id (str "docs") then set_docs new_value ;; index_docs ;; pret NoResponse
  else pret NoResponse.

(** [ItemEnterEventListener.on_event] *)
Definition on_item_enter : PyM ext response := index_docs ;; pret (Respond HideWindowAction).

(** [DevdocsExtension.__init__]: the log line and the service on
    [os.path.join(CACHE_DIR, 'devdocs')]. *)
Definition extension_init (cache_root base : pystr) : PyM world ext :=
  log_info (str "Initializing DevDocs extension") ;;
  svc <- service_init (path_join cache_root (str "devdocs")) ;;
  w <- pget ;;
  pret {| ext_world := w; ext_svc := svc; ext_prefs := JObj []; ext_base := base; ext_timers := 0 |}.

(** A fired [Timer]: the thread runs [index_docs]; an exception ends the
    thread, and with it that chain of timers. *)
Definition on_timer : PyM ext response :=
  fun e =>
    match ext_timers e with
    | 0 => (e, Ok NoResponse)
    | S n => (fst (index_docs (set_timers n e)), Ok NoResponse)
    end.

(** ** The launcher's side

    The launcher (the [ulauncher] package, not code of the repository)
    stores the preferences in [extension.preferences] before it calls the
    listeners: the whole dict on a [PreferencesEvent], one key on a
    [PreferencesUpdateEvent]. *)

(** [d[k] = v] on a dict. *)
Definition dict_set (d : json) (k : pystr) (v : json) : json :=
  match d with
  | JObj kvs => JObj (dict_insert k v kvs)
  | _ => d
  end.

Inductive ui_event : Type :=
| EvKeyword (arg : option pystr) (keyword : pystr)
| EvPreferences (prefs : json)
| EvPreferencesUpdate (id : pystr) (new_value : json)
| EvItemEnter
| EvTimer.

Definition handle (ev : ui_event) : PyM ext response :=
  match ev with
  | EvKeyword arg keyword => on_keyword arg keyword
  | EvPreferences prefs => pmodify (set_prefs prefs) ;; on_preferences prefs
  | EvPreferencesUpdate id v =>
      pmodify (fun e => set_prefs (dict_set (ext_prefs e) id v) e) ;; on_preferences_update id v
  | EvItemEnter => on_item_enter
  | EvTimer => on_timer
  end.

(** One event handled; an exception a listener raises is logged by the
    launcher, and what the listener did before it stays done. *)
Inductive step : ext -> ext -> Prop :=
| step_handle ev e e' r : handle ev e = (e', r) -> step e e'.

Inductive reachable (e0 : ext) : ext -> Prop :=
| reach_init : reachable e0 e0
| reach_step e e' : reachable e0 e -> step e e' -> reachable e0 e'.

(** ** Queries do not change the state *)

Definition ext_read_only {A} (m : PyM ext A) : Prop := forall e, fst (m e) = e.

Lemma read_only_map_m {A B} (f : A -> PyM world B) l :
  (forall x, read_only (f x)) -> read_only (map_m f l).
Proof. intros Hf. induction l as [|x l IH]; cbn [map_m]; read_only_steps. Qed.

Lemma read_only_get_icon base slug : read_only (get_icon base slug).
Proof. unfold get_icon. read_only_steps. Qed.

#[export] Hint Resolve read_only_get_icon : devdocs.

Lemma read_only_doc_item base prefs keyword doc : read_only (doc_item base prefs keyword doc).
Proof. unfold doc_item. read_only_steps. Qed.

Lemma read_only_entry_item base prefs doc_slug entry : read_only (entry_item base prefs doc_slug entry).
Proof. unfold entry_item. read_only_steps. Qed.

#[export] Hint Resolve read_only_doc_item read_only_entry_item : devdocs.

Lemma ext_read_only_on_world {A} (m : PyM world A) : read_only m -> ext_read_only (on_world m).
Proof.
  intros Hm e. unfold on_world. specialize (Hm (ext_world e)).
  destruct (m (ext_world e)) as [w' r]. cbn in Hm |- *. subst. now destruct e.
Qed.

Lemma ext_read_only_pret {A} (a : A) : ext_read_only (pret a).
Proof. intros e. reflexivity. Qed.

Lemma ext_read_only_lift {A} (r : res A) : ext_read_only (lift r).
Proof. intros e. reflexivity. Qed.

Lemma ext_read_only_pget : ext_read_only pget.
Proof. intros e. reflexivity. Qed.

Lemma ext_read_only_pbind {A B} (m : PyM ext A) (k : A -> PyM ext B) :
  ext_read_only m -> (forall a, ext_read_only (k a)) -> ext_read_only (pbind m k).
Proof.
  intros Hm Hk e. unfold pbind. specialize (Hm e).
  destruct (m e) as [e' [a|x]]; cbn in Hm; subst; [apply Hk|reflexivity].
Qed.

#[export] Hint Resolve ext_read_only_pret ext_read_only_lift ext_read_only_pget : devdocs.

(** Proves [ext_read_only] of a handler made of reads. *)
Ltac ext_read_only_steps :=
  repeat first
    [ progress auto with devdocs
    | apply ext_read_only_on_world; unfold get_docs, get_doc_entries, get_doc_by_slug;
      read_only_steps; apply read_only_map_m; auto with devdocs
    | apply ext_read_only_pbind; [|intros ?]
    | match goal with
      | |- ext_read_only (match ?x with _ => _ end) => destruct x
      | |- ext_read_only (if ?b then _ else _) => destruct b
      end ].

Lemma ext_read_only_list_available_docs keyword query : ext_read_only (list_available_docs keyword query).
Proof. unfold list_available_docs. ext_read_only_steps. Qed.

Lemma ext_read_only_show_entries doc_slug query : ext_read_only (show_entries doc_slug query).
Proof. unfold show_entries. ext_read_only_steps. Qed.

#[export] Hint Resolve ext_read_only_list_available_docs ext_read_only_show_entries : devdocs.

Lemma ext_read_only_on_keyword arg keyword : ext_read_only (on_keyword arg keyword).
Proof. unfold on_keyword, show_options_menu. ext_read_only_steps. Qed.

(** (C16) A keyword query never changes the state of the extension: it
    writes nothing to the cache, requests nothing from the network, logs
    nothing and starts no timer, on every path, whether it returns a
    list or raises. *)
Theorem keyword_event_read_only arg keyword e : fst (handle (EvKeyword arg keyword) e) = e.
Proof. exact (ext_read_only_on_keyword arg keyword e). Qed.

(** ** What every handler keeps

    The handlers change the world only through [index] and the
    notifications they emit, and change the service only through
    [set_docs_to_fetch].  A preorder [R] on worlds that [index] and
    [emit] keep is therefore kept by every handler, whether it returns
    or raises, and holds between the first state and every reachable
    one ([reachable_rel]).  [grows] gives the layout invariant below,
    [json_files] the validity of the cache files. *)

(** The paths of the service: [set_docs_to_fetch] does not move them. *)
Definition same_paths (s s' : service) : Prop :=
  cache_dir s' = cache_dir s /\ index_file s' = index_file s /\ entries_dir s' = entries_dir s.

Lemma same_paths_refl s : same_paths s s.
Proof. repeat split. Qed.

Lemma same_paths_trans s1 s2 s3 : same_paths s1 s2 -> same_paths s2 s3 -> same_paths s1 s3.
Proof. unfold same_paths. intuition congruence. Qed.

Section Keeps.
Variable R : world -> world -> Prop.
Hypothesis R_refl : forall w, R w w.
Hypothesis R_trans : forall w1 w2 w3, R w1 w2 -> R w2 w3 -> R w1 w3.
Hypothesis R_emit : forall ev, rel_op R (pmodify (@emit world _ ev)).
Hypothesis R_index : forall svc, rel_op R (index svc).

(** [e'] is [e] with its world moved along [R] and its paths kept. *)
Definition ext_rel (e e' : ext) : Prop :=
  R (ext_world e) (ext_world e') /\ same_paths (ext_svc e) (ext_svc e').

Lemma ext_rel_refl e : ext_rel e e.
Proof. split; [apply R_refl|apply same_paths_refl]. Qed.

Lemma ext_rel_trans e1 e2 e3 : ext_rel e1 e2 -> ext_rel e2 e3 -> ext_rel e1 e3.
Proof. intros [G P] [G' P']. split; [exact (R_trans _ _ _ G G')|exact (same_paths_trans _ _ _ P P')]. Qed.

Lemma ext_rel_read_only {A} (m : PyM ext A) : ext_read_only m -> rel_op ext_rel m.
Proof. intros Hm e. rewrite Hm. apply ext_rel_refl. Qed.

Lemma ext_rel_on_world {A} (m : PyM world A) : rel_op R m -> rel_op ext_rel (on_world m).
Proof.
  intros Hm e. unfold on_world. specialize (Hm (ext_world e)).
  destruct (m (ext_world e)) as [w' r]. split; [exact Hm|apply same_paths_refl].
Qed.

Lemma ext_rel_modify (f : ext -> ext) :
  (forall e, ext_world (f e) = ext_world e /\ same_paths (ext_svc e) (ext_svc (f e))) ->
  rel_op ext_rel (pmodify f).
Proof. intros Hf e. destruct (Hf e) as [Hw P]. split; cbn [pmodify fst]; [rewrite Hw; apply R_refl|exact P]. Qed.

Lemma ext_rel_index_docs : rel_op ext_rel index_docs.
Proof.
  unfold index_docs. apply (rel_op_pbind _ ext_rel_trans); [apply ext_rel_read_only, ext_read_only_pget|intros e0].
  apply (rel_op_pbind _ ext_rel_trans); [apply ext_rel_on_world, R_index|intros _].
  apply (rel_op_pbind _ ext_rel_trans); [apply ext_rel_on_world, R_emit|intros _].
  apply ext_rel_modify. intros e. split; [reflexivity|apply same_paths_refl].
Qed.

(** A listener that sets the documents to fetch and runs [index_docs]. *)
Lemma ext_rel_set_and_index docs : rel_op ext_rel (set_docs docs ;; index_docs ;; pret NoResponse).
Proof.
  apply (rel_op_pbind _ ext_rel_trans); [apply ext_rel_modify; intros e; repeat split|intros _].
  apply (rel_op_pbind _ ext_rel_trans); [exact ext_rel_index_docs|intros _].
  apply rel_op_pret, ext_rel_refl.
Qed.

Lemma ext_rel_on_timer : rel_op ext_rel on_timer.
Proof.
  intros e. unfold on_timer. destruct (ext_timers e) as [|n]; [apply ext_rel_refl|].
  apply (ext_rel_trans _ (set_timers n e)); [split; [apply R_refl|apply same_paths_refl]|].
  apply ext_rel_index_docs.
Qed.

Lemma ext_rel_handle ev : rel_op ext_rel (handle ev).
Proof.
  assert (Hp : forall f, rel_op ext_rel (pmodify (fun e => set_prefs (f e) e)))
    by (intros f; apply ext_rel_modify; intros e; repeat split).
  destruct ev; cbn [handle].
  - apply ext_rel_read_only, ext_read_only_on_keyword.
  - apply (rel_op_pbind _ ext_rel_trans); [apply (Hp (fun _ => prefs))|intros _].
    apply (rel_op_pbind _ ext_rel_trans); [apply rel_op_lift, ext_rel_refl|intros docs].
    apply ext_rel_set_and_index.
  - apply (rel_op_pbind _ ext_rel_trans); [apply Hp|intros _].
    unfold on_preferences_update. destruct (pystr_eqb id (str "docs"));
      [apply ext_rel_set_and_index|apply rel_op_pret, ext_rel_refl].
  - unfold on_item_enter. apply (rel_op_pbind _ ext_rel_trans); [exact ext_rel_index_docs|intros _].
    apply rel_op_pret, ext_rel_refl.
  - exact ext_rel_on_timer.
Qed.

(** [R] holds between the first state and every reachable one. *)
Lemma reachable_rel e0 e : reachable e0 e -> ext_rel e0 e.
Proof.
  induction 1 as [|e e' _ IH Hs]; [apply ext_rel_refl|]. destruct Hs as [ev e e' r Hh].
  apply (ext_rel_trans _ _ _ IH). pose proof (ext_rel_handle ev e) as Hk. now rewrite Hh in Hk.
Qed.
End Keeps.

(** The cache as [__init__] leaves it: the cache directory and
    [index.json] exist, and [entries] is a directory. *)
Definition layout_ok (e : ext) : Prop :=
  lookup_path (cache_dir (ext_svc e)) (ext_world e) <> None /\
  lookup_path (index_file (ext_svc e)) (ext_world e) <> None /\
  lookup_path (entries_dir (ext_svc e)) (ext_world e) = Some NDir.

Lemma reachable_layout e0 e : layout_ok e0 -> reachable e0 e -> layout_ok e.
Proof.
  intros H0 R. destruct (reachable_rel grows grows_refl grows_trans grows_emit grows_index e0 e R)
    as [G [Pc [Pi Pe]]].
  destruct H0 as (Hc & Hi & He). unfold layout_ok. rewrite Pc, Pi, Pe.
  split; [apply (G _), Hc|split; [apply (G _), Hi|apply (G _), He]].
Qed.

Lemma extension_init_layout root base (w w' : world) e0 :
  final_tail (path_join root (str "devdocs")) <> str "." ->
  extension_init root base w = (w', Ok e0) -> layout_ok e0.
Proof.
  intros Ht Hrun. unfold extension_init, log_info, pmodify, pbind at 1 in Hrun.
  apply pbind_Ok_inv in Hrun as (w1 & svc & Hs & Hrun). cbn in Hrun. injection Hrun as <- <-.
  unfold service_init in Hs. apply pbind_Ok_inv in Hs as (w2 & [] & Hs & Hr). injection Hr as <- <-.
  exact (ensure_cache_dirs_post (make_service (path_join root (str "devdocs"))) _ _ Ht Hs).
Qed.

(** (C15) From the state [DevdocsExtension()] creates, whatever events the
    launcher sends, in any order and whether the handlers return or
    raise, the cache layout of [ensure_cache_dirs] stays in place: the
    cache directory and [index.json] stay present and [entries] stays a
    directory. *)
Theorem extension_layout_invariant root base (w w' : world) e0 e :
  final_tail (path_join root (str "devdocs")) <> str "." ->
  extension_init root base w = (w', Ok e0) -> reachable e0 e -> layout_ok e.
Proof. intros Ht Hi R. exact (reachable_layout e0 e (extension_init_layout _ _ _ _ _ Ht Hi) R). Qed.

(** ** The cache files hold JSON documents between events *)

Lemma extension_init_json_files root base (w w' : world) e0 :
  extension_init root base w = (w', Ok e0) -> json_files w (ext_world e0).
Proof.
  intros Hrun. unfold extension_init, log_info in Hrun.
  apply pbind_Ok_inv in Hrun as (w1 & [] & E1 & Hrun).
  apply pbind_Ok_inv in Hrun as (w2 & svc & E2 & Hrun). cbn in Hrun. injection Hrun as <- <-. cbn [ext_world].
  apply (json_files_trans _ w1); [exact (json_files_run _ _ _ _ (json_files_emit _) E1)|].
  unfold service_init in E2. apply pbind_Ok_inv in E2 as (w3 & [] & E3 & E4). injection E4 as <- _.
  exact (json_files_run _ _ _ _ (json_files_ensure_cache_dirs _) E3).
Qed.

Lemma reachable_json_files root base (w w' : world) e0 e :
  extension_init root base w = (w', Ok e0) -> reachable e0 e -> json_files w (ext_world e).
Proof.
  intros Hi R. apply (json_files_trans _ (ext_world e0)); [exact (extension_init_json_files _ _ _ _ _ Hi)|].
  exact (proj1 (reachable_rel json_files json_files_refl json_files_trans json_files_emit json_files_index e0 e R)).
Qed.

(** ** Routing of a keyword query *)

Lemma on_world_read e {A} (m : PyM world A) r :
  m (ext_world e) = (ext_world e, r) -> on_world m e = (e, r).
Proof. intros Hm. unfold on_world. rewrite Hm. now destruct e. Qed.

(** The test [extension.devdocs_svc.get_doc_by_slug(keyword)] on a
    stored index. *)
Lemma on_keyword_lookup e arg keyword docs :
  py_startswith (match arg with Some q => q | None => [] end) (str "!") = false ->
  lookup_path (index_file (ext_svc e)) (ext_world e) = Some (NFile (json_dump (JList docs))) ->
  json_wf (JList docs) -> Forall (fun x => getitem x (str "slug") = Ok (JStr (slug_of x))) docs ->
  on_keyword arg keyword e =
  (let query := match arg with Some q => q | None => [] end in
   if py_truthy (first_by_slug keyword docs) then show_entries keyword query e
   else if nonempty query then
     let args := py_split ":"%char query in
     if length args =? 2 then show_entries (nth 0 args []) (nth 1 args []) e
     else list_available_docs keyword query e
   else list_available_docs keyword query e).
Proof.
  intros Hb Hp Hwf Hs. unfold on_keyword. rewrite Hb. unfold pbind at 1, pget.
  unfold pbind. rewrite (on_world_read e _ _ (get_doc_by_slug_stored _ keyword _ _ Hp Hwf Hs)).
  cbv beta zeta. repeat match goal with |- context [if ?b then _ else _] => destruct b end; reflexivity.
Qed.

(** (C18) A query [doc:term] (one colon, not starting with [!]) whose
    keyword is not the slug of a stored document shows the entries of
    [doc] that match [term]. *)
Theorem on_keyword_doc_term e keyword s t docs :
  ~ In ":"%char s -> ~ In ":"%char t -> py_startswith (s ++ ":"%char :: t) (str "!") = false ->
  lookup_path (index_file (ext_svc e)) (ext_world e) = Some (NFile (json_dump (JList docs))) ->
  json_wf (JList docs) -> Forall (fun x => getitem x (str "slug") = Ok (JStr (slug_of x))) docs ->
  first_by_slug keyword docs = JNull ->
  on_keyword (Some (s ++ ":"%char :: t)) keyword e = show_entries s t e.
Proof.
  intros Hs Ht Hb Hp Hwf Hsl Hn. rewrite (on_keyword_lookup e (Some (s ++ ":"%char :: t)) keyword docs Hb Hp Hwf Hsl).
  cbv zeta. rewrite Hn. cbn [py_truthy].
  replace (nonempty (s ++ ":"%char :: t)) with true by (destruct s; reflexivity).
  now rewrite py_split_app_sep, py_split_no_sep by assumption.
Qed.

(** (C19) A query typed after the keyword of a stored document (one whose
    slug is the keyword) shows the entries of that document that match
    the whole query. *)
Theorem on_keyword_known_doc e keyword arg docs :
  py_startswith (match arg with Some q => q | None => [] end) (str "!") = false ->
  lookup_path (index_file (ext_svc e)) (ext_world e) = Some (NFile (json_dump (JList docs))) ->
  json_wf (JList docs) -> Forall (fun x => getitem x (str "slug") = Ok (JStr (slug_of x))) docs ->
  py_truthy (first_by_slug keyword docs) = true ->
  on_keyword arg keyword e = show_entries keyword (match arg with Some q => q | None => [] end) e.
Proof.
  intros Hb Hp Hwf Hsl Hk. rewrite (on_keyword_lookup e arg keyword docs Hb Hp Hwf Hsl).
  cbv zeta. now rewrite Hk.
Qed.

(** ** Timers *)

Lemma index_docs_timers e :
  ext_timers (fst (index_docs e)) =
  match snd (index (ext_svc e) (ext_world e)) with Ok _ => S (ext_timers e) | Err _ => ext_timers e end.
Proof.
  unfold index_docs, pbind at 1, pget, pbind at 1, on_world.
  destruct (index (ext_svc e) (ext_world e)) as [w' [[]|x]]; reflexivity.
Qed.

(** (C17) Timers are never coalesced: a change of the [docs] preference
    whose sync succeeds starts one more [Timer] chain next to those
    already pending, and a timer that fires and syncs successfully
    starts its successor, so the number of pending timers only grows
    while syncs succeed; a timer whose sync fails ends its chain. *)
Theorem timers_accumulate e v n :
  (snd (index (set_docs_to_fetch (ext_svc e) v) (ext_world e)) = Ok tt ->
   ext_timers (fst (handle (EvPreferencesUpdate (str "docs") v) e)) = S (ext_timers e)) /\
  (ext_timers e = S n ->
   ext_timers (fst (handle EvTimer e)) =
   match snd (index (ext_svc e) (ext_world e)) with Ok _ => S n | Err _ => n end).
Proof.
  split.
  - intros Hok. cbn [handle].
    change (ext_timers (fst (on_preferences_update (str "docs") v
              (set_prefs (dict_set (ext_prefs e) (str "docs") v) e))) = S (ext_timers e)).
    unfold on_preferences_update. rewrite pystr_eqb_refl.
    change (ext_timers (fst (pbind index_docs (fun _ => pret NoResponse)
              (set_svc (set_docs_to_fetch (ext_svc e) v) (set_prefs (dict_set (ext_prefs e) (str "docs") v) e))))
            = S (ext_timers e)).
    rewrite pbind_pret_fst, index_docs_timers. cbn [ext_svc ext_world ext_timers set_svc set_prefs].
    now rewrite Hok.
  - intros Hn. cbn [handle]. unfold on_timer. rewrite Hn. cbn [fst].
    rewrite index_docs_timers. reflexivity.
Qed.

(** ** Rendered lists *)

Lemma py_iter_slice_le x n f l : py_slice_to x n = Ok f -> py_iter f = Ok l -> length l <= n.
Proof.
  destruct x; cbn; intros Hs; try discriminate; injection Hs as <-; cbn; intros Hl; injection Hl as <-.
  - rewrite length_map. apply firstn_le_length.
  - apply firstn_le_length.
Qed.

Lemma on_world_Ok {A} (m : PyM world A) e e' a :
  on_world m e = (e', Ok a) -> exists w', m (ext_world e) = (w', Ok a) /\ e' = set_world w' e.
Proof. unfold on_world. destruct (m (ext_world e)) as [w' r]. intros [= <- ->]. eauto. Qed.

(** The loop of [list_available_docs] and [show_entries] renders at
    most [n] items: one per element of [v[:n]]. *)
Lemma render_tail_bounded v n (mk : json -> PyM world item) e e' items :
  (first <- lift (py_slice_to v n) ;; ds <- lift (py_iter first) ;;
   its <- on_world (map_m mk ds) ;; pret (Render its)) e = (e', Ok (Render items)) ->
  length items <= n.
Proof.
  intros H. apply pbind_Ok_inv in H as (e1 & first & H1 & H). injection H1 as <- Hf.
  apply pbind_Ok_inv in H as (e2 & ds & H2 & H). injection H2 as <- Hd.
  apply pbind_Ok_inv in H as (e3 & its & H3 & H). injection H as _ <-.
  apply on_world_Ok in H3 as (w' & Hm & _). rewrite (map_m_length _ _ _ _ _ Hm).
  exact (py_iter_slice_le _ _ _ _ Hf Hd).
Qed.

(** (C21) The launcher is shown at most 10 documents and at most 8
    entries: [list_available_docs] renders [docs[:10]] and
    [show_entries] renders [entries[:8]] (or the single item that says
    nothing matched). *)
Theorem rendered_lists_bounded keyword query doc_slug e e' items :
  (list_available_docs keyword query e = (e', Ok (Render items)) -> length items <= 10) /\
  (show_entries doc_slug query e = (e', Ok (Render items)) -> length items <= 8).
Proof.
  split; intros H; apply pbind_Ok_inv in H as (e1 & e0 & H1 & H); injection H1 as <- <-;
    apply pbind_Ok_inv in H as (e2 & v & _ & H);
    (destruct (negb (py_truthy v)); [injection H as _ <-; cbn; lia|]);
    exact (render_tail_bounded _ _ _ _ _ _ H).
Qed.

(** ** Opening a page *)

(** The address of a page: [slug], then [/path] when there is an entry. *)
Definition doc_path_of (doc : pystr) (entry : option pystr) : pystr :=
  match entry with Some p => doc ++ str "/" ++ p | None => doc end.

(** The action [open_in_devdocs] builds for the page [doc_path] in the
    mode [open_doc_in]. *)
Definition open_action (mode doc_path : pystr) : action :=
  let url := str "https://devdocs.io/" ++ doc_path in
  if pystr_eqb mode (str "Hawkeye") then RunScriptAction (str "hawkeye --uri=" ++ dq ++ url ++ dq)
  else if pystr_eqb mode (str "DevDocs Protocol") then OpenAction (str "devdocs://" ++ doc_path)
  else OpenUrlAction url.

Lemma open_in_devdocs_str prefs mode doc entry :
  getitem prefs (str "open_doc_in") = Ok (JStr mode) ->
  match entry with Some p => nonempty p = true | None => True end ->
  open_in_devdocs prefs (JStr doc) (option_map JStr entry) = Ok (open_action mode (doc_path_of doc entry)).
Proof.
  intros Hm He. unfold open_in_devdocs, open_action. rewrite Hm. cbn [rbind].
  destruct entry as [[|c p]|]; [discriminate| |];
    cbn [option_map py_truthy length Nat.eqb negb rbind py_concat doc_path_of py_str py_eq];
    rewrite <- ?app_assoc; destruct (pystr_eqb mode (str "Hawkeye")), (pystr_eqb mode (str "DevDocs Protocol")); reflexivity.
Qed.

(** (C20) [open_in_devdocs(doc, entry)] with the [str] preference
    [open_doc_in]: the page [https://devdocs.io/doc[/entry]] is run by
    [hawkeye] for ["Hawkeye"], opened as [devdocs://doc[/entry]] for
    ["DevDocs Protocol"], and opened in the browser otherwise. *)
Theorem open_in_devdocs_spec prefs mode doc entry :
  getitem prefs (str "open_doc_in") = Ok (JStr mode) ->
  match entry with Some p => nonempty p = true | None => True end ->
  open_in_devdocs prefs (JStr doc) (option_map JStr entry) =
  Ok (let url := str "https://devdocs.io/" ++ doc_path_of doc entry in
      if pystr_eqb mode (str "Hawkeye") then RunScriptAction (str "hawkeye --uri=" ++ dq ++ url ++ dq)
      else if pystr_eqb mode (str "DevDocs Protocol") then OpenAction (str "devdocs://" ++ doc_path_of doc entry)
      else OpenUrlAction url).
Proof. exact (open_in_devdocs_str prefs mode doc entry). Qed.

(** ** Witnesses *)

Definition website_prefs : json :=
  JObj [(str "open_doc_in", JStr (str "DevDocs Website")); (str "docs", JStr (str "javascript"))].

(** The extension on the cache of the spec's scenarios. *)
Definition scenario_ext : ext := {|
  ext_world := scenario_world; ext_svc := svc_of (str "/c") (JList []); ext_prefs := website_prefs;
  ext_base := str "/ext"; ext_timers := 0 |}.

(** The extension on the cache of the concrete sync. *)
Definition sync_ext : ext := {|
  ext_world := demo_world; ext_svc := svc_of (str "/c") (JList []); ext_prefs := website_prefs;
  ext_base := str "/ext"; ext_timers := 0 |}.

Definition boot_world : world := {| w_fs := <[str "/" := NDir]> ∅; w_trace := []; w_http := fun _ => HttpDown |}.

(** The extension [DevdocsExtension()] creates on an empty disk. *)
Definition boot_ext : ext :=
  match snd (extension_init (str "/home/u/.cache") (str "/ext") boot_world) with
  | Ok e => e
  | Err _ => scenario_ext
  end.

Definition php_items : list item :=
  match snd (show_entries (str "php") (str "array") scenario_ext) with
  | Ok (Render l) => l
  | _ => []
  end.

Lemma extension_layout_invariant_witness : layout_ok (fst (handle EvItemEnter boot_ext)).
Proof.
  apply (extension_layout_invariant (str "/home/u/.cache") (str "/ext") boot_world
           (fst (extension_init (str "/home/u/.cache") (str "/ext") boot_world)) boot_ext).
  - vm_compute. discriminate.
  - vm_compute. reflexivity.
  - eapply reach_step; [apply reach_init|]. apply (step_handle EvItemEnter _ _ (snd (handle EvItemEnter boot_ext))).
    apply surjective_pairing.
Defined.

Lemma on_keyword_doc_term_witness :
  on_keyword (Some (str "php" ++ ":"%char :: str "array_f")) (str "dd") scenario_ext =
  show_entries (str "php") (str "array_f") scenario_ext.
Proof.
  apply (on_keyword_doc_term _ _ _ _ [docset "python" "Python"; docset "go" "Go"]); concrete.
Defined.

Lemma on_keyword_known_doc_witness :
  on_keyword (Some (str "chan")) (str "go") scenario_ext = show_entries (str "go") (str "chan") scenario_ext.
Proof.
  apply (on_keyword_known_doc scenario_ext (str "go") (Some (str "chan")) [docset "python" "Python"; docset "go" "Go"]);
    concrete.
Defined.

Lemma timers_accumulate_witness :
  ext_timers (fst (handle (EvPreferencesUpdate (str "docs") (JStr (str "javascript"))) sync_ext)) = 1.
Proof. apply (proj1 (timers_accumulate sync_ext (JStr (str "javascript")) 0)). vm_compute. reflexivity. Defined.

Lemma rendered_lists_bounded_witness : length php_items <= 8.
Proof.
  apply (proj2 (rendered_lists_bounded [] (str "array") (str "php") scenario_ext scenario_ext php_items)).
  vm_compute. reflexivity.
Defined.

Lemma open_in_devdocs_spec_witness :
  open_in_devdocs (JObj [(str "open_doc_in", JStr (str "Hawkeye"))]) (JStr (str "php"))
    (option_map JStr (Some (str "function.array-filter"))) =
  Ok (RunScriptAction (str "hawkeye --uri=" ++ dq ++ str "https://devdocs.io/php/function.array-filter" ++ dq)).
Proof. rewrite (open_in_devdocs_spec _ (str "Hawkeye")); reflexivity. Defined.

