(* ===== verification/Render.v ===== *)
(** * What the launcher shows: the search composed with the rendering

    [DevdocsExtension.list_available_docs] and [show_entries]
    (src/main.py, lines 110-168) call the service's [get_docs] and
    [get_doc_entries] (src/devdocs/devdocs_service.py, lines 93-131) and
    turn the first 10 documents or the first 8 entries into result items,
    with [get_icon] (lines 63-81) and [open_in_devdocs] (lines 83-108).
    This file states, for a cache that holds well-formed documents and
    entries, the exact list of items the launcher receives: the view of
    each of the first results of the search, in the order of the search,
    or the single item that says nothing matched.  The views are written
    as functions of the disk and the preferences ([icon_of], [entry_view],
    [doc_view]), so the theorems compose the search theorems of
    Service.v and Ranking.v with the rendering of Extension.v. *)

From Stdlib Require Import Ascii String List Bool Arith Lia Permutation.
From stdpp Require Import base gmap strings.
From S2P Require Import Prelude PyStr Json JsonText StableSort Ranking CacheStore Service Extension.
Import ListNotations.
Local Open Scope py_scope.

(** ** The views *)

(** The icon [get_icon] picks for a [str] slug on the disk [w]: the
    slug's image, else the image of the part before [~], else the
    extension's icon. *)
Definition icon_of (base doc_slug : pystr) (w : world) : pystr :=
  let images := path_join base (str "images") in
  let base_doc := hd [] (py_split "~"%char doc_slug) in
  match lookup_path (path_join images (doc_slug ++ str ".png")) w with
  | Some _ => str "images/" ++ doc_slug ++ str ".png"
  | None =>
      match lookup_path (path_join images (base_doc ++ str ".png")) w with
      | Some _ => str "images/" ++ base_doc ++ str ".png"
      | None => str "images/icon.png"
      end
  end.

(** [x[k]], or [None] when it raises. *)
Definition field (x : json) (k : pystr) : json :=
  match getitem x k with Ok v => v | Err _ => JNull end.

Definition path_of (x : json) : pystr :=
  match getitem x (str "path") with Ok (JStr p) => p | _ => [] end.

(** [entry['path']] as [open_in_devdocs] uses it: an empty path is falsy. *)
Definition entry_opt (p : pystr) : option pystr := if nonempty p then Some p else None.

(** An entry [show_entries] can render: a [str] name, a type and a [str] path. *)
Definition entry_shaped (x : json) : Prop :=
  Ranking.named x (Ranking.name_of x) /\ getitem x (str "type") = Ok (field x (str "type")) /\
  getitem x (str "path") = Ok (JStr (path_of x)).

(** The item of an entry. *)
Definition entry_view (base mode doc_slug : pystr) (w : world) (x : json) : item :=
  {| it_icon := icon_of base doc_slug w; it_name := JStr (Ranking.name_of x); it_description := field x (str "type");
     it_highlightable := true; it_on_enter := open_action mode (doc_path_of doc_slug (entry_opt (path_of x)));
     it_on_alt_enter := None |}.

(** A document [list_available_docs] can render: a [str] slug and name. *)
Definition doc_shaped (x : json) : Prop :=
  getitem x (str "slug") = Ok (JStr (slug_of x)) /\ Ranking.named x (Ranking.name_of x).

(** [doc.get('release', "")] *)
Definition release_of (x : json) : json :=
  match dict_get x (str "release") (JStr []) with Ok v => v | Err _ => JNull end.

(** The item of a document. *)
Definition doc_view (base mode keyword : pystr) (w : world) (x : json) : item :=
  {| it_icon := icon_of base (slug_of x) w; it_name := JStr (Ranking.name_of x); it_description := release_of x;
     it_highlightable := true; it_on_enter := SetUserQueryAction (keyword ++ str " " ++ slug_of x ++ str ":");
     it_on_alt_enter := Some (open_action mode (doc_path_of (slug_of x) None)) |}.

(** The entries [get_doc_entries] returns for stored [items]. *)
Definition ranked (query : pystr) (items : list json) : list json :=
  if nonempty query then sort_desc (Ranking.score query) Ranking.qle (List.filter (Ranking.matches query) items)
  else items.

(** The items shown for the results [l]: the views of the first [n], or
    the item [empty] when there is none. *)
Definition rendered (empty : string) (view : json -> item) (n : nat) (l : list json) : list item :=
  match l with [] => [empty_item empty] | _ => map view (firstn n l) end.

(** ** Lemmas *)

Lemma get_icon_str base s (w : world) : get_icon base (JStr s) w = (w, Ok (icon_of base s w)).
Proof.
  unfold get_icon, icon_of, pbind, os_path_exists, lift, pret. cbn [py_str].
  destruct (lookup_path (path_join (path_join base (str "images")) (s ++ str ".png")) w); [reflexivity|].
  destruct (lookup_path _ w); reflexivity.
Qed.

Lemma open_in_devdocs_path prefs mode doc p :
  getitem prefs (str "open_doc_in") = Ok (JStr mode) ->
  open_in_devdocs prefs (JStr doc) (Some (JStr p)) = Ok (open_action mode (doc_path_of doc (entry_opt p))).
Proof.
  intros Hm. unfold entry_opt. destruct p as [|c p].
  - transitivity (open_in_devdocs prefs (JStr doc) (option_map JStr None)); [reflexivity|].
    exact (open_in_devdocs_str prefs mode doc None Hm I).
  - exact (open_in_devdocs_str prefs mode doc (Some (c :: p)) Hm eq_refl).
Qed.

Lemma entry_item_view base prefs mode doc_slug (w : world) x :
  getitem prefs (str "open_doc_in") = Ok (JStr mode) -> entry_shaped x ->
  entry_item base prefs doc_slug x w = (w, Ok (entry_view base mode doc_slug w x)).
Proof.
  intros Hm (Hn & Ht & Hp). unfold entry_item.
  rewrite (pbind_Ok _ _ _ _ _ (get_icon_str _ _ _)).
  rewrite (pbind_lift_Ok _ _ _ _ Hn), (pbind_lift_Ok _ _ _ _ Ht), (pbind_lift_Ok _ _ _ _ Hp).
  rewrite (pbind_lift_Ok _ _ _ _ (open_in_devdocs_path _ _ _ _ Hm)). reflexivity.
Qed.

Lemma dict_get_of_getitem x k k' v d :
  getitem x k = Ok v -> exists v', dict_get x k' d = Ok v'.
Proof. destruct x; cbn; try discriminate. intros _. eauto. Qed.

Lemma doc_item_view base prefs mode keyword (w : world) x :
  getitem prefs (str "open_doc_in") = Ok (JStr mode) -> doc_shaped x ->
  doc_item base prefs keyword x w = (w, Ok (doc_view base mode keyword w x)).
Proof.
  intros Hm (Hs & Hn). unfold doc_item.
  rewrite (pbind_lift_Ok _ _ _ _ Hs), (pbind_Ok _ _ _ _ _ (get_icon_str _ _ _)), (pbind_lift_Ok _ _ _ _ Hn).
  destruct (dict_get_of_getitem x _ (str "release") _ (JStr []) Hs) as [r Hr].
  rewrite (pbind_lift_Ok _ _ _ _ Hr).
  rewrite (pbind_lift_Ok _ _ _ _ (open_in_devdocs_str prefs mode (slug_of x) None Hm I)).
  unfold doc_view, release_of. now rewrite Hr.
Qed.

Lemma ranked_in query items x : In x (ranked query items) -> In x items.
Proof.
  unfold ranked. destruct (nonempty query); [|auto].
  intros Hx. apply (Permutation_in _ (Permutation_sym (sort_desc_perm _ _ _))) in Hx.
  now apply filter_In in Hx as [Hx _].
Qed.

Lemma docs_result_in query items x : In x (docs_result (Some query) items) -> In x items.
Proof. cbn [docs_result]. destruct (nonempty query); [|auto]. now intros [Hx _]%filter_In. Qed.

(** The tail shared by [list_available_docs] and [show_entries]: a list
    of results, rendered by a loop body that only computes. *)
Lemma render_pure (mk : json -> PyM world item) (view : json -> item) empty n l e :
  (forall x, In x l -> mk x (ext_world e) = (ext_world e, Ok (view x))) ->
  (if negb (py_truthy (JList l)) then pret (Render [empty_item empty])
   else first <- lift (py_slice_to (JList l) n) ;; ds <- lift (py_iter first) ;;
        its <- on_world (map_m mk ds) ;; pret (Render its)) e =
  (e, Ok (Render (rendered empty view n l))).
Proof.
  intros Hmk. destruct l as [|x l]; [reflexivity|]. cbn [py_truthy length Nat.eqb negb].
  rewrite (pbind_lift_Ok _ (JList (firstn n (x :: l)))) by reflexivity.
  rewrite (pbind_lift_Ok _ (firstn n (x :: l))) by reflexivity.
  rewrite (pbind_Ok _ _ _ _ _ (on_world_read _ _ _ (map_m_pure _ view _ _ (fun y Hy => Hmk y (in_firstn _ _ _ Hy))))).
  reflexivity.
Qed.

(** ** What the launcher shows *)

(** (C28) A search inside a document, [show_entries(doc_slug, query)],
    on an entries file that holds [{"entries": items}], every entry with
    a [str] name, a type and a [str] path, and with a [str] [open_doc_in]
    preference: the launcher receives, without any change of state, the
    items of the first 8 entries of the ranked search (all entries for the
    empty query, else those whose name contains the stripped query, by
    descending [difflib] ratio, ties in stored order), each with the
    document's icon, the entry's name and type, and the action that opens
    [doc_slug/path]; or the single item "No entries found matching your
    criteria" when the search is empty. *)
Theorem show_entries_renders e doc_slug query mode data items :
  lookup_path (entries_path (ext_svc e) doc_slug) (ext_world e) = Some (NFile (json_dump data)) -> json_wf data ->
  getitem data (str "entries") = Ok (JList items) -> Forall entry_shaped items ->
  getitem (ext_prefs e) (str "open_doc_in") = Ok (JStr mode) ->
  show_entries doc_slug query e =
  (e, Ok (Render (rendered "No entries found matching your criteria"
                   (entry_view (ext_base e) mode doc_slug (ext_world e)) 8 (ranked query items)))).
Proof.
  intros Hp Hwf He Hs Hm. unfold show_entries. rewrite (pbind_Ok _ _ e e e) by reflexivity.
  assert (Hn : Forall (fun x => Ranking.named x (Ranking.name_of x)) items)
    by (refine (Forall_impl _ _ _ Hs _); now intros x []).
  rewrite (pbind_Ok _ _ _ _ _ (on_world_read _ _ _ (get_doc_entries_stored _ _ query _ _ _ Hp Hwf He Hn))).
  apply (render_pure _ _ _ 8 (ranked query items)). intros x Hx.
  apply entry_item_view; [exact Hm|]. apply ranked_in in Hx.
  exact (proj1 (List.Forall_forall _ _) Hs x Hx).
Qed.

(** (C29) The list of documents, [list_available_docs(keyword, query)],
    on an [index.json] that holds documents with a [str] slug and name,
    and with a [str] [open_doc_in] preference: the launcher receives,
    without any change of state, the items of the first 10 documents of
    the search (all of them for the empty query, else those whose name
    contains the stripped query, in stored order), each with its icon,
    name and release, the action that completes the query to
    [keyword slug:] and the alternative action that opens the document;
    or the single item "No documentation found matching your criteria". *)
Theorem list_available_docs_renders e keyword query mode docs :
  lookup_path (index_file (ext_svc e)) (ext_world e) = Some (NFile (json_dump (JList docs))) ->
  json_wf (JList docs) -> Forall doc_shaped docs ->
  getitem (ext_prefs e) (str "open_doc_in") = Ok (JStr mode) ->
  list_available_docs keyword query e =
  (e, Ok (Render (rendered "No documentation found matching your criteria"
                   (doc_view (ext_base e) mode keyword (ext_world e)) 10 (docs_result (Some query) docs)))).
Proof.
  intros Hp Hwf Hs Hm. unfold list_available_docs. rewrite (pbind_Ok _ _ e e e) by reflexivity.
  assert (Hn : Forall (fun x => Ranking.named x (Ranking.name_of x)) docs)
    by (refine (Forall_impl _ _ _ Hs _); now intros x []).
  rewrite (pbind_Ok _ _ _ _ _ (on_world_read _ _ _ (get_docs_stored _ (Some query) _ _ Hp Hwf Hn))).
  apply render_pure. intros x Hx.
  apply doc_item_view; [exact Hm|]. apply docs_result_in in Hx.
  exact (proj1 (List.Forall_forall _ _) Hs x Hx).
Qed.

(** ** Witnesses *)

(** [php:array] on the cache of the scenarios shows [array_filter] and
    [array_map], opening [php/array_filter] and [php/array_map]. *)
Lemma show_entries_renders_witness :
  show_entries (str "php") (str "array") scenario_ext =
  (scenario_ext, Ok (Render (rendered "No entries found matching your criteria"
     (entry_view (str "/ext") (str "DevDocs Website") (str "php") scenario_world) 8
     (ranked (str "array") [entry_json "array_filter"; entry_json "array_map"])))).
Proof.
  apply (show_entries_renders scenario_ext (str "php") (str "array") (str "DevDocs Website")
           (JObj [(str "entries", JList [entry_json "array_filter"; entry_json "array_map"])])); try reflexivity.
  - concrete.
  - repeat constructor.
Defined.

Lemma list_available_docs_renders_witness :
  list_available_docs (str "dd") (str "py") scenario_ext =
  (scenario_ext, Ok (Render (rendered "No documentation found matching your criteria"
     (doc_view (str "/ext") (str "DevDocs Website") (str "dd") scenario_world) 10
     (docs_result (Some (str "py")) [docset "python" "Python"; docset "go" "Go"])))).
Proof.
  apply (list_available_docs_renders scenario_ext (str "dd") (str "py") (str "DevDocs Website")); try reflexivity.
  - concrete.
  - repeat constructor.
Defined.
