(* ===== verification/Schedule.v ===== *)
(** * The refresh timers: the sync keeps running

    [DevdocsExtension.index_docs] (src/main.py, lines 52-61) runs
    [index()], shows a notification, then starts a [threading.Timer]
    that calls [index_docs] again after [get_index_cache_ttl()] seconds;
    the model counts the pending timers in [ext_timers], and a timer that
    fires is the event [EvTimer] ([on_timer]).  This file states the
    progress of that chain as a liveness property over the steps of the
    timer thread, with the [eventually] combinator of omni-semantics
    (a state satisfies [eventually P] when [P] holds there, or a step is
    possible and every state it may lead to satisfies [eventually P]):
    while the remote answers and the cache stays a cache, a pending timer
    leads, for every [n], to a state in which [docs.json] has been
    requested at least [n] times. *)

From Stdlib Require Import Ascii String List Bool Arith Lia.
From stdpp Require Import base gmap strings.
From S2P Require Import Prelude PyStr Json JsonText CacheStore Service Extension.
Import ListNotations.
Local Open Scope py_scope.

(** ** [eventually] over an omni-step relation *)

Section Eventually.
Context {St : Type} (can_step : St -> (St -> Prop) -> Prop).

(** [eventually P s]: [P] holds at [s] already, or [s] can take a step
    and every state that step may reach satisfies [eventually P]. *)
Inductive eventually (P : St -> Prop) : St -> Prop :=
| ev_now s : P s -> eventually P s
| ev_later s (next : St -> Prop) : can_step s next -> (forall s', next s' -> eventually P s') -> eventually P s.

Lemma eventually_mono (P Q : St -> Prop) s : (forall s', P s' -> Q s') -> eventually P s -> eventually Q s.
Proof. intros HPQ. induction 1 as [s Hs|s next Hn _ IH]; [now apply ev_now, HPQ|exact (ev_later _ s next Hn IH)]. Qed.
End Eventually.

(** ** The timer thread *)

(** A pending [Timer] fires and runs [index_docs]: the only successor
    is the state [on_timer] leaves. *)
Definition timer_fires (e : ext) (next : ext -> Prop) : Prop :=
  0 < ext_timers e /\ next (fst (on_timer e)).

(** [requests.get(DEVDOCS_INDEX_ALL_URL)] in a trace. *)
Definition is_index_get (ev : event) : bool :=
  match ev with EGet u => pystr_eqb u DEVDOCS_INDEX_ALL_URL | _ => false end.

Definition index_requests (tr : list event) : nat := length (List.filter is_index_get tr).

(** The extension before a timer fires, with a remote that answers: its
    service is [svc_of dir sel], a sync on its world succeeds, and a
    timer is pending. *)
Definition timer_ready (dir : pystr) (sel : json) (docs : list json) (ent : pystr -> json) (e : ext) : Prop :=
  ext_svc e = svc_of dir sel /\ sync_ready dir sel docs (ext_world e) /\
  Forall (fetchable (svc_of dir sel) ent (ext_world e)) (kept_docs sel docs) /\ 0 < ext_timers e.

(** ** Lemmas *)

Lemma index_requests_app tr1 tr2 : index_requests (tr1 ++ tr2) = index_requests tr1 + index_requests tr2.
Proof. unfold index_requests. now rewrite List.filter_app, length_app. Qed.

Lemma index_requests_events svc kept : 1 <= index_requests (index_events svc kept).
Proof. unfold index_events, index_requests. cbn [List.filter is_index_get app]. rewrite pystr_eqb_refl. cbn. lia. Qed.

(** The notification after the sync changes neither the files nor the remote. *)
Lemma sync_ready_emit dir sel docs ent ev (w : world) :
  sync_ready dir sel docs w -> Forall (fetchable (svc_of dir sel) ent w) (kept_docs sel docs) ->
  sync_ready dir sel docs (emit ev w) /\ Forall (fetchable (svc_of dir sel) ent (emit ev w)) (kept_docs sel docs).
Proof. destruct w. auto. Qed.

(** A timer that fires and whose sync succeeds: the notification, then
    the successor timer. *)
Lemma on_timer_Ok e n (w' : world) :
  ext_timers e = S n -> index (ext_svc e) (ext_world e) = (w', Ok tt) ->
  fst (on_timer e) =
  {| ext_world := emit (ENotify (str "Ulauncher Devdocs") (str "Index Finished")) w'; ext_svc := ext_svc e;
     ext_prefs := ext_prefs e; ext_base := ext_base e; ext_timers := S n |}.
Proof.
  intros Hn Hi. destruct e as [w0 svc p b t]. cbn [ext_timers ext_svc ext_world] in *. subst t.
  unfold on_timer, index_docs, pbind, pget, on_world, pmodify. cbn -[index]. now rewrite Hi.
Qed.

(** A timer that fires on a ready extension syncs, keeps the extension
    ready, starts its successor, and requests [docs.json] once more. *)
Lemma on_timer_ready dir sel docs ent e :
  timer_ready dir sel docs ent e ->
  timer_ready dir sel docs ent (fst (on_timer e)) /\
  index_requests (w_trace (ext_world e)) < index_requests (w_trace (ext_world (fst (on_timer e)))).
Proof.
  intros (Hs & Hr & Hk & Ht). destruct (Nat.lt_exists_pred 0 _ Ht) as (n & En & _).
  destruct (index_keeps_ready _ _ _ _ _ Hr Hk) as [Hr' Hk'].
  pose proof (index_success _ _ _ _ _ Hr Hk) as Hi. rewrite Hi in Hr', Hk'. cbn [fst] in Hr', Hk'.
  rewrite (on_timer_Ok _ _ _ En (eq_trans (f_equal (fun svc => index svc (ext_world e)) Hs) Hi)).
  destruct (sync_ready_emit _ _ _ _ (ENotify (str "Ulauncher Devdocs") (str "Index Finished")) _ Hr' Hk')
    as [Hr'' Hk''].
  split; [split; [exact Hs|split; [exact Hr''|split; [exact Hk''|cbn; lia]]]|].
  cbn [ext_world w_trace emit world_fs_state]. rewrite !index_requests_app.
  pose proof (index_requests_events (svc_of dir sel) (kept_docs sel docs)). lia.
Qed.

(** For every [k], the timer thread of a ready extension eventually
    requests [docs.json] [k] more times. *)
Lemma timer_requests_grow dir sel docs ent k : forall e,
  timer_ready dir sel docs ent e ->
  eventually timer_fires
    (fun e' => index_requests (w_trace (ext_world e)) + k <= index_requests (w_trace (ext_world e'))) e.
Proof.
  induction k as [|k IH]; intros e He; [apply ev_now; lia|].
  destruct (on_timer_ready _ _ _ _ _ He) as [He' Hlt].
  apply (ev_later _ _ _ (fun e' => e' = fst (on_timer e))).
  - split; [exact (proj2 (proj2 (proj2 He)))|reflexivity].
  - intros e' ->. refine (eventually_mono _ _ _ _ _ (IH _ He')). intros s Hs. lia.
Qed.

(** (C26) The refresh chain keeps going: from an extension with a
    pending timer whose syncs succeed (the remote answers [docs.json] and
    every kept entries request, and the cache directories are in place),
    the timer thread alone leads, for every [n], to a state in which
    [docs.json] has been requested at least [n] times: each timer that
    fires syncs and starts its successor, and the sync leaves the cache
    ready for the next one. *)
Theorem timers_keep_syncing dir sel docs ent e n :
  timer_ready dir sel docs ent e ->
  eventually timer_fires (fun e' => n <= index_requests (w_trace (ext_world e'))) e.
Proof.
  intros He. refine (eventually_mono _ _ _ _ _ (timer_requests_grow _ _ _ _ n e He)). intros s Hs. lia.
Qed.

(** ** Witnesses *)

(** The extension on the cache of the concrete sync, with the preference
    ["javascript"] and one pending timer. *)
Definition live_ext : ext := {|
  ext_world := demo_world; ext_svc := svc_of (str "/c") (JStr (str "javascript")); ext_prefs := website_prefs;
  ext_base := str "/ext"; ext_timers := 1 |}.

Lemma timers_keep_syncing_witness :
  eventually timer_fires (fun e' => 3 <= index_requests (w_trace (ext_world e'))) live_ext.
Proof.
  apply (timers_keep_syncing (str "/c") (JStr (str "javascript")) demo_docs demo_entries live_ext 3).
  split; [reflexivity|]. cbv delta [live_ext ext_world ext_timers] iota beta.
  split; [concrete|split; [concrete|lia]].
Defined.
